(** * The raylet's task dependency manager

    A shallow embedding of [src/ray/raylet/task_dependency_manager.cc] and
    the proofs of its bookkeeping properties.  The six member containers of
    the C++ class become finite maps and finite sets, every member function
    becomes a function on the record of these containers, a failing
    [RAY_CHECK] becomes the outcome [Aborts], and the calls made on the two
    collaborators are appended to a log kept next to the containers. *)

From stdpp Require Import gmap strings list fin_maps fin_sets.

Local Open Scope Z_scope.
Set Warnings "-clear-no-such-hyp".

(** ** Identifiers and messages *)

(** [TaskID] and [WorkerID] are opaque identifiers that are only compared and
    hashed.  An [ObjectID] is the identifier of the task that creates the
    object followed by the index of the object among the task's outputs;
    [TaskId] projects the former. *)
Abbreviation TaskID := N (only parsing).
Abbreviation WorkerID := N (only parsing).
Abbreviation ObjectID := (N * N)%type (only parsing).

Definition TaskId (object_id : ObjectID) : TaskID := object_id.1.

(** [rpc::Address]: the only field read by the manager is [worker_id]. *)
Record Address : Type := mkAddress {
  raylet_id : string;
  ip_address : string;
  port : Z;
  worker_id : string
}.

(** A default-constructed [rpc::Address]. *)
Definition Address_default : Address := mkAddress "" "" 0 "".

(** [rpc::ObjectReference], with the binary object id already decoded by
    [ObjectID::FromBinary]. *)
Record ObjectReference : Type := mkObjectReference {
  ref_object_id : ObjectID;
  ref_owner_address : Address
}.

(** The part of [Task] that [TaskPending] inspects. *)
Inductive DispatchCallback : Type := dispatch_callback (handle : N).

Record Task : Type := mkTask {
  IsActorCreationTask : bool;
  TaskSpecification_TaskId : TaskID;
  OnDispatch : option DispatchCallback
}.

(** ** The member records *)

Record ObjectDependencies : Type := mkObjectDependencies {
  owner_address : Address;
  dependent_tasks : gset TaskID;
  dependent_workers : gset WorkerID
}.

(** The constructor [ObjectDependencies(ref)] keeps the owner address of the
    reference and starts with no dependents. *)
Definition ObjectDependencies_of (ref : ObjectReference) : ObjectDependencies :=
  mkObjectDependencies (ref_owner_address ref) ∅ ∅.

Definition Empty (d : ObjectDependencies) : bool :=
  bool_decide (dependent_tasks d = ∅) && bool_decide (dependent_workers d = ∅).

(** [num_missing_get_dependencies] is a 64-bit counter in the class
    declaration; it counts elements of an in-memory set, so it is kept as an
    unbounded integer. *)
Record TaskDependencies : Type := mkTaskDependencies {
  get_dependencies : gset ObjectID;
  num_missing_get_dependencies : Z
}.

(** A value-initialised [TaskDependencies], as created by [operator[]]. *)
Definition TaskDependencies_new : TaskDependencies := mkTaskDependencies ∅ 0.

(** ** Collaborators *)

(** The calls the manager makes on the object manager and on the
    reconstruction policy. *)
Inductive Call : Type :=
  | Pull (object_id : ObjectID) (owner : Address)
  | ListenAndMaybeReconstruct (object_id : ObjectID) (owner : Address)
  | CancelPull (object_id : ObjectID)
  | Cancel (object_id : ObjectID).

Inductive Status : Type := OK | NotOK.

(** The object manager is an interface; the only thing the manager observes
    of it is the [Status] that [Pull] returns, which may depend on the calls
    it has received so far. *)
Class ObjectManagerInterface := Pull_status : list Call → ObjectID → Address → Status.

(** An object manager that accepts every pull, and one that refuses all. *)
Definition accepting_object_manager : ObjectManagerInterface := λ _ _ _, OK.
Definition refusing_object_manager : ObjectManagerInterface := λ _ _ _, NotOK.

(** ** The state of a [TaskDependencyManager] *)

Record TaskDependencyManager : Type := mkTaskDependencyManager {
  local_objects_ : gset ObjectID;
  task_dependencies_ : gmap TaskID TaskDependencies;
  worker_dependencies_ : gmap WorkerID (gset ObjectID);
  required_tasks_ : gmap TaskID (gmap ObjectID ObjectDependencies);
  required_objects_ : gset ObjectID;
  pending_tasks_ : gset TaskID;
  (** the calls received by [object_manager_] and [reconstruction_policy_] *)
  outgoing_ : list Call
}.

(** The state right after the constructor. *)
Definition TaskDependencyManager_new : TaskDependencyManager :=
  mkTaskDependencyManager ∅ ∅ ∅ ∅ ∅ ∅ [].

Definition with_local_objects (v : gset ObjectID) (s : TaskDependencyManager) :=
  mkTaskDependencyManager v (task_dependencies_ s) (worker_dependencies_ s)
    (required_tasks_ s) (required_objects_ s) (pending_tasks_ s) (outgoing_ s).
Definition with_task_dependencies (v : gmap TaskID TaskDependencies)
    (s : TaskDependencyManager) :=
  mkTaskDependencyManager (local_objects_ s) v (worker_dependencies_ s)
    (required_tasks_ s) (required_objects_ s) (pending_tasks_ s) (outgoing_ s).
Definition with_worker_dependencies (v : gmap WorkerID (gset ObjectID))
    (s : TaskDependencyManager) :=
  mkTaskDependencyManager (local_objects_ s) (task_dependencies_ s) v
    (required_tasks_ s) (required_objects_ s) (pending_tasks_ s) (outgoing_ s).
Definition with_required_tasks (v : gmap TaskID (gmap ObjectID ObjectDependencies))
    (s : TaskDependencyManager) :=
  mkTaskDependencyManager (local_objects_ s) (task_dependencies_ s)
    (worker_dependencies_ s) v (required_objects_ s) (pending_tasks_ s) (outgoing_ s).
Definition with_required_objects (v : gset ObjectID) (s : TaskDependencyManager) :=
  mkTaskDependencyManager (local_objects_ s) (task_dependencies_ s)
    (worker_dependencies_ s) (required_tasks_ s) v (pending_tasks_ s) (outgoing_ s).
Definition with_pending_tasks (v : gset TaskID) (s : TaskDependencyManager) :=
  mkTaskDependencyManager (local_objects_ s) (task_dependencies_ s)
    (worker_dependencies_ s) (required_tasks_ s) (required_objects_ s) v (outgoing_ s).
Definition with_outgoing (v : list Call) (s : TaskDependencyManager) :=
  mkTaskDependencyManager (local_objects_ s) (task_dependencies_ s)
    (worker_dependencies_ s) (required_tasks_ s) (required_objects_ s)
    (pending_tasks_ s) v.

(** ** Outcomes *)

(** The [RAY_CHECK]s of the file, named after what they check. *)
Inductive Check : Type :=
  | check_pull_ok                (* RAY_CHECK_OK(object_manager_.Pull(..)) *)
  | check_local_inserted         (* HandleObjectLocal: inserted.second *)
  | check_worker_erased          (* HandleObjectLocal: worker erase > 0 *)
  | check_local_erased           (* HandleObjectMissing: erased == 1 *)
  | check_entry_found            (* Unsubscribe*: it != end() *)
  | check_dependent_erased       (* Unsubscribe*: erase(id) > 0 *)
  | check_no_dependents_left.    (* RemoveTasksAndRelatedObjects *)

Inductive Failure : Type :=
  | CheckFailed (c : Check)
  (** dereferencing the [end()] iterator of [required_tasks_] *)
  | DereferencedEnd.

Inductive Outcome (A : Type) : Type :=
  | Returns (a : A)
  | Aborts (f : Failure).
Arguments Returns {A} a.
Arguments Aborts {A} f.

#[global] Instance Outcome_ret : MRet Outcome := λ A a, Returns a.
#[global] Instance Outcome_bind : MBind Outcome := λ A B k m,
  match m with
  | Returns a => k a
  | Aborts f => Aborts f
  end.

(** A [for] loop whose body may abort. *)
Fixpoint for_each {A S : Type} (body : A → S → Outcome S) (l : list A) (s : S)
    : Outcome S :=
  match l with
  | [] => Returns s
  | x :: l => s' ← body x s; for_each body l s'
  end.

(** ** The required-tasks index *)

Abbreviation RequiredTasks := (gmap TaskID (gmap ObjectID ObjectDependencies)) (only parsing).

(** [required_tasks_[TaskId o]], which is the empty map when the outer entry
    does not exist (and is created by [operator[]]). *)
Definition objects_of (rt : RequiredTasks) (creating_task_id : TaskID)
    : gmap ObjectID ObjectDependencies :=
  default ∅ (rt !! creating_task_id).

(** The two-level [find] that every member function starts with. *)
Definition find_entry (rt : RequiredTasks) (object_id : ObjectID)
    : option ObjectDependencies :=
  inner ← rt !! TaskId object_id; inner !! object_id.

(** Writing through the iterator [it] of the object's entry. *)
Definition store_entry (rt : RequiredTasks) (object_id : ObjectID)
    (d : ObjectDependencies) : RequiredTasks :=
  <[TaskId object_id := <[object_id := d]> (objects_of rt (TaskId object_id))]> rt.

(** [creating_task_entry->second.erase(it)], followed by the erasure of the
    outer entry when the inner map has become empty. *)
Definition erase_entry (rt : RequiredTasks) (object_id : ObjectID) : RequiredTasks :=
  let inner := delete object_id (objects_of rt (TaskId object_id)) in
  if decide (size inner = 0%nat) then delete (TaskId object_id) rt
  else <[TaskId object_id := inner]> rt.

(** [find] in [required_tasks_[creating_task_id]], [emplace] when absent. *)
Definition find_or_emplace (rt : RequiredTasks) (ref : ObjectReference)
    : ObjectDependencies :=
  match objects_of rt (TaskId (ref_object_id ref)) !! ref_object_id ref with
  | Some d => d
  | None => ObjectDependencies_of ref
  end.

(** ** Required-pull reconciliation *)

Definition CheckObjectLocal (s : TaskDependencyManager) (object_id : ObjectID) : bool :=
  bool_decide (object_id ∈ local_objects_ s).

(** [owner_address] is the content of the cell the pointer designates, or
    [None] for [nullptr]; the second component is the cell afterwards. *)
Definition CheckObjectRequired (s : TaskDependencyManager) (object_id : ObjectID)
    (owner_address_out : option Address) : bool * option Address :=
  let task_id := TaskId object_id in
  match required_tasks_ s !! task_id with
  | None => (false, owner_address_out)
  | Some task_entry =>
    match task_entry !! object_id with
    | None => (false, owner_address_out)
    | Some d =>
      if decide (object_id ∈ local_objects_ s) then (false, owner_address_out)
      else if decide (task_id ∈ pending_tasks_ s) then (false, owner_address_out)
      else (true, match owner_address_out with
                  | Some _ => Some (owner_address d)
                  | None => None
                  end)
    end
  end.

Section WithObjectManager.
Context {object_manager_ : ObjectManagerInterface}.

Definition HandleRemoteDependencyRequired (object_id : ObjectID)
    (s : TaskDependencyManager) : Outcome TaskDependencyManager :=
  let '(required, cell) := CheckObjectRequired s object_id (Some Address_default) in
  let owner := default Address_default cell in
  if required then
    if decide (object_id ∈ required_objects_ s) then Returns s
    else
      let s := with_required_objects ({[object_id]} ∪ required_objects_ s) s in
      match Pull_status (outgoing_ s) object_id owner with
      | OK =>
        Returns (with_outgoing
                   (outgoing_ s ++ [Pull object_id owner;
                                    ListenAndMaybeReconstruct object_id owner]) s)
      | NotOK => Aborts (CheckFailed check_pull_ok)
      end
  else Returns s.

End WithObjectManager.

Definition HandleRemoteDependencyCanceled (object_id : ObjectID)
    (s : TaskDependencyManager) : TaskDependencyManager :=
  let required := (CheckObjectRequired s object_id None).1 in
  if required then s
  else if decide (object_id ∈ required_objects_ s) then
    with_required_objects (required_objects_ s ∖ {[object_id]})
      (with_outgoing (outgoing_ s ++ [CancelPull object_id; Cancel object_id]) s)
  else s.

(** ** Objects appearing and vanishing *)

(** One round of the loop over [dependent_tasks] in [HandleObjectLocal]. *)
Definition mark_dependency_local
    (acc : list TaskID * gmap TaskID TaskDependencies) (dependent_task_id : TaskID)
    : list TaskID * gmap TaskID TaskDependencies :=
  let '(ready_task_ids, td) := acc in
  let task_entry := default TaskDependencies_new (td !! dependent_task_id) in
  let n := num_missing_get_dependencies task_entry - 1 in
  (if decide (n = 0) then ready_task_ids ++ [dependent_task_id] else ready_task_ids,
   <[dependent_task_id := mkTaskDependencies (get_dependencies task_entry) n]> td).

(** One round of the loop over [dependent_workers] in [HandleObjectLocal]. *)
Definition erase_worker_dependency (object_id : ObjectID) (worker_id : WorkerID)
    (wd : gmap WorkerID (gset ObjectID)) : Outcome (gmap WorkerID (gset ObjectID)) :=
  let worker_entry := default ∅ (wd !! worker_id) in
  if decide (object_id ∈ worker_entry)
  then Returns (<[worker_id := worker_entry ∖ {[object_id]}]> wd)
  else Aborts (CheckFailed check_worker_erased).

Definition HandleObjectLocal (object_id : ObjectID) (s : TaskDependencyManager)
    : Outcome (list TaskID * TaskDependencyManager) :=
  if decide (object_id ∈ local_objects_ s) then Aborts (CheckFailed check_local_inserted)
  else
    let s := with_local_objects ({[object_id]} ∪ local_objects_ s) s in
    '(ready_task_ids, s) ←
      match find_entry (required_tasks_ s) object_id with
      | Some d =>
        let '(ready_task_ids, td) :=
          foldl mark_dependency_local ([], task_dependencies_ s)
                (elements (dependent_tasks d)) in
        wd ← for_each (erase_worker_dependency object_id)
                      (elements (dependent_workers d)) (worker_dependencies_ s);
        let d := mkObjectDependencies (owner_address d) (dependent_tasks d) ∅ in
        let rt := if Empty d then erase_entry (required_tasks_ s) object_id
                  else store_entry (required_tasks_ s) object_id d in
        Returns (ready_task_ids,
                 with_required_tasks rt
                   (with_worker_dependencies wd (with_task_dependencies td s)))
      | None => Returns ([], s)
      end;
    Returns (ready_task_ids, HandleRemoteDependencyCanceled object_id s).

(** One round of the loop over [dependent_tasks] in [HandleObjectMissing]. *)
Definition mark_dependency_missing
    (acc : list TaskID * gmap TaskID TaskDependencies) (dependent_task_id : TaskID)
    : list TaskID * gmap TaskID TaskDependencies :=
  let '(waiting_task_ids, td) := acc in
  let task_entry := default TaskDependencies_new (td !! dependent_task_id) in
  (if decide (num_missing_get_dependencies task_entry = 0)
   then waiting_task_ids ++ [dependent_task_id] else waiting_task_ids,
   <[dependent_task_id :=
       mkTaskDependencies (get_dependencies task_entry)
                          (num_missing_get_dependencies task_entry + 1)]> td).

Section WithObjectManager.
Context {object_manager_ : ObjectManagerInterface}.

Definition HandleObjectMissing (object_id : ObjectID) (s : TaskDependencyManager)
    : Outcome (list TaskID * TaskDependencyManager) :=
  if decide (object_id ∈ local_objects_ s) then
    let s := with_local_objects (local_objects_ s ∖ {[object_id]}) s in
    let '(waiting_task_ids, s) :=
      match find_entry (required_tasks_ s) object_id with
      | Some d =>
        let '(waiting_task_ids, td) :=
          foldl mark_dependency_missing ([], task_dependencies_ s)
                (elements (dependent_tasks d)) in
        (waiting_task_ids, with_task_dependencies td s)
      | None => ([], s)
      end in
    s ← HandleRemoteDependencyRequired object_id s;
    Returns (waiting_task_ids, s)
  else Aborts (CheckFailed check_local_erased).

(** ** Subscribing *)

(** The body of the first loop of [SubscribeGetDependencies]. *)
Definition record_get_dependency (task_id : TaskID) (s : TaskDependencyManager)
    (object : ObjectReference) : TaskDependencyManager :=
  let object_id := ref_object_id object in
  let task_entry := default TaskDependencies_new (task_dependencies_ s !! task_id) in
  if decide (object_id ∈ get_dependencies task_entry) then s
  else
    let task_entry :=
      mkTaskDependencies
        ({[object_id]} ∪ get_dependencies task_entry)
        (if decide (object_id ∈ local_objects_ s)
         then num_missing_get_dependencies task_entry
         else num_missing_get_dependencies task_entry + 1) in
    let it := find_or_emplace (required_tasks_ s) object in
    let it := mkObjectDependencies (owner_address it)
                ({[task_id]} ∪ dependent_tasks it) (dependent_workers it) in
    with_required_tasks (store_entry (required_tasks_ s) object_id it)
      (with_task_dependencies (<[task_id := task_entry]> (task_dependencies_ s)) s).

Definition SubscribeGetDependencies (task_id : TaskID)
    (required_objects : list ObjectReference) (s : TaskDependencyManager)
    : Outcome (bool * TaskDependencyManager) :=
  (* auto &task_entry = task_dependencies_[task_id]; *)
  let s := with_task_dependencies
             (<[task_id := default TaskDependencies_new (task_dependencies_ s !! task_id)]>
                (task_dependencies_ s)) s in
  let s := foldl (record_get_dependency task_id) s required_objects in
  s ← for_each (λ object, HandleRemoteDependencyRequired (ref_object_id object))
               required_objects s;
  let task_entry := default TaskDependencies_new (task_dependencies_ s !! task_id) in
  Returns (bool_decide (num_missing_get_dependencies task_entry = 0), s).

(** The body of the first loop of [SubscribeWaitDependencies]. *)
Definition record_wait_dependency (worker_id : WorkerID) (s : TaskDependencyManager)
    (object : ObjectReference) : TaskDependencyManager :=
  let object_id := ref_object_id object in
  let worker_entry := default ∅ (worker_dependencies_ s !! worker_id) in
  if decide (object_id ∈ local_objects_ s) then s
  else if decide (object_id ∈ worker_entry) then s
  else
    let it := find_or_emplace (required_tasks_ s) object in
    let it := mkObjectDependencies (owner_address it)
                (dependent_tasks it) ({[worker_id]} ∪ dependent_workers it) in
    with_required_tasks (store_entry (required_tasks_ s) object_id it)
      (with_worker_dependencies
         (<[worker_id := {[object_id]} ∪ worker_entry]> (worker_dependencies_ s)) s).

Definition SubscribeWaitDependencies (worker_id : WorkerID)
    (required_objects : list ObjectReference) (s : TaskDependencyManager)
    : Outcome TaskDependencyManager :=
  (* auto &worker_entry = worker_dependencies_[worker_id]; *)
  let s := with_worker_dependencies
             (<[worker_id := default ∅ (worker_dependencies_ s !! worker_id)]>
                (worker_dependencies_ s)) s in
  let s := foldl (record_wait_dependency worker_id) s required_objects in
  for_each (λ object, HandleRemoteDependencyRequired (ref_object_id object))
           required_objects s.

End WithObjectManager.

(** ** Unsubscribing *)

(** The body of the first loop of [UnsubscribeGetDependencies] and of
    [UnsubscribeWaitDependencies]: [erase_dependent] removes the subscriber
    from the entry, or fails when it is not there. *)
Definition remove_dependent
    (erase_dependent : ObjectDependencies → option ObjectDependencies)
    (object_id : ObjectID) (rt : RequiredTasks) : Outcome RequiredTasks :=
  match rt !! TaskId object_id with
  | None => Aborts DereferencedEnd
  | Some inner =>
    match inner !! object_id with
    | None => Aborts (CheckFailed check_entry_found)
    | Some d =>
      match erase_dependent d with
      | None => Aborts (CheckFailed check_dependent_erased)
      | Some d =>
        if Empty d then Returns (erase_entry rt object_id)
        else Returns (store_entry rt object_id d)
      end
    end
  end.

Definition erase_dependent_task (task_id : TaskID) (d : ObjectDependencies)
    : option ObjectDependencies :=
  if decide (task_id ∈ dependent_tasks d)
  then Some (mkObjectDependencies (owner_address d)
               (dependent_tasks d ∖ {[task_id]}) (dependent_workers d))
  else None.

Definition erase_dependent_worker (worker_id : WorkerID) (d : ObjectDependencies)
    : option ObjectDependencies :=
  if decide (worker_id ∈ dependent_workers d)
  then Some (mkObjectDependencies (owner_address d)
               (dependent_tasks d) (dependent_workers d ∖ {[worker_id]}))
  else None.

Definition UnsubscribeGetDependencies (task_id : TaskID) (s : TaskDependencyManager)
    : Outcome (bool * TaskDependencyManager) :=
  match task_dependencies_ s !! task_id with
  | None => Returns (false, s)
  | Some task_entry =>
    let s := with_task_dependencies (delete task_id (task_dependencies_ s)) s in
    rt ← for_each (remove_dependent (erase_dependent_task task_id))
                  (elements (get_dependencies task_entry)) (required_tasks_ s);
    let s := with_required_tasks rt s in
    Returns (true,
             foldl (λ s object_id, HandleRemoteDependencyCanceled object_id s) s
                   (elements (get_dependencies task_entry)))
  end.

Definition UnsubscribeWaitDependencies (worker_id : WorkerID)
    (s : TaskDependencyManager) : Outcome TaskDependencyManager :=
  match worker_dependencies_ s !! worker_id with
  | None => Returns s
  | Some worker_entry =>
    let s := with_worker_dependencies (delete worker_id (worker_dependencies_ s)) s in
    rt ← for_each (remove_dependent (erase_dependent_worker worker_id))
                  (elements worker_entry) (required_tasks_ s);
    let s := with_required_tasks rt s in
    Returns (foldl (λ s object_id, HandleRemoteDependencyCanceled object_id s) s
                   (elements worker_entry))
  end.

(** ** Tasks becoming pending and being cancelled *)

(** The objects of an inner map of [required_tasks_], in iteration order. *)
Definition object_ids (inner : gmap ObjectID ObjectDependencies) : list ObjectID :=
  elements (dom inner).

Definition TaskPending (task : Task) (s : TaskDependencyManager)
    : TaskDependencyManager :=
  if IsActorCreationTask task && bool_decide (OnDispatch task = None) then
    let task_id := TaskSpecification_TaskId task in
    if decide (task_id ∈ pending_tasks_ s) then s
    else
      let s := with_pending_tasks ({[task_id]} ∪ pending_tasks_ s) s in
      match required_tasks_ s !! task_id with
      | Some remote_task_entry =>
        foldl (λ s object_id, HandleRemoteDependencyCanceled object_id s) s
              (object_ids remote_task_entry)
      | None => s
      end
  else s.

Section WithObjectManager.
Context {object_manager_ : ObjectManagerInterface}.

Definition TaskCanceled (task_id : TaskID) (s : TaskDependencyManager)
    : Outcome TaskDependencyManager :=
  if decide (task_id ∈ pending_tasks_ s) then
    let s := with_pending_tasks (pending_tasks_ s ∖ {[task_id]}) s in
    match required_tasks_ s !! task_id with
    | Some remote_task_entry =>
      for_each HandleRemoteDependencyRequired (object_ids remote_task_entry) s
    | None => Returns s
    end
  else Returns s.

End WithObjectManager.

(** ** Bulk removal *)

(** The body of the first loop of [RemoveTasksAndRelatedObjects]. *)
Definition collect_and_forget
    (acc : gset ObjectID * TaskDependencyManager) (task_id : TaskID)
    : gset ObjectID * TaskDependencyManager :=
  let '(required_objects, s) := acc in
  let required_objects :=
    match task_dependencies_ s !! task_id with
    | Some task_entry => required_objects ∪ get_dependencies task_entry
    | None => required_objects
    end in
  (required_objects,
   with_pending_tasks (pending_tasks_ s ∖ {[task_id]})
     (with_task_dependencies (delete task_id (task_dependencies_ s)) s)).

(** The body of the second loop. *)
Definition cancel_created_by (s : TaskDependencyManager) (object_id : ObjectID)
    : TaskDependencyManager :=
  HandleRemoteDependencyCanceled object_id
    (with_required_tasks (delete (TaskId object_id) (required_tasks_ s)) s).

Definition RemoveTasksAndRelatedObjects (task_ids : gset TaskID)
    (s : TaskDependencyManager) : Outcome TaskDependencyManager :=
  let '(required_objects, s) := foldl collect_and_forget (∅, s) (elements task_ids) in
  let s := foldl cancel_created_by s (elements required_objects) in
  for_each (λ task_id s,
              match required_tasks_ s !! task_id with
              | None => Returns s
              | Some _ => Aborts (CheckFailed check_no_dependents_left)
              end) (elements task_ids) s.

(** ** Projections *)

(** [owner_address_out] is the content of the cell the pointer designates
    before the call; the second component is its content afterwards. *)
Definition GetOwnerAddress (s : TaskDependencyManager) (object_id : ObjectID)
    (owner_address_out : Address) : bool * Address :=
  match required_tasks_ s !! TaskId object_id with
  | None => (false, owner_address_out)
  | Some creating_task_entry =>
    match creating_task_entry !! object_id with
    | None => (false, owner_address_out)
    | Some it =>
      let owner_address_out := owner_address it in
      (negb (bool_decide (worker_id owner_address_out = "")), owner_address_out)
    end
  end.

(** ** Sequences of public operations *)

Inductive Operation : Type :=
  | OpSubscribeGetDependencies (task_id : TaskID) (required_objects : list ObjectReference)
  | OpSubscribeWaitDependencies (worker_id : WorkerID) (required_objects : list ObjectReference)
  | OpUnsubscribeGetDependencies (task_id : TaskID)
  | OpUnsubscribeWaitDependencies (worker_id : WorkerID)
  | OpHandleObjectLocal (object_id : ObjectID)
  | OpHandleObjectMissing (object_id : ObjectID)
  | OpTaskPending (task : Task)
  | OpTaskCanceled (task_id : TaskID)
  | OpRemoveTasksAndRelatedObjects (task_ids : gset TaskID).

Section WithObjectManager.
Context {object_manager_ : ObjectManagerInterface}.

(** The state in which an operation returns, its result forgotten. *)
Definition perform (op : Operation) (s : TaskDependencyManager)
    : Outcome TaskDependencyManager :=
  match op with
  | OpSubscribeGetDependencies task_id required_objects =>
      r ← SubscribeGetDependencies task_id required_objects s; Returns r.2
  | OpSubscribeWaitDependencies worker_id required_objects =>
      SubscribeWaitDependencies worker_id required_objects s
  | OpUnsubscribeGetDependencies task_id =>
      r ← UnsubscribeGetDependencies task_id s; Returns r.2
  | OpUnsubscribeWaitDependencies worker_id => UnsubscribeWaitDependencies worker_id s
  | OpHandleObjectLocal object_id => r ← HandleObjectLocal object_id s; Returns r.2
  | OpHandleObjectMissing object_id => r ← HandleObjectMissing object_id s; Returns r.2
  | OpTaskPending task => Returns (TaskPending task s)
  | OpTaskCanceled task_id => TaskCanceled task_id s
  | OpRemoveTasksAndRelatedObjects task_ids => RemoveTasksAndRelatedObjects task_ids s
  end.

Definition perform_all (ops : list Operation) (s : TaskDependencyManager)
    : Outcome TaskDependencyManager :=
  for_each perform ops s.

End WithObjectManager.

(** ** State predicates *)

(** [objectIsRequired] of the specification: [CheckObjectRequired] called
    without an output cell. *)
Definition objectIsRequired (s : TaskDependencyManager) (object_id : ObjectID) : bool :=
  (CheckObjectRequired s object_id None).1.

Definition dependent_tasks_of (s : TaskDependencyManager) (object_id : ObjectID)
    : gset TaskID :=
  match find_entry (required_tasks_ s) object_id with
  | Some d => dependent_tasks d
  | None => ∅
  end.

Definition dependent_workers_of (s : TaskDependencyManager) (object_id : ObjectID)
    : gset WorkerID :=
  match find_entry (required_tasks_ s) object_id with
  | Some d => dependent_workers d
  | None => ∅
  end.

(** The wait-set of a worker, empty when the worker has no entry. *)
Definition wait_set (s : TaskDependencyManager) (worker_id : WorkerID) : gset ObjectID :=
  default ∅ (worker_dependencies_ s !! worker_id).

(** The counter of a subscribed task. *)
Definition num_missing (s : TaskDependencyManager) (task_id : TaskID) : option Z :=
  num_missing_get_dependencies <$> task_dependencies_ s !! task_id.

(** The task-readiness projection: the subscribed tasks with their counters. *)
Definition readiness (s : TaskDependencyManager) : gmap TaskID Z :=
  num_missing_get_dependencies <$> task_dependencies_ s.

(** Invariant I3: every counter is the number of non-local dependencies. *)
Definition counters_exact (s : TaskDependencyManager) : Prop :=
  ∀ task_id task_entry,
    task_dependencies_ s !! task_id = Some task_entry →
    num_missing_get_dependencies task_entry
    = Z.of_nat (size (get_dependencies task_entry ∖ local_objects_ s)).

(** Invariant I4: the active pulls are the required objects. *)
Definition pulls_exact (s : TaskDependencyManager) : Prop :=
  ∀ object_id, object_id ∈ required_objects_ s ↔ objectIsRequired s object_id = true.

(** The objects that [RemoveTasksAndRelatedObjects] collects in its first
    loop. *)
Definition collected_objects (task_ids : gset TaskID) (s : TaskDependencyManager)
    : gset ObjectID :=
  (foldl collect_and_forget (∅, s) (elements task_ids)).1.

(** The caller's side of [RemoveTasksAndRelatedObjects]: every subscriber of
    an object in an outer entry that the call erases is one of the purged
    tasks. *)
Definition subscribers_purged (task_ids : gset TaskID) (s : TaskDependencyManager)
    : Prop :=
  ∀ object_id, object_id ∈ collected_objects task_ids s →
    map_Forall (λ _ d, dependent_workers d = ∅ ∧ dependent_tasks d ⊆ task_ids)
               (objects_of (required_tasks_ s) (TaskId object_id)).

#[global] Instance subscribers_purged_dec task_ids s : Decision (subscribers_purged task_ids s).
Proof. unfold subscribers_purged. apply _. Defined.

Definition honours_contract (s : TaskDependencyManager) (op : Operation) : Prop :=
  match op with
  | OpRemoveTasksAndRelatedObjects task_ids => subscribers_purged task_ids s
  | _ => True
  end.

#[global] Instance honours_contract_dec s op : Decision (honours_contract s op).
Proof. destruct op; simpl; apply _. Defined.

(** The references of a call with the later occurrences of every object
    identifier dropped. *)
Fixpoint collapse_duplicates (seen : gset ObjectID) (refs : list ObjectReference)
    : list ObjectReference :=
  match refs with
  | [] => []
  | object :: refs =>
    if decide (ref_object_id object ∈ seen) then collapse_duplicates seen refs
    else object :: collapse_duplicates ({[ref_object_id object]} ∪ seen) refs
  end.

(** The keys of an inner map of the index are objects created by the task
    that keys the outer entry. *)
Definition well_keyed (s : TaskDependencyManager) : Prop :=
  ∀ creating_task_id inner object_id,
    required_tasks_ s !! creating_task_id = Some inner →
    is_Some (inner !! object_id) → TaskId object_id = creating_task_id.

(** Every dependent recorded in the index is a subscriber that declared the
    object. *)
Definition dependents_subscribed (s : TaskDependencyManager) : Prop :=
  ∀ object_id d, find_entry (required_tasks_ s) object_id = Some d →
    (∀ task_id, task_id ∈ dependent_tasks d →
       ∃ task_entry, task_dependencies_ s !! task_id = Some task_entry
                     ∧ object_id ∈ get_dependencies task_entry) ∧
    (∀ worker_id, worker_id ∈ dependent_workers d → object_id ∈ wait_set s worker_id).

(** Every required object is being pulled. *)
Definition pulls_cover (s : TaskDependencyManager) : Prop :=
  ∀ object_id, objectIsRequired s object_id = true → object_id ∈ required_objects_ s.

(** Invariant I5: no local object is being pulled. *)
Definition pulls_remote (s : TaskDependencyManager) : Prop :=
  ∀ object_id, object_id ∈ required_objects_ s → object_id ∉ local_objects_ s.

(** What holds after any sequence of operations. *)
Record consistent (s : TaskDependencyManager) : Prop := mk_consistent {
  consistent_keyed : well_keyed s;
  consistent_dependents : dependents_subscribed s;
  consistent_cover : pulls_cover s;
  consistent_remote : pulls_remote s
}.

(** Every declared dependency of a subscribed task is recorded in the index. *)
Definition subscriptions_indexed (s : TaskDependencyManager) : Prop :=
  ∀ task_id task_entry object_id,
    task_dependencies_ s !! task_id = Some task_entry →
    object_id ∈ get_dependencies task_entry →
    task_id ∈ dependent_tasks_of s object_id.

(** The index holds no entry without dependents. *)
Definition no_empty_entries (s : TaskDependencyManager) : Prop :=
  ∀ object_id d, find_entry (required_tasks_ s) object_id = Some d → Empty d = false.

(** What holds in addition while the bulk removal is used as intended. *)
Record synced (s : TaskDependencyManager) : Prop := mk_synced {
  synced_indexed : subscriptions_indexed s;
  synced_no_empty : no_empty_entries s;
  synced_counters : counters_exact s;
  synced_pulls : pulls_exact s
}.

Section WithObjectManager.
Context {object_manager_ : ObjectManagerInterface}.

(** The states in which some sequence of public operations, started on a
    fresh manager, has returned. *)
Inductive reachable : TaskDependencyManager → Prop :=
  | reachable_new : reachable TaskDependencyManager_new
  | reachable_perform s op s' :
      reachable s → perform op s = Returns s' → reachable s'.

(** The same, for callers that honour the contract of the bulk removal. *)
Inductive reachable_honouring : TaskDependencyManager → Prop :=
  | reachable_honouring_new : reachable_honouring TaskDependencyManager_new
  | reachable_honouring_perform s op s' :
      reachable_honouring s → honours_contract s op → perform op s = Returns s' →
      reachable_honouring s'.

End WithObjectManager.

Section WithObjectManager.
Context {object_manager_ : ObjectManagerInterface}.

(** The object manager accepts every pull of the object. *)
Definition accepts_pulls_of (object_id : ObjectID) : Prop :=
  ∀ calls owner, Pull_status calls object_id owner = OK.

(** The caller honours the contract of the bulk removal at every step of a
    sequence of operations started in [s]. *)
Fixpoint contract_honoured (ops : list Operation) (s : TaskDependencyManager) : Prop :=
  match ops with
  | [] => True
  | op :: ops =>
    honours_contract s op ∧
    match perform op s with
    | Returns s' => contract_honoured ops s'
    | Aborts _ => True
    end
  end.

(** The state a sequence of operations leaves a fresh manager in. *)
Definition state_after (ops : list Operation) : TaskDependencyManager :=
  match perform_all ops TaskDependencyManager_new with
  | Returns s => s
  | Aborts _ => TaskDependencyManager_new
  end.

End WithObjectManager.

(** ** Sample identifiers *)

Definition sample_owner : Address := mkAddress "raylet-1" "10.0.0.1" 6379 "worker-1".
Definition sample_stale_owner : Address := mkAddress "raylet-2" "10.0.0.2" 6379 "".
Definition task_1 : TaskID := 1%N.
Definition task_2 : TaskID := 2%N.
Definition worker_1 : WorkerID := 1%N.
Definition creator : TaskID := 7%N.
Definition object_1 : ObjectID := (creator, 1%N).
Definition object_2 : ObjectID := (creator, 2%N).
Definition restarted_actor : Task := mkTask true creator None.

(** ** Replaying the outgoing calls *)

#[global] Instance Address_eq_dec : EqDecision Address.
Proof. solve_decision. Defined.

#[global] Instance Call_eq_dec : EqDecision Call.
Proof. solve_decision. Defined.

(** One step of a replay of the calls received by the collaborators.  The
    state is the set of objects with an open pull, and the call that has to
    come next when the previous call was the first of a pair; [None] means
    that the calls seen so far were not well paired. *)
Definition replay_call (st : option (gset ObjectID * option Call)) (c : Call)
    : option (gset ObjectID * option Call) :=
  '(open, expected) ← st;
  match expected with
  | Some c' => if decide (c = c') then Some (open, None) else None
  | None =>
    match c with
    | Pull o a =>
      if decide (o ∈ open) then None
      else Some ({[o]} ∪ open, Some (ListenAndMaybeReconstruct o a))
    | CancelPull o =>
      if decide (o ∈ open) then Some (open ∖ {[o]}, Some (Cancel o)) else None
    | _ => None
    end
  end.

Definition replay (calls : list Call) : option (gset ObjectID * option Call) :=
  foldl replay_call (Some (∅, None)) calls.

(** ** Auxiliary notions used in the proofs *)

(** A property of the index that the three ways of updating it keep. *)
Definition index_closed (P : gmap TaskID (gmap ObjectID ObjectDependencies) → Prop)
    : Prop :=
  (∀ rt o d, P rt → P (store_entry rt o d)) ∧
  (∀ rt o, P rt → P (erase_entry rt o)) ∧
  (∀ rt c, P rt → P (delete c rt)).

(** No outer entry of the index holds an empty map. *)
Definition no_empty_outer (rt : gmap TaskID (gmap ObjectID ObjectDependencies)) : Prop :=
  ∀ creating_task_id inner, rt !! creating_task_id = Some inner → inner ≠ ∅.

(** Every object in the wait-set of a worker has a record that lists the
    worker. *)
Definition waits_indexed (s : TaskDependencyManager) : Prop :=
  ∀ worker object_id, object_id ∈ wait_set s worker →
                      worker ∈ dependent_workers_of s object_id.

(** The calls made so far are well paired and the open pulls are the
    objects of [required_objects_]. *)
Definition logged (s : TaskDependencyManager) : Prop :=
  replay (outgoing_ s) = Some (required_objects_ s, None).

(** The indices that decide whether an object is required. *)
Definition same_indices (s s' : TaskDependencyManager) : Prop :=
  local_objects_ s' = local_objects_ s ∧
  task_dependencies_ s' = task_dependencies_ s ∧
  worker_dependencies_ s' = worker_dependencies_ s ∧
  required_tasks_ s' = required_tasks_ s ∧
  pending_tasks_ s' = pending_tasks_ s.

(** The index gains entries for objects of [L] only, the other containers
    that decide requiredness being untouched. *)
Definition entries_grow (L : list ObjectID) (s s1 : TaskDependencyManager) : Prop :=
  local_objects_ s1 = local_objects_ s ∧
  pending_tasks_ s1 = pending_tasks_ s ∧
  required_objects_ s1 = required_objects_ s ∧
  ∀ o, (is_Some (find_entry (required_tasks_ s) o) →
        is_Some (find_entry (required_tasks_ s1) o)) ∧
       (is_Some (find_entry (required_tasks_ s1) o) →
        is_Some (find_entry (required_tasks_ s) o) ∨ o ∈ L).

(** The index loses entries of objects of [L] only, the other containers
    that decide requiredness being untouched. *)
Definition entries_shrink (L : list ObjectID) (s s1 : TaskDependencyManager) : Prop :=
  local_objects_ s1 = local_objects_ s ∧
  pending_tasks_ s1 = pending_tasks_ s ∧
  required_objects_ s1 = required_objects_ s ∧
  ∀ o, (is_Some (find_entry (required_tasks_ s1) o) →
        is_Some (find_entry (required_tasks_ s) o)) ∧
       (is_Some (find_entry (required_tasks_ s) o) →
        is_Some (find_entry (required_tasks_ s1) o) ∨ o ∈ L).

Definition entry_of (td : gmap TaskID TaskDependencies) (t : TaskID) : TaskDependencies :=
  default TaskDependencies_new (td !! t).

Definition decremented (e : TaskDependencies) : TaskDependencies :=
  mkTaskDependencies (get_dependencies e) (num_missing_get_dependencies e - 1).

Definition incremented (e : TaskDependencies) : TaskDependencies :=
  mkTaskDependencies (get_dependencies e) (num_missing_get_dependencies e + 1).

Definition cleared_entry (od : option ObjectDependencies) : option ObjectDependencies :=
  d ← od;
  let d' := mkObjectDependencies (owner_address d) (dependent_tasks d) ∅ in
  if Empty d' then None else Some d'.

(** The objects recorded in the index under a creating task. *)
Definition created_by (s : TaskDependencyManager) (task_id : TaskID) : list ObjectID :=
  object_ids (objects_of (required_tasks_ s) task_id).

Definition tracked (task : Task) : bool :=
  IsActorCreationTask task && bool_decide (OnDispatch task = None).

(** An object is settled when reconciling it again changes nothing. *)
Definition settled (s : TaskDependencyManager) (o : ObjectID) : Prop :=
  objectIsRequired s o = true → o ∈ required_objects_ s.

(** A sequence with a bulk removal of every subscriber of the objects of
    [creator], followed by a new subscription. *)
Definition sample_operations : list Operation :=
  [OpSubscribeGetDependencies task_1 [mkObjectReference object_1 sample_owner];
   OpSubscribeGetDependencies task_2 [mkObjectReference object_1 sample_owner;
                                      mkObjectReference object_2 sample_owner];
   OpHandleObjectLocal object_2;
   OpRemoveTasksAndRelatedObjects {[task_1; task_2]};
   OpSubscribeGetDependencies task_1 [mkObjectReference object_1 sample_owner;
                                      mkObjectReference object_2 sample_owner]].

(** A sequence that breaks the contract: the bulk removal of
    [task_1] erases the outer entry of [creator], and with it the record of
    [object_2], on which [task_2] still waits. *)
Definition careless_operations : list Operation :=
  [OpSubscribeGetDependencies task_1 [mkObjectReference object_1 sample_owner];
   OpSubscribeGetDependencies task_2 [mkObjectReference object_2 sample_owner];
   OpRemoveTasksAndRelatedObjects {[task_1]}].

(** The number of the objects of [X] that are not in [L]. *)
Definition missing_count (X L : gset ObjectID) : Z := Z.of_nat (size (X ∖ L)).

Section WithObjectManager.
Context {object_manager_ : ObjectManagerInterface}.

#[global] Instance contract_honoured_dec ops s : Decision (contract_honoured ops s).
Proof.
  revert s. induction ops as [|op ops IH]; intros s; simpl; [apply _|].
  apply and_dec; [apply _|]. destruct (perform op s); [apply IH|apply _].
Defined.

End WithObjectManager.

(** * Proofs *)

(** ** The required-tasks index *)

Section RequiredTasksFacts.
Implicit Types (rt : gmap TaskID (gmap ObjectID ObjectDependencies)).
Implicit Types (o : ObjectID) (d : ObjectDependencies).

Lemma find_entry_Some rt o d :
  find_entry rt o = Some d ↔
  ∃ inner, rt !! TaskId o = Some inner ∧ inner !! o = Some d.
Proof.
  unfold find_entry. destruct (rt !! TaskId o) as [inner|]; simpl.
  - split; [eauto|]. by intros (? & [= <-] & ?).
  - split; [done|]. by intros (? & ? & ?).
Qed.

Lemma find_entry_objects_of rt o :
  objects_of rt (TaskId o) !! o = find_entry rt o.
Proof. unfold find_entry, objects_of. by destruct (rt !! TaskId o). Qed.

Lemma find_entry_store rt o d o' :
  find_entry (store_entry rt o d) o'
  = if decide (o' = o) then Some d else find_entry rt o'.
Proof.
  unfold find_entry at 1, store_entry. case_decide as Ho; [subst o'|].
  - rewrite lookup_insert_eq. simpl. by rewrite lookup_insert_eq.
  - destruct (decide (TaskId o' = TaskId o)) as [Heq|Hne].
    + rewrite Heq, lookup_insert_eq. simpl. rewrite lookup_insert_ne by done.
      rewrite <- Heq. apply find_entry_objects_of.
    + by rewrite lookup_insert_ne.
Qed.

Lemma find_entry_erase rt o o' :
  find_entry (erase_entry rt o) o'
  = if decide (o' = o) then None else find_entry rt o'.
Proof.
  unfold find_entry at 1, erase_entry.
  destruct (decide (TaskId o' = TaskId o)) as [Heq|Hne].
  - rewrite Heq. case_decide as Hsz.
    + rewrite lookup_delete_eq. simpl. apply map_size_empty_iff in Hsz.
      case_decide as Ho; [done|].
      rewrite <- find_entry_objects_of, Heq.
      rewrite <- (lookup_delete_ne _ o o') by done. by rewrite Hsz.
    + rewrite lookup_insert_eq. simpl. case_decide as Ho; [subst o'|].
      * by rewrite lookup_delete_eq.
      * rewrite lookup_delete_ne by done. rewrite <- Heq.
        apply find_entry_objects_of.
  - rewrite (decide_False (P := o' = o)) by (by intros ->).
    case_decide; [by rewrite lookup_delete_ne|by rewrite lookup_insert_ne].
Qed.

Lemma find_entry_delete rt c o :
  find_entry (delete c rt) o
  = if decide (TaskId o = c) then None else find_entry rt o.
Proof.
  unfold find_entry. case_decide as Hc.
  - by rewrite Hc, lookup_delete_eq.
  - by rewrite lookup_delete_ne.
Qed.

Lemma find_or_emplace_spec rt ref :
  find_or_emplace rt ref
  = default (ObjectDependencies_of ref) (find_entry rt (ref_object_id ref)).
Proof. unfold find_or_emplace. rewrite find_entry_objects_of. by destruct find_entry. Qed.

Lemma Empty_true d : Empty d = true ↔ dependent_tasks d = ∅ ∧ dependent_workers d = ∅.
Proof.
  unfold Empty. rewrite andb_true_iff, !bool_decide_eq_true. done.
Qed.

Lemma Empty_false d : Empty d = false ↔ ¬ (dependent_tasks d = ∅ ∧ dependent_workers d = ∅).
Proof. rewrite <- Empty_true. by destruct (Empty d). Qed.

End RequiredTasksFacts.

(** ** Required-pull reconciliation *)


Lemma same_indices_refl s : same_indices s s.
Proof. by repeat split. Qed.

Lemma same_indices_trans s1 s2 s3 :
  same_indices s1 s2 → same_indices s2 s3 → same_indices s1 s3.
Proof. unfold same_indices. intuition congruence. Qed.

Lemma CheckObjectRequired_fst s o cell :
  (CheckObjectRequired s o cell).1 = objectIsRequired s o.
Proof.
  unfold objectIsRequired, CheckObjectRequired.
  repeat (case_match; simpl; try done).
Qed.

Lemma objectIsRequired_true s o :
  objectIsRequired s o = true ↔
  is_Some (find_entry (required_tasks_ s) o) ∧ (o ∉ local_objects_ s)
  ∧ (TaskId o ∉ pending_tasks_ s).
Proof.
  unfold objectIsRequired, CheckObjectRequired, find_entry.
  destruct (required_tasks_ s !! TaskId o) as [inner|]; simpl;
    [|split; [done|by intros [[? ?] _]]].
  destruct (inner !! o); simpl; [|split; [done|by intros [[? ?] _]]].
  repeat case_decide; simpl; split; try done; try tauto; eauto.
Qed.

Lemma objectIsRequired_same_indices s s' o :
  same_indices s s' → objectIsRequired s' o = objectIsRequired s o.
Proof.
  intros (Hl & _ & _ & Hrt & Hp).
  apply eq_true_iff_eq. rewrite !objectIsRequired_true, Hl, Hrt, Hp. done.
Qed.

Lemma HandleRemoteDependencyCanceled_spec o s :
  same_indices s (HandleRemoteDependencyCanceled o s) ∧
  required_objects_ (HandleRemoteDependencyCanceled o s)
  = if objectIsRequired s o then required_objects_ s
    else required_objects_ s ∖ {[o]}.
Proof.
  unfold HandleRemoteDependencyCanceled. rewrite CheckObjectRequired_fst.
  destruct (objectIsRequired s o); [split; [apply same_indices_refl|done]|].
  case_decide; simpl; (split; [by repeat split|]); [done|set_solver].
Qed.

Lemma cancel_loop_spec l s :
  let s' := foldl (λ s o, HandleRemoteDependencyCanceled o s) s l in
  same_indices s s' ∧
  ∀ o, o ∈ required_objects_ s' ↔
       o ∈ required_objects_ s ∧ (o ∈ l → objectIsRequired s o = true).
Proof.
  revert s. induction l as [|x l IH]; intros s; simpl.
  - split; [apply same_indices_refl|]. set_solver.
  - destruct (HandleRemoteDependencyCanceled_spec x s) as [Hsame Hro].
    destruct (IH (HandleRemoteDependencyCanceled x s)) as [Hsame' Hro'].
    split; [by eapply same_indices_trans|]. intros o. rewrite Hro'.
    rewrite (objectIsRequired_same_indices _ _ _ Hsame), Hro.
    destruct (decide (o = x)) as [->|Hne].
    + destruct (objectIsRequired s x) eqn:Hx; set_solver.
    + destruct (objectIsRequired s x); set_solver.
Qed.

Section ReconcileFacts.
Context {object_manager_ : ObjectManagerInterface}.

Lemma HandleRemoteDependencyRequired_spec o s s' :
  HandleRemoteDependencyRequired o s = Returns s' →
  same_indices s s' ∧
  required_objects_ s'
  = if objectIsRequired s o then {[o]} ∪ required_objects_ s else required_objects_ s.
Proof.
  unfold HandleRemoteDependencyRequired.
  pose proof (CheckObjectRequired_fst s o (Some Address_default)) as Hfst.
  destruct (CheckObjectRequired s o (Some Address_default)) as [required cell].
  simpl in Hfst. subst required.
  destruct (objectIsRequired s o); [|intros [= <-]; split; [apply same_indices_refl|done]].
  case_decide as Hin; [intros [= <-]; split; [apply same_indices_refl|set_solver]|].
  simpl. destruct Pull_status; [|done].
  intros [= <-]. split; [by repeat split|done].
Qed.

Lemma require_loop_spec l s s' :
  for_each HandleRemoteDependencyRequired l s = Returns s' →
  same_indices s s' ∧
  ∀ o, o ∈ required_objects_ s' ↔
       o ∈ required_objects_ s ∨ (o ∈ l ∧ objectIsRequired s o = true).
Proof.
  revert s. induction l as [|x l IH]; intros s; simpl.
  - intros [= <-]. split; [apply same_indices_refl|]. set_solver.
  - destruct (HandleRemoteDependencyRequired x s) as [s1|] eqn:Hx; [|done].
    simpl. intros Hl.
    destruct (HandleRemoteDependencyRequired_spec _ _ _ Hx) as [Hsame Hro].
    destruct (IH _ Hl) as [Hsame' Hro'].
    split; [by eapply same_indices_trans|]. intros o. rewrite Hro'.
    rewrite (objectIsRequired_same_indices _ _ _ Hsame), Hro.
    destruct (decide (o = x)) as [->|Hne].
    + destruct (objectIsRequired s x) eqn:Hx'; set_solver.
    + destruct (objectIsRequired s x); set_solver.
Qed.

Lemma HandleRemoteDependencyRequired_accepted o s :
  accepts_pulls_of o → ∃ s', HandleRemoteDependencyRequired o s = Returns s'.
Proof.
  intros Hok. unfold HandleRemoteDependencyRequired.
  destruct (CheckObjectRequired s o (Some Address_default)) as [[] cell]; [|eauto].
  case_decide; [eauto|]. simpl. rewrite Hok. eauto.
Qed.

Lemma require_loop_accepted l s :
  (∀ o, o ∈ l → accepts_pulls_of o) →
  ∃ s', for_each HandleRemoteDependencyRequired l s = Returns s'.
Proof.
  revert s. induction l as [|x l IH]; intros s Hok; simpl; [eauto|].
  destruct (HandleRemoteDependencyRequired_accepted x s) as [s1 ->];
    [apply Hok; left|].
  simpl. apply IH. intros o Ho. apply Hok. by right.
Qed.

End ReconcileFacts.

(** ** Loops *)

Lemma foldl_preserves {A S : Type} (P : S → Prop) (f : S → A → S) l s :
  (∀ s x, x ∈ l → P s → P (f s x)) → P s → P (foldl f s l).
Proof.
  revert s. induction l as [|x l IH]; intros s Hf Hs; simpl; [done|].
  apply IH; [|apply Hf; [left|done]]. intros ???. apply Hf. by right.
Qed.

Lemma for_each_preserves {A S : Type} (P : S → Prop) (f : A → S → Outcome S) l s s' :
  (∀ s s' x, x ∈ l → P s → f x s = Returns s' → P s') →
  P s → for_each f l s = Returns s' → P s'.
Proof.
  revert s. induction l as [|x l IH]; intros s Hf Hs; simpl.
  - by intros [= <-].
  - destruct (f x s) as [s1|] eqn:Hx; [|done]. simpl. apply IH.
    + intros ?????. eapply Hf; [by right|done..].
    + eapply Hf; [left|done..].
Qed.

Lemma filter_agree {A : Type} (P Q : A → Prop)
    `{!∀ x, Decision (P x)} `{!∀ x, Decision (Q x)} (l : list A) :
  (∀ x, x ∈ l → P x ↔ Q x) → filter P l = filter Q l.
Proof.
  induction l as [|x l IH]; intros HPQ; [done|].
  rewrite !filter_cons, IH by (intros; apply HPQ; by right).
  destruct (decide (P x)) as [HP|HP], (decide (Q x)) as [HQ|HQ]; try done;
    exfalso; apply (HPQ x) in HP || apply (HPQ x) in HQ; try done; left.
Qed.

Lemma for_each_app {A S : Type} (f : A → S → Outcome S) l1 l2 s :
  for_each f (l1 ++ l2) s = s' ← for_each f l1 s; for_each f l2 s'.
Proof.
  revert s. induction l1 as [|x l1 IH]; intros s; simpl; [done|].
  destruct (f x s); simpl; [apply IH|done].
Qed.

(** ** Index invariants under the elementary updates *)

Lemma well_keyed_store s o d :
  well_keyed s →
  well_keyed (with_required_tasks (store_entry (required_tasks_ s) o d) s).
Proof.
  intros Hwk c inner o'. simpl. unfold store_entry.
  destruct (decide (c = TaskId o)) as [->|Hne].
  - rewrite lookup_insert_eq. intros [= <-].
    destruct (decide (o' = o)) as [->|Hno]; [done|].
    rewrite lookup_insert_ne by done. unfold objects_of.
    destruct (required_tasks_ s !! TaskId o) eqn:Hrt; simpl.
    + by apply Hwk.
    + rewrite lookup_empty. by intros [? ?].
  - rewrite lookup_insert_ne by done. apply Hwk.
Qed.

Lemma well_keyed_erase s o :
  well_keyed s →
  well_keyed (with_required_tasks (erase_entry (required_tasks_ s) o) s).
Proof.
  intros Hwk c inner o'. simpl. unfold erase_entry. case_decide.
  - intros Hc%lookup_delete_Some. apply Hwk. apply Hc.
  - destruct (decide (c = TaskId o)) as [->|Hne].
    + rewrite lookup_insert_eq. intros [= <-].
      destruct (decide (o' = o)) as [->|Hno]; [done|].
      rewrite lookup_delete_ne by done. unfold objects_of.
      destruct (required_tasks_ s !! TaskId o) eqn:Hrt; simpl.
      * by apply Hwk.
      * rewrite lookup_empty. by intros [? ?].
    + rewrite lookup_insert_ne by done. apply Hwk.
Qed.

Lemma well_keyed_ext s s' :
  required_tasks_ s' = required_tasks_ s → well_keyed s → well_keyed s'.
Proof. intros Hrt Hwk. unfold well_keyed. rewrite Hrt. apply Hwk. Qed.

Lemma well_keyed_same_indices s s' : same_indices s s' → well_keyed s → well_keyed s'.
Proof. intros (_ & _ & _ & Hrt & _) Hwk. unfold well_keyed. rewrite Hrt. apply Hwk. Qed.

Lemma dependents_subscribed_same_indices s s' :
  same_indices s s' → dependents_subscribed s → dependents_subscribed s'.
Proof.
  intros (_ & Htd & Hwd & Hrt & _) Hd. unfold dependents_subscribed, wait_set.
  rewrite Hrt, Htd, Hwd. apply Hd.
Qed.

(** ** Subscribing *)

Lemma record_get_dependency_frame t s ref :
  let s' := record_get_dependency t s ref in
  local_objects_ s' = local_objects_ s ∧
  worker_dependencies_ s' = worker_dependencies_ s ∧
  required_objects_ s' = required_objects_ s ∧
  pending_tasks_ s' = pending_tasks_ s ∧
  outgoing_ s' = outgoing_ s.
Proof. unfold record_get_dependency. by case_decide. Qed.

Lemma record_get_dependency_entries t s ref o :
  let s' := record_get_dependency t s ref in
  (is_Some (find_entry (required_tasks_ s) o) →
   is_Some (find_entry (required_tasks_ s') o)) ∧
  (is_Some (find_entry (required_tasks_ s') o) →
   is_Some (find_entry (required_tasks_ s) o) ∨ o = ref_object_id ref).
Proof.
  unfold record_get_dependency. case_decide; simpl; [naive_solver|].
  rewrite find_entry_store. case_decide; naive_solver.
Qed.

Lemma record_get_dependency_keyed t s ref :
  well_keyed s → well_keyed (record_get_dependency t s ref).
Proof.
  intros Hwk. unfold record_get_dependency. case_decide; [done|].
  apply (well_keyed_store
           (with_task_dependencies _ s) (ref_object_id ref) _ Hwk).
Qed.

Lemma record_get_dependency_dependents t s ref :
  dependents_subscribed s → dependents_subscribed (record_get_dependency t s ref).
Proof.
  intros Hd. unfold record_get_dependency. case_decide as Hin; [done|].
  intros o d. simpl. rewrite find_entry_store, find_or_emplace_spec.
  unfold wait_set. simpl. case_decide as Ho; [subst o|].
  - intros [= <-]. simpl. split.
    + intros t' [->%elem_of_singleton|Ht']%elem_of_union.
      * rewrite lookup_insert_eq. eexists; split; [done|]. set_solver.
      * destruct (find_entry (required_tasks_ s) (ref_object_id ref)) as [d0|] eqn:Hf;
          simpl in Ht'; [|set_solver].
        destruct (Hd _ _ Hf) as [Ht _]. destruct (Ht _ Ht') as (e & He & Hoe).
        destruct (decide (t' = t)) as [->|Hne].
        -- rewrite lookup_insert_eq. eexists; split; [done|]. simpl.
           rewrite He. simpl. set_solver.
        -- rewrite lookup_insert_ne by done. eauto.
    + intros w Hw.
      destruct (find_entry (required_tasks_ s) (ref_object_id ref)) as [d0|] eqn:Hf;
        simpl in Hw; [|set_solver].
      by apply (Hd _ _ Hf).
  - intros Hf. destruct (Hd _ _ Hf) as [Ht Hw]. split; [|done].
    intros t' Ht'. destruct (Ht _ Ht') as (e & He & Hoe).
    destruct (decide (t' = t)) as [->|Hne].
    + rewrite lookup_insert_eq. eexists; split; [done|]. simpl.
      rewrite He. simpl. set_solver.
    + rewrite lookup_insert_ne by done. eauto.
Qed.

Lemma for_each_fmap {A B S : Type} (g : A → B) (f : B → S → Outcome S) l s :
  for_each (λ x, f (g x)) l s = for_each f (g <$> l) s.
Proof.
  revert s. induction l as [|x l IH]; intros s; simpl; [done|].
  destruct (f (g x) s); simpl; [apply IH|done].
Qed.


Lemma entries_grow_nil s : entries_grow [] s s.
Proof. repeat split; naive_solver. Qed.

Lemma entries_grow_app L1 L2 s s1 s2 :
  entries_grow L1 s s1 → entries_grow L2 s1 s2 → entries_grow (L1 ++ L2) s s2.
Proof.
  intros (Hl & Hp & Hro & He) (Hl' & Hp' & Hro' & He').
  repeat split; try congruence.
  - intros ?. by apply He', He.
  - intros [?|?]%He'; [|set_solver]. destruct (He o) as [_ [?|?]]; set_solver.
Qed.

Lemma entries_grow_required L s s1 o :
  entries_grow L s s1 →
  (objectIsRequired s o = true → objectIsRequired s1 o = true) ∧
  (objectIsRequired s1 o = true → objectIsRequired s o = true ∨ o ∈ L).
Proof.
  intros (Hl & Hp & Hro & He). rewrite !objectIsRequired_true, Hl, Hp.
  destruct (He o). naive_solver.
Qed.

Section SubscribeFacts.
Context {object_manager_ : ObjectManagerInterface}.

Lemma grow_then_require L s s1 s' :
  entries_grow L s s1 →
  for_each HandleRemoteDependencyRequired L s1 = Returns s' →
  (pulls_cover s → pulls_cover s') ∧
  (pulls_remote s → pulls_remote s') ∧
  (pulls_exact s → pulls_exact s').
Proof.
  intros Hgrow [Hsame Hro]%require_loop_spec.
  assert (∀ o, (objectIsRequired s o = true → objectIsRequired s' o = true) ∧
               (objectIsRequired s' o = true → objectIsRequired s o = true ∨ o ∈ L))
    as Hreq.
  { intros o. rewrite (objectIsRequired_same_indices _ _ _ Hsame).
    by apply entries_grow_required. }
  assert (∀ o, objectIsRequired s1 o = objectIsRequired s' o) as H1.
  { intros o. by rewrite (objectIsRequired_same_indices _ _ _ Hsame). }
  destruct Hgrow as (Hl & Hp & Hro1 & He).
  destruct Hsame as (Hl' & _).
  split; [|split].
  - intros Hc o Ho. apply Hro. rewrite H1. destruct (Hreq o) as [_ [?|?]]; [done|..].
    + left. rewrite Hro1. by apply Hc.
    + by right.
  - intros Hr o [Ho|[_ Ho]]%Hro.
    + rewrite Hl', Hl. apply Hr. by rewrite <- Hro1.
    + rewrite H1 in Ho. by apply objectIsRequired_true in Ho as (_ & ? & _).
  - intros Hx o. rewrite Hro, Hro1, H1. split.
    + intros [Ho|[_ Ho]]; [|done]. by apply Hreq, Hx.
    + intros Ho. destruct (Hreq o) as [_ [?|?]]; [done|..].
      * left. by apply Hx.
      * by right.
Qed.

Lemma record_get_dependency_grow t s refs :
  entries_grow (ref_object_id <$> refs) s (foldl (record_get_dependency t) s refs).
Proof.
  revert s. induction refs as [|ref refs IH]; intros s; simpl.
  - apply entries_grow_nil.
  - apply (entries_grow_app [_] _ s (record_get_dependency t s ref)); [|apply IH].
    destruct (record_get_dependency_frame t s ref) as (? & ? & ? & ? & ?).
    repeat split; try done.
    + by apply record_get_dependency_entries.
    + intros [?|?]%record_get_dependency_entries; set_solver.
Qed.

Lemma SubscribeGetDependencies_consistent t refs s b s' :
  SubscribeGetDependencies t refs s = Returns (b, s') → consistent s → consistent s'.
Proof.
  unfold SubscribeGetDependencies.
  set (s0 := with_task_dependencies _ s).
  destruct (for_each _ refs _) as [s2|] eqn:Hloop; [|done]. simpl.
  intros [= _ <-] [Hk Hd Hc Hr].
  rewrite for_each_fmap in Hloop.
  pose proof (record_get_dependency_grow t s0 refs) as Hgrow.
  destruct (grow_then_require _ _ _ _ Hgrow Hloop) as (Hc' & Hr' & _).
  apply require_loop_spec in Hloop as [Hsame _].
  split.
  - eapply well_keyed_same_indices; [done|].
    apply foldl_preserves; [intros; by apply record_get_dependency_keyed|done].
  - eapply dependents_subscribed_same_indices; [done|].
    apply foldl_preserves; [intros; by apply record_get_dependency_dependents|].
    intros o d Hf. destruct (Hd o d Hf) as [Ht Hw]. split; [|done].
    intros t' Ht'. destruct (Ht _ Ht') as (e & He & Hoe). simpl.
    destruct (decide (t' = t)) as [->|Hne].
    + rewrite lookup_insert_eq, He. eauto.
    + rewrite lookup_insert_ne by done. eauto.
  - apply Hc'. intros o. apply Hc.
  - apply Hr'. intros o. apply Hr.
Qed.

End SubscribeFacts.

Lemma record_wait_dependency_frame w s ref :
  let s' := record_wait_dependency w s ref in
  local_objects_ s' = local_objects_ s ∧
  task_dependencies_ s' = task_dependencies_ s ∧
  required_objects_ s' = required_objects_ s ∧
  pending_tasks_ s' = pending_tasks_ s ∧
  outgoing_ s' = outgoing_ s.
Proof. unfold record_wait_dependency. by repeat case_decide. Qed.

Lemma record_wait_dependency_entries w s ref o :
  let s' := record_wait_dependency w s ref in
  (is_Some (find_entry (required_tasks_ s) o) →
   is_Some (find_entry (required_tasks_ s') o)) ∧
  (is_Some (find_entry (required_tasks_ s') o) →
   is_Some (find_entry (required_tasks_ s) o) ∨ o = ref_object_id ref).
Proof.
  unfold record_wait_dependency. repeat case_decide; simpl; [naive_solver..|].
  rewrite find_entry_store. case_decide; naive_solver.
Qed.

Lemma record_wait_dependency_keyed w s ref :
  well_keyed s → well_keyed (record_wait_dependency w s ref).
Proof.
  intros Hwk. unfold record_wait_dependency. repeat case_decide; [done..|].
  apply (well_keyed_store
           (with_worker_dependencies _ s) (ref_object_id ref) _ Hwk).
Qed.

Lemma record_wait_dependency_dependents w s ref :
  dependents_subscribed s → dependents_subscribed (record_wait_dependency w s ref).
Proof.
  intros Hd. unfold record_wait_dependency.
  case_decide as Hlocal; [done|]. case_decide as Hin; [done|].
  intros o d. simpl. rewrite find_entry_store, find_or_emplace_spec.
  unfold wait_set. simpl.
  assert (∀ o' w', o' ∈ wait_set s w' →
            o' ∈ default ∅ (<[w := {[ref_object_id ref]}
                                    ∪ default ∅ (worker_dependencies_ s !! w)]>
                               (worker_dependencies_ s) !! w')) as Hmono.
  { intros o' w' Ho'. destruct (decide (w' = w)) as [->|Hne].
    - rewrite lookup_insert_eq. simpl. set_solver.
    - by rewrite lookup_insert_ne. }
  case_decide as Ho; [subst o|].
  - intros [= <-]. simpl.
    destruct (find_entry (required_tasks_ s) (ref_object_id ref)) as [d0|] eqn:Hf;
      simpl.
    + destruct (Hd _ _ Hf) as [Ht Hw]. split; [done|].
      intros w' [->%elem_of_singleton|Hw']%elem_of_union.
      * rewrite lookup_insert_eq. simpl. set_solver.
      * by apply Hmono, Hw.
    + split; [set_solver|].
      intros w' [->%elem_of_singleton|Hw']%elem_of_union; [|set_solver].
      rewrite lookup_insert_eq. simpl. set_solver.
  - intros Hf. destruct (Hd _ _ Hf) as [Ht Hw]. split; [done|].
    intros w' Hw'. by apply Hmono, Hw.
Qed.

Section SubscribeWaitFacts.
Context {object_manager_ : ObjectManagerInterface}.

Lemma record_wait_dependency_grow w s refs :
  entries_grow (ref_object_id <$> refs) s (foldl (record_wait_dependency w) s refs).
Proof.
  revert s. induction refs as [|ref refs IH]; intros s; simpl.
  - apply entries_grow_nil.
  - apply (entries_grow_app [_] _ s (record_wait_dependency w s ref)); [|apply IH].
    destruct (record_wait_dependency_frame w s ref) as (? & ? & ? & ? & ?).
    repeat split; try done.
    + by apply record_wait_dependency_entries.
    + intros [?|?]%record_wait_dependency_entries; set_solver.
Qed.

Lemma SubscribeWaitDependencies_consistent w refs s s' :
  SubscribeWaitDependencies w refs s = Returns s' → consistent s → consistent s'.
Proof.
  unfold SubscribeWaitDependencies.
  set (s0 := with_worker_dependencies _ s).
  intros Hloop [Hk Hd Hc Hr].
  rewrite for_each_fmap in Hloop.
  pose proof (record_wait_dependency_grow w s0 refs) as Hgrow.
  destruct (grow_then_require _ _ _ _ Hgrow Hloop) as (Hc' & Hr' & _).
  apply require_loop_spec in Hloop as [Hsame _].
  split.
  - eapply well_keyed_same_indices; [done|].
    apply foldl_preserves; [intros; by apply record_wait_dependency_keyed|done].
  - eapply dependents_subscribed_same_indices; [done|].
    apply foldl_preserves; [intros; by apply record_wait_dependency_dependents|].
    intros o d Hf. destruct (Hd o d Hf) as [Ht Hw]. split; [done|].
    intros w' Hw'. specialize (Hw _ Hw'). unfold wait_set in *. simpl.
    destruct (decide (w' = w)) as [->|Hne].
    + by rewrite lookup_insert_eq.
    + by rewrite lookup_insert_ne.
  - apply Hc'. intros o. apply Hc.
  - apply Hr'. intros o. apply Hr.
Qed.

End SubscribeWaitFacts.

(** ** Unsubscribing *)

Lemma remove_dependent_spec f o rt rt' :
  remove_dependent f o rt = Returns rt' →
  ∃ d d1, find_entry rt o = Some d ∧ f d = Some d1 ∧
          rt' = if Empty d1 then erase_entry rt o else store_entry rt o d1.
Proof.
  unfold remove_dependent, find_entry.
  destruct (rt !! TaskId o) as [inner|]; simpl; [|done].
  destruct (inner !! o) as [d|]; [|done].
  destruct (f d) as [d1|] eqn:Hf; [|done].
  intros Hr. exists d, d1. split; [done|split; [done|]].
  destruct (Empty d1); by injection Hr.
Qed.

Lemma remove_dependent_find f o rt rt' o' :
  remove_dependent f o rt = Returns rt' →
  ∃ d d1, find_entry rt o = Some d ∧ f d = Some d1 ∧
    find_entry rt' o'
    = if decide (o' = o) then (if Empty d1 then None else Some d1)
      else find_entry rt o'.
Proof.
  intros (d & d1 & Hd & Hf & ->)%remove_dependent_spec. exists d, d1.
  repeat split; [done..|].
  destruct (Empty d1); [rewrite find_entry_erase|rewrite find_entry_store];
    by case_decide.
Qed.

Lemma remove_loop_find f l rt rt' :
  NoDup l →
  for_each (remove_dependent f) l rt = Returns rt' →
  ∀ o, (o ∉ l → find_entry rt' o = find_entry rt o) ∧
       (o ∈ l → ∃ d d1, find_entry rt o = Some d ∧ f d = Some d1 ∧
                  find_entry rt' o = if Empty d1 then None else Some d1).
Proof.
  revert rt. induction l as [|x l IH]; intros rt Hnd; simpl.
  - intros [= <-] o. split; [done|]. by intros ?%elem_of_nil.
  - apply NoDup_cons in Hnd as [Hx Hnd].
    destruct (remove_dependent f x rt) as [rt1|] eqn:H1; [|done]. simpl.
    intros Hl o. destruct (IH _ Hnd Hl o) as [IHout IHin].
    destruct (remove_dependent_find _ _ _ _ o H1) as (d & d1 & Hd & Hf & Ho).
    split.
    + intros [Hne Hnin]%not_elem_of_cons. rewrite IHout, Ho by done.
      by rewrite decide_False.
    + intros [->|Hin]%elem_of_cons.
      * exists d, d1. rewrite IHout, Ho by done. by rewrite decide_True.
      * destruct (IHin Hin) as (d' & d1' & Hd' & Hf' & Ho').
        exists d', d1'. rewrite Ho in Hd'. rewrite decide_False in Hd' by set_solver.
        done.
Qed.

Lemma remove_loop_keyed f l s rt' :
  for_each (remove_dependent f) l (required_tasks_ s) = Returns rt' →
  well_keyed s → well_keyed (with_required_tasks rt' s).
Proof.
  intros Hl Hwk.
  cut (∃ s', required_tasks_ s' = rt' ∧ well_keyed s').
  { intros (s' & <- & Hs'). done. }
  revert Hl.
  apply (for_each_preserves
           (λ rt, ∃ s', required_tasks_ s' = rt ∧ well_keyed s') _ l).
  - intros rt rt1 x _ (s1 & <- & Hs1) (d & d1 & _ & _ & ->)%remove_dependent_spec.
    eexists (with_required_tasks _ s1). split; [done|].
    destruct (Empty d1); [by apply well_keyed_erase|by apply well_keyed_store].
  - by exists s.
Qed.


Lemma shrink_then_cancel L s s1 :
  entries_shrink L s s1 →
  let s' := foldl (λ s o, HandleRemoteDependencyCanceled o s) s1 L in
  (pulls_cover s → pulls_cover s') ∧
  (pulls_remote s → pulls_remote s') ∧
  (pulls_exact s → pulls_exact s').
Proof.
  intros (Hl & Hp & Hro1 & He) s'.
  destruct (cancel_loop_spec L s1) as [Hsame Hro]. fold s' in Hsame, Hro.
  assert (∀ o, objectIsRequired s' o = objectIsRequired s1 o) as H1.
  { intros o. by rewrite (objectIsRequired_same_indices _ _ _ Hsame). }
  assert (∀ o, (objectIsRequired s1 o = true → objectIsRequired s o = true) ∧
               (objectIsRequired s o = true → objectIsRequired s1 o = true ∨ o ∈ L))
    as Hreq.
  { intros o. rewrite !objectIsRequired_true, Hl, Hp. destruct (He o). naive_solver. }
  destruct Hsame as (Hl' & _).
  split; [|split].
  - intros Hc o Ho. rewrite H1 in Ho. apply Hro. split; [|done].
    rewrite Hro1. by apply Hc, Hreq.
  - intros Hr o [Ho _]%Hro. rewrite Hl', Hl. apply Hr. by rewrite <- Hro1.
  - intros Hx o. rewrite Hro, Hro1, H1. split.
    + intros [Ho HL]. apply Hx in Ho. destruct (Hreq o) as [_ [?|?]]; auto.
    + intros Ho. split; [|done]. by apply Hx, Hreq.
Qed.

Lemma remove_loop_shrink f l s rt' :
  NoDup l →
  for_each (remove_dependent f) l (required_tasks_ s) = Returns rt' →
  entries_shrink l s (with_required_tasks rt' s).
Proof.
  intros Hnd Hl. repeat split; try done; simpl.
  - destruct (decide (o ∈ l)) as [Hin|Hnin].
    + destruct (remove_loop_find _ _ _ _ Hnd Hl o) as [_ Hi].
      destruct (Hi Hin) as (d & d1 & -> & _). eauto.
    + destruct (remove_loop_find _ _ _ _ Hnd Hl o) as [-> _]; done.
  - destruct (decide (o ∈ l)) as [Hin|Hnin]; [by right|].
    destruct (remove_loop_find _ _ _ _ Hnd Hl o) as [-> _]; auto.
Qed.

Lemma UnsubscribeGetDependencies_consistent t s b s' :
  UnsubscribeGetDependencies t s = Returns (b, s') → consistent s → consistent s'.
Proof.
  unfold UnsubscribeGetDependencies.
  destruct (task_dependencies_ s !! t) as [e|] eqn:He; [|by intros [= _ <-]].
  simpl. destruct (for_each _ _ _) as [rt'|] eqn:Hloop; [|done]. simpl.
  intros [= _ <-] [Hk Hd Hc Hr].
  set (s0 := with_task_dependencies (delete t (task_dependencies_ s)) s) in *.
  pose proof (NoDup_elements (get_dependencies e)) as Hnd.
  pose proof (remove_loop_shrink _ _ s0 _ Hnd Hloop) as Hshrink.
  destruct (shrink_then_cancel _ _ _ Hshrink) as (Hc' & Hr' & _).
  destruct (cancel_loop_spec (elements (get_dependencies e))
              (with_required_tasks rt' s0)) as [Hsame _].
  split.
  - eapply well_keyed_same_indices; [done|].
    eapply (remove_loop_keyed _ _ s0); [exact Hloop|exact Hk].
  - eapply dependents_subscribed_same_indices; [done|].
    intros o d. simpl. intros Hf.
    destruct (remove_loop_find _ _ _ _ Hnd Hloop o) as [Hout Hin].
    destruct (decide (o ∈ elements (get_dependencies e))) as [Ho|Ho].
    + destruct (Hin Ho) as (d0 & d1 & Hd0 & Hf1 & Hd1).
      rewrite Hd1 in Hf. destruct (Empty d1); [done|]. injection Hf as ->.
      unfold erase_dependent_task in Hf1. case_decide; [|done].
      injection Hf1 as <-. simpl. destruct (Hd _ _ Hd0) as [Ht Hw].
      split; [|done]. intros t' [Ht' Hne%not_elem_of_singleton]%elem_of_difference.
      rewrite lookup_delete_ne by done. by apply Ht.
    + rewrite Hout in Hf by done. destruct (Hd _ _ Hf) as [Ht Hw].
      split; [|done]. intros t' Ht'. destruct (Ht _ Ht') as (e' & He' & Hoe).
      destruct (decide (t' = t)) as [->|Hne].
      * rewrite He in He'. injection He' as <-. by apply elem_of_elements in Hoe.
      * rewrite lookup_delete_ne by done. eauto.
  - apply Hc'. intros o. apply Hc.
  - apply Hr'. intros o. apply Hr.
Qed.

Lemma UnsubscribeWaitDependencies_consistent w s s' :
  UnsubscribeWaitDependencies w s = Returns s' → consistent s → consistent s'.
Proof.
  unfold UnsubscribeWaitDependencies.
  destruct (worker_dependencies_ s !! w) as [ws|] eqn:He; [|by intros [= <-]].
  simpl. destruct (for_each _ _ _) as [rt'|] eqn:Hloop; [|done]. simpl.
  intros [= <-] [Hk Hd Hc Hr].
  set (s0 := with_worker_dependencies (delete w (worker_dependencies_ s)) s) in *.
  pose proof (NoDup_elements ws) as Hnd.
  pose proof (remove_loop_shrink _ _ s0 _ Hnd Hloop) as Hshrink.
  destruct (shrink_then_cancel _ _ _ Hshrink) as (Hc' & Hr' & _).
  destruct (cancel_loop_spec (elements ws)
              (with_required_tasks rt' s0)) as [Hsame _].
  split.
  - eapply well_keyed_same_indices; [done|].
    eapply (remove_loop_keyed _ _ s0); [exact Hloop|exact Hk].
  - eapply dependents_subscribed_same_indices; [done|].
    intros o d. simpl. intros Hf.
    destruct (remove_loop_find _ _ _ _ Hnd Hloop o) as [Hout Hin].
    assert (∀ w', w' ≠ w → wait_set (with_required_tasks rt' s0) w' = wait_set s w')
      as Hother.
    { intros w' Hne. unfold wait_set. simpl. by rewrite lookup_delete_ne. }
    destruct (decide (o ∈ elements ws)) as [Ho|Ho].
    + destruct (Hin Ho) as (d0 & d1 & Hd0 & Hf1 & Hd1).
      rewrite Hd1 in Hf. destruct (Empty d1); [done|]. injection Hf as ->.
      unfold erase_dependent_worker in Hf1. case_decide; [|done].
      injection Hf1 as <-. simpl. destruct (Hd _ _ Hd0) as [Ht Hw].
      split; [done|]. intros w' [Hw' Hne%not_elem_of_singleton]%elem_of_difference.
      rewrite Hother by done. by apply Hw.
    + rewrite Hout in Hf by done. destruct (Hd _ _ Hf) as [Ht Hw].
      split; [done|]. intros w' Hw'. specialize (Hw _ Hw').
      destruct (decide (w' = w)) as [->|Hne].
      * unfold wait_set in Hw. rewrite He in Hw. by apply elem_of_elements in Hw.
      * by rewrite Hother.
  - apply Hc'. intros o. apply Hc.
  - apply Hr'. intros o. apply Hr.
Qed.

(** ** Objects appearing *)





Lemma mark_dependency_local_eq acc td x :
  mark_dependency_local (acc, td) x
  = (if decide (num_missing_get_dependencies (entry_of td x) - 1 = 0)
     then acc ++ [x] else acc,
     <[x := decremented (entry_of td x)]> td).
Proof. done. Qed.

Lemma mark_dependency_missing_eq acc td x :
  mark_dependency_missing (acc, td) x
  = (if decide (num_missing_get_dependencies (entry_of td x) = 0)
     then acc ++ [x] else acc,
     <[x := incremented (entry_of td x)]> td).
Proof. done. Qed.

Lemma entry_of_insert_ne td x e t : t ≠ x → entry_of (<[x := e]> td) t = entry_of td t.
Proof. intros Hne. unfold entry_of. by rewrite lookup_insert_ne. Qed.

Lemma mark_local_loop l acc td :
  NoDup l →
  (foldl mark_dependency_local (acc, td) l).1
  = acc ++ filter (λ t, num_missing_get_dependencies (entry_of td t) - 1 = 0) l ∧
  ∀ t, (foldl mark_dependency_local (acc, td) l).2 !! t
       = if decide (t ∈ l) then Some (decremented (entry_of td t)) else td !! t.
Proof.
  revert acc td. induction l as [|x l IH]; intros acc td Hnd; cbn [foldl].
  - split; [by rewrite app_nil_r|done].
  - apply NoDup_cons in Hnd as [Hx Hnd]. rewrite mark_dependency_local_eq.
    destruct (IH (if decide (num_missing_get_dependencies (entry_of td x) - 1 = 0)
                  then acc ++ [x] else acc)
                 (<[x := decremented (entry_of td x)]> td) Hnd) as [IH1 IH2].
    split.
    + rewrite IH1. rewrite filter_cons.
      assert (filter
                (λ t, num_missing_get_dependencies
                        (entry_of (<[x:=decremented (entry_of td x)]> td) t) - 1 = 0) l
              = filter (λ t, num_missing_get_dependencies (entry_of td t) - 1 = 0) l)
        as ->.
      { apply filter_agree. intros t Ht.
        rewrite entry_of_insert_ne; [done|]. by intros ->. }
      case_decide; [|done]. by rewrite <- app_assoc.
    + intros t. rewrite IH2. destruct (decide (t = x)) as [->|Hne].
      * rewrite decide_False by done. rewrite lookup_insert_eq.
        rewrite decide_True; [done|left].
      * rewrite entry_of_insert_ne, lookup_insert_ne by done.
        destruct (decide (t ∈ l)).
        -- rewrite decide_True; [done|by right].
        -- rewrite decide_False; [done|]. by intros [?|?]%elem_of_cons.
Qed.

Lemma mark_missing_loop l acc td :
  NoDup l →
  (foldl mark_dependency_missing (acc, td) l).1
  = acc ++ filter (λ t, num_missing_get_dependencies (entry_of td t) = 0) l ∧
  ∀ t, (foldl mark_dependency_missing (acc, td) l).2 !! t
       = if decide (t ∈ l) then Some (incremented (entry_of td t)) else td !! t.
Proof.
  revert acc td. induction l as [|x l IH]; intros acc td Hnd; cbn [foldl].
  - split; [by rewrite app_nil_r|done].
  - apply NoDup_cons in Hnd as [Hx Hnd]. rewrite mark_dependency_missing_eq.
    destruct (IH (if decide (num_missing_get_dependencies (entry_of td x) = 0)
                  then acc ++ [x] else acc)
                 (<[x := incremented (entry_of td x)]> td) Hnd) as [IH1 IH2].
    split.
    + rewrite IH1. rewrite filter_cons.
      assert (filter
                (λ t, num_missing_get_dependencies
                        (entry_of (<[x:=incremented (entry_of td x)]> td) t) = 0) l
              = filter (λ t, num_missing_get_dependencies (entry_of td t) = 0) l)
        as ->.
      { apply filter_agree. intros t Ht.
        rewrite entry_of_insert_ne; [done|]. by intros ->. }
      case_decide; [|done]. by rewrite <- app_assoc.
    + intros t. rewrite IH2. destruct (decide (t = x)) as [->|Hne].
      * rewrite decide_False by done. rewrite lookup_insert_eq.
        rewrite decide_True; [done|left].
      * rewrite entry_of_insert_ne, lookup_insert_ne by done.
        destruct (decide (t ∈ l)).
        -- rewrite decide_True; [done|by right].
        -- rewrite decide_False; [done|]. by intros [?|?]%elem_of_cons.
Qed.

Lemma erase_worker_loop o l wd wd' :
  NoDup l →
  for_each (erase_worker_dependency o) l wd = Returns wd' →
  (∀ w, w ∈ l → o ∈ default ∅ (wd !! w)) ∧
  ∀ w, wd' !! w = if decide (w ∈ l) then Some (default ∅ (wd !! w) ∖ {[o]})
                  else wd !! w.
Proof.
  revert wd. induction l as [|x l IH]; intros wd Hnd; simpl.
  - intros [= <-]. split; [by intros ? ?%elem_of_nil|done].
  - apply NoDup_cons in Hnd as [Hx Hnd].
    destruct (erase_worker_dependency o x wd) as [wd1|] eqn:H1; [|done].
    unfold erase_worker_dependency in H1. cbv zeta in H1.
    case_decide as Ho; [|done]. injection H1 as <-. simpl.
    intros Hl. destruct (IH _ Hnd Hl) as [IH1 IH2]. split.
    + intros w [->|Hw]%elem_of_cons; [done|].
      specialize (IH1 _ Hw). rewrite lookup_insert_ne in IH1; [done|]. by intros ->.
    + intros w. rewrite IH2. destruct (decide (w = x)) as [->|Hne].
      * rewrite decide_False by done. rewrite lookup_insert_eq.
        rewrite decide_True; [done|left].
      * rewrite lookup_insert_ne by done.
        destruct (decide (w ∈ l)).
        -- rewrite decide_True; [done|by right].
        -- rewrite decide_False; [done|]. by intros [?|?]%elem_of_cons.
Qed.

Lemma erase_worker_loop_returns o l wd :
  NoDup l → (∀ w, w ∈ l → o ∈ default ∅ (wd !! w)) →
  ∃ wd', for_each (erase_worker_dependency o) l wd = Returns wd'.
Proof.
  revert wd. induction l as [|x l IH]; intros wd Hnd Hall; simpl; [eauto|].
  apply NoDup_cons in Hnd as [Hx Hnd].
  assert (erase_worker_dependency o x wd
          = Returns (<[x := default ∅ (wd !! x) ∖ {[o]}]> wd)) as ->.
  { unfold erase_worker_dependency. cbv zeta.
    by rewrite decide_True by (apply Hall; left). }
  simpl. apply IH; [done|].
  intros w Hw. rewrite lookup_insert_ne by (by intros ->). apply Hall. by right.
Qed.

Lemma HandleRemoteDependencyCanceled_local o s :
  o ∈ local_objects_ s →
  same_indices s (HandleRemoteDependencyCanceled o s) ∧
  required_objects_ (HandleRemoteDependencyCanceled o s) = required_objects_ s ∖ {[o]}.
Proof.
  intros Hlocal. destruct (HandleRemoteDependencyCanceled_spec o s) as [Hsame Hro].
  split; [done|]. rewrite Hro.
  destruct (objectIsRequired s o) eqn:Hreq; [|done].
  by apply objectIsRequired_true in Hreq as (_ & ? & _).
Qed.

Lemma HandleObjectLocal_spec o s ready s' :
  HandleObjectLocal o s = Returns (ready, s') →
  (o ∉ local_objects_ s) ∧
  local_objects_ s' = {[o]} ∪ local_objects_ s ∧
  pending_tasks_ s' = pending_tasks_ s ∧
  required_objects_ s' = required_objects_ s ∖ {[o]} ∧
  (∀ t, task_dependencies_ s' !! t
        = if decide (t ∈ dependent_tasks_of s o)
          then Some (decremented (entry_of (task_dependencies_ s) t))
          else task_dependencies_ s !! t) ∧
  (∀ w, w ∈ dependent_workers_of s o → o ∈ wait_set s w) ∧
  (∀ w, worker_dependencies_ s' !! w
        = if decide (w ∈ dependent_workers_of s o)
          then Some (wait_set s w ∖ {[o]})
          else worker_dependencies_ s !! w) ∧
  (∀ o', find_entry (required_tasks_ s') o'
         = if decide (o' = o) then cleared_entry (find_entry (required_tasks_ s) o)
           else find_entry (required_tasks_ s) o') ∧
  ready = filter (λ t, num_missing_get_dependencies
                         (entry_of (task_dependencies_ s) t) - 1 = 0)
                 (elements (dependent_tasks_of s o)) ∧
  (well_keyed s → well_keyed s').
Proof.
  unfold HandleObjectLocal. case_decide as Hlocal; [done|]. simpl.
  unfold dependent_tasks_of, dependent_workers_of, wait_set.
  destruct (find_entry (required_tasks_ s) o) as [d|] eqn:Hfind; simpl.
  - destruct (foldl mark_dependency_local _ _) as [ready1 td1] eqn:Hfold.
    destruct (for_each _ _ _) as [wd1|] eqn:Hworkers; [|done]. simpl.
    intros [= <- <-].
    pose proof (mark_local_loop (elements (dependent_tasks d)) []
                  (task_dependencies_ s) (NoDup_elements _)) as [Hready Htd].
    rewrite Hfold in Hready, Htd. simpl in Hready, Htd.
    apply erase_worker_loop in Hworkers as [Hhas Hwd]; [|apply NoDup_elements].
    match goal with
    | |- context [HandleRemoteDependencyCanceled o ?s1] =>
        destruct (HandleRemoteDependencyCanceled_local o s1) as [Hsame Hro];
          [simpl; set_solver|]
    end.
    destruct Hsame as (Hl & Htd' & Hwd' & Hrt' & Hp').
    rewrite Hl, Hp', Hro, Htd', Hwd', Hrt'. simpl.
    split; [done|]. split; [done|]. split; [done|]. split; [done|].
    split; [|split; [|split; [|split; [|split]]]].
    + intros t. rewrite Htd. destruct (decide (t ∈ dependent_tasks d)).
      * rewrite decide_True; [done|by apply elem_of_elements].
      * rewrite decide_False; [done|by rewrite elem_of_elements].
    + intros w Hw. apply Hhas. by apply elem_of_elements.
    + intros w. rewrite Hwd. destruct (decide (w ∈ dependent_workers d)).
      * rewrite decide_True; [done|by apply elem_of_elements].
      * rewrite decide_False; [done|by rewrite elem_of_elements].
    + intros o'. destruct (Empty _);
        [rewrite find_entry_erase|rewrite find_entry_store]; by case_decide.
    + done.
    + intros Hwk. eapply (well_keyed_ext (with_required_tasks _ s)); [exact Hrt'|].
      destruct (Empty _); [by apply well_keyed_erase|by apply well_keyed_store].
  - intros [= <- <-].
    match goal with
    | |- context [HandleRemoteDependencyCanceled o ?s1] =>
        destruct (HandleRemoteDependencyCanceled_local o s1) as [Hsame Hro];
          [simpl; set_solver|]
    end.
    destruct Hsame as (Hl & Htd' & Hwd' & Hrt' & Hp').
    rewrite Hl, Hp', Hro, Htd', Hwd', Hrt'. simpl.
    split; [done|]. split; [done|]. split; [done|]. split; [done|].
    split; [|split; [|split; [|split; [|split]]]]; try done.
    + intros o'. case_decide; [by subst|done].
    + intros Hwk. by eapply well_keyed_ext.
Qed.

Lemma cleared_entry_Some od d' :
  cleared_entry od = Some d' →
  ∃ d, od = Some d ∧ dependent_tasks d' = dependent_tasks d
       ∧ dependent_workers d' = ∅ ∧ owner_address d' = owner_address d
       ∧ dependent_tasks d ≠ ∅.
Proof.
  destruct od as [d|]; [|done]. simpl. destruct (Empty _) eqn:HE; [done|].
  intros [= <-]. exists d. simpl. repeat split. intros Hn.
  apply Empty_false in HE. simpl in HE. apply HE. by split.
Qed.

Lemma HandleObjectLocal_returns o s :
  o ∉ local_objects_ s →
  (∀ w, w ∈ dependent_workers_of s o → o ∈ wait_set s w) →
  ∃ ready s', HandleObjectLocal o s = Returns (ready, s').
Proof.
  intros Hlocal Hw. unfold HandleObjectLocal. rewrite decide_False by done. simpl.
  unfold dependent_workers_of, wait_set in Hw.
  destruct (find_entry (required_tasks_ s) o) as [d|]; simpl; [|eauto].
  destruct (foldl mark_dependency_local _ _) as [ready1 td1].
  destruct (erase_worker_loop_returns o (elements (dependent_workers d))
              (worker_dependencies_ s) (NoDup_elements _)) as [wd1 ->].
  { intros w ?%elem_of_elements. by apply Hw. }
  simpl. eauto.
Qed.

Lemma HandleObjectLocal_consistent o s ready s' :
  HandleObjectLocal o s = Returns (ready, s') → consistent s → consistent s'.
Proof.
  intros (Hlocal & Hl & Hp & Hro & Htd & _ & Hwd & Hrt & _ & Hwk)%HandleObjectLocal_spec
         [Hk Hd Hc Hr].
  split.
  - by apply Hwk.
  - intros o' d'. rewrite Hrt. unfold wait_set. case_decide as Ho; [subst o'|].
    + intros (d & Hf & Ht & Hw & _)%cleared_entry_Some. rewrite Ht, Hw.
      destruct (Hd _ _ Hf) as [Hdt _]. split; [|set_solver].
      intros t Hin. rewrite Htd. unfold dependent_tasks_of. rewrite Hf.
      rewrite decide_True by done. destruct (Hdt _ Hin) as (e & He & Hoe).
      unfold entry_of. rewrite He. eauto.
    + intros Hf. destruct (Hd _ _ Hf) as [Hdt Hdw]. split.
      * intros t Hin. rewrite Htd. destruct (Hdt _ Hin) as (e & He & Hoe).
        unfold entry_of. rewrite He. case_decide; eauto.
      * intros w Hin. rewrite Hwd. specialize (Hdw _ Hin).
        case_decide; [simpl; set_solver|done].
  - intros o' (Hsome & Hnl & Hnp)%objectIsRequired_true.
    rewrite Hl in Hnl. rewrite Hp in Hnp. rewrite Hrt in Hsome. rewrite Hro.
    assert (o' ≠ o) as Hne by set_solver. rewrite decide_False in Hsome by done.
    apply elem_of_difference. split; [|set_solver].
    apply Hc, objectIsRequired_true. repeat split; [done|set_solver|done].
  - intros o'. rewrite Hro, Hl. intros [Hin Hne]%elem_of_difference.
    apply Hr in Hin. set_solver.
Qed.

(** ** Objects vanishing *)

Section MissingFacts.
Context {object_manager_ : ObjectManagerInterface}.

Lemma HandleObjectMissing_spec o s waiting s' :
  HandleObjectMissing o s = Returns (waiting, s') →
  o ∈ local_objects_ s ∧
  local_objects_ s' = local_objects_ s ∖ {[o]} ∧
  pending_tasks_ s' = pending_tasks_ s ∧
  worker_dependencies_ s' = worker_dependencies_ s ∧
  required_tasks_ s' = required_tasks_ s ∧
  required_objects_ s'
  = (if objectIsRequired s' o then {[o]} ∪ required_objects_ s else required_objects_ s) ∧
  (∀ t, task_dependencies_ s' !! t
        = if decide (t ∈ dependent_tasks_of s o)
          then Some (incremented (entry_of (task_dependencies_ s) t))
          else task_dependencies_ s !! t) ∧
  waiting = filter (λ t, num_missing_get_dependencies
                           (entry_of (task_dependencies_ s) t) = 0)
                   (elements (dependent_tasks_of s o)).
Proof.
  unfold HandleObjectMissing. case_decide as Hlocal; [|done].
  unfold dependent_tasks_of. simpl.
  destruct (find_entry (required_tasks_ s) o) as [d|] eqn:Hfind.
  - destruct (foldl mark_dependency_missing _ _) as [waiting1 td1] eqn:Hfold.
    destruct (HandleRemoteDependencyRequired _ _) as [s2|] eqn:Hreq; [|done].
    simpl. intros [= <- <-].
    pose proof (mark_missing_loop (elements (dependent_tasks d)) []
                  (task_dependencies_ s) (NoDup_elements _)) as [Hwaiting Htd].
    rewrite Hfold in Hwaiting, Htd. simpl in Hwaiting, Htd.
    pose proof (HandleRemoteDependencyRequired_spec _ _ _ Hreq) as [Hsame Hro].
    rewrite <- (objectIsRequired_same_indices _ _ _ Hsame) in Hro.
    destruct Hsame as (Hl & Htd' & Hwd' & Hrt' & Hp').
    rewrite Hl, Hp', Hro, Htd', Hwd', Hrt'. simpl.
    repeat split; try done.
    intros t. rewrite Htd. destruct (decide (t ∈ dependent_tasks d)).
    + rewrite decide_True; [done|by apply elem_of_elements].
    + rewrite decide_False; [done|by rewrite elem_of_elements].
  - destruct (HandleRemoteDependencyRequired _ _) as [s2|] eqn:Hreq; [|done].
    simpl. intros [= <- <-].
    pose proof (HandleRemoteDependencyRequired_spec _ _ _ Hreq) as [Hsame Hro].
    rewrite <- (objectIsRequired_same_indices _ _ _ Hsame) in Hro.
    destruct Hsame as (Hl & Htd' & Hwd' & Hrt' & Hp').
    rewrite Hl, Hp', Hro, Htd', Hwd', Hrt'. simpl.
    repeat split; done.
Qed.

Lemma HandleObjectMissing_consistent o s waiting s' :
  HandleObjectMissing o s = Returns (waiting, s') → consistent s → consistent s'.
Proof.
  intros (Hlocal & Hl & Hp & Hwd & Hrt & Hro & Htd & _)%HandleObjectMissing_spec
         [Hk Hd Hc Hr].
  split.
  - by eapply well_keyed_ext.
  - intros o' d'. rewrite Hrt. unfold wait_set. rewrite Hwd. intros Hf.
    destruct (Hd _ _ Hf) as [Hdt Hdw]. split; [|done].
    intros t Hin. rewrite Htd. destruct (Hdt _ Hin) as (e & He & Hoe).
    unfold entry_of. rewrite He. case_decide; eauto.
  - intros o' Hreq. rewrite Hro. destruct (decide (o' = o)) as [->|Hne].
    + rewrite Hreq. set_solver.
    + apply objectIsRequired_true in Hreq as (Hsome & Hnl & Hnp).
      rewrite Hl in Hnl. rewrite Hp in Hnp. rewrite Hrt in Hsome.
      assert (o' ∈ required_objects_ s).
      { apply Hc, objectIsRequired_true. repeat split; [done|set_solver|done]. }
      destruct (objectIsRequired s' o); set_solver.
  - intros o'. rewrite Hro, Hl. destruct (objectIsRequired s' o) eqn:Hreq.
    + intros [->%elem_of_singleton|Hin]%elem_of_union; [set_solver|].
      apply Hr in Hin. set_solver.
    + intros Hin. apply Hr in Hin. set_solver.
Qed.

End MissingFacts.

(** ** Tasks becoming pending and being cancelled *)


Lemma created_by_find s o :
  o ∈ created_by s (TaskId o) ↔ is_Some (find_entry (required_tasks_ s) o).
Proof.
  unfold created_by, object_ids. rewrite elem_of_elements, elem_of_dom.
  by rewrite find_entry_objects_of.
Qed.

Lemma created_by_keyed s t o : well_keyed s → o ∈ created_by s t → TaskId o = t.
Proof.
  unfold created_by, object_ids, objects_of. intros Hwk.
  rewrite elem_of_elements, elem_of_dom.
  destruct (required_tasks_ s !! t) as [inner|] eqn:Ht; simpl.
  - by apply Hwk.
  - rewrite lookup_empty. by intros [? ?].
Qed.


Lemma TaskPending_untracked task s : tracked task = false → TaskPending task s = s.
Proof. unfold tracked, TaskPending. by intros ->. Qed.

Lemma TaskPending_pending task s :
  TaskSpecification_TaskId task ∈ pending_tasks_ s → TaskPending task s = s.
Proof.
  intros Hin. unfold TaskPending. destruct (_ && _); [|done].
  by rewrite decide_True.
Qed.

Lemma TaskPending_spec task s :
  tracked task = true →
  TaskSpecification_TaskId task ∉ pending_tasks_ s →
  let s' := TaskPending task s in
  let s0 := with_pending_tasks ({[TaskSpecification_TaskId task]} ∪ pending_tasks_ s) s in
  same_indices s0 s' ∧
  ∀ o, o ∈ required_objects_ s' ↔
       o ∈ required_objects_ s ∧
       (o ∈ created_by s (TaskSpecification_TaskId task) → objectIsRequired s0 o = true).
Proof.
  intros Htracked Hnin. unfold TaskPending. fold (tracked task). rewrite Htracked.
  rewrite decide_False by done. unfold created_by, objects_of. simpl.
  destruct (required_tasks_ s !! TaskSpecification_TaskId task) as [inner|]; simpl.
  - apply (cancel_loop_spec (object_ids inner) (with_pending_tasks _ s)).
  - split; [by repeat split|]. intros o. unfold object_ids.
    rewrite dom_empty_L, elements_empty. set_solver.
Qed.

Lemma TaskPending_consistent task s : consistent s → consistent (TaskPending task s).
Proof.
  intros [Hk Hd Hc Hr].
  destruct (tracked task) eqn:Htracked; [|by rewrite TaskPending_untracked].
  destruct (decide (TaskSpecification_TaskId task ∈ pending_tasks_ s)) as [Hin|Hnin];
    [by rewrite TaskPending_pending|].
  destruct (TaskPending_spec task s Htracked Hnin) as [Hsame Hro].
  split.
  - eapply well_keyed_same_indices; [exact Hsame|exact Hk].
  - eapply dependents_subscribed_same_indices; [exact Hsame|exact Hd].
  - intros o Hreq. rewrite (objectIsRequired_same_indices _ _ _ Hsame) in Hreq.
    apply Hro. split; [|done]. apply Hc.
    apply objectIsRequired_true in Hreq as (? & ? & Hp). simpl in *.
    apply objectIsRequired_true. repeat split; [done..|set_solver].
  - intros o [Hin _]%Hro. destruct Hsame as (-> & _). simpl. by apply Hr.
Qed.

Section CanceledFacts.
Context {object_manager_ : ObjectManagerInterface}.

Lemma TaskCanceled_not_pending t s : t ∉ pending_tasks_ s → TaskCanceled t s = Returns s.
Proof. intros Hnin. unfold TaskCanceled. by rewrite decide_False. Qed.

Lemma TaskCanceled_spec t s s' :
  t ∈ pending_tasks_ s →
  TaskCanceled t s = Returns s' →
  let s0 := with_pending_tasks (pending_tasks_ s ∖ {[t]}) s in
  same_indices s0 s' ∧
  ∀ o, o ∈ required_objects_ s' ↔
       o ∈ required_objects_ s ∨ (o ∈ created_by s t ∧ objectIsRequired s0 o = true).
Proof.
  intros Hin. unfold TaskCanceled. rewrite decide_True by done.
  unfold created_by, objects_of. simpl.
  destruct (required_tasks_ s !! t) as [inner|]; simpl.
  - apply (require_loop_spec (object_ids inner) (with_pending_tasks _ s)).
  - intros [= <-]. split; [by repeat split|]. intros o. unfold object_ids.
    rewrite dom_empty_L, elements_empty. set_solver.
Qed.

Lemma TaskCanceled_consistent t s s' :
  TaskCanceled t s = Returns s' → consistent s → consistent s'.
Proof.
  intros Hcancel [Hk Hd Hc Hr].
  destruct (decide (t ∈ pending_tasks_ s)) as [Hin|Hnin];
    [|rewrite TaskCanceled_not_pending in Hcancel by done; by injection Hcancel as <-].
  destruct (TaskCanceled_spec t s s' Hin Hcancel) as [Hsame Hro].
  split.
  - eapply well_keyed_same_indices; [exact Hsame|exact Hk].
  - eapply dependents_subscribed_same_indices; [exact Hsame|exact Hd].
  - intros o Hreq. rewrite (objectIsRequired_same_indices _ _ _ Hsame) in Hreq.
    apply Hro. destruct (decide (TaskId o = t)) as [<-|Hne].
    + right. split; [|done]. apply created_by_find.
      by apply objectIsRequired_true in Hreq as (? & _).
    + left. apply Hc. apply objectIsRequired_true in Hreq as (? & ? & Hp).
      simpl in *. apply objectIsRequired_true. repeat split; [done..|set_solver].
  - intros o [Hin'|[_ Hreq]]%Hro; destruct Hsame as (-> & _); simpl.
    + by apply Hr.
    + by apply objectIsRequired_true in Hreq as (_ & ? & _).
Qed.

End CanceledFacts.

(** ** Bulk removal *)

Lemma collect_loop_spec l acc s :
  NoDup l →
  let r := foldl collect_and_forget (acc, s) l in
  (∀ o, o ∈ r.1 ↔
        o ∈ acc ∨ ∃ t e, t ∈ l ∧ task_dependencies_ s !! t = Some e
                         ∧ o ∈ get_dependencies e) ∧
  (∀ t, task_dependencies_ r.2 !! t
        = if decide (t ∈ l) then None else task_dependencies_ s !! t) ∧
  (∀ t, t ∈ pending_tasks_ r.2 ↔ t ∈ pending_tasks_ s ∧ t ∉ l) ∧
  local_objects_ r.2 = local_objects_ s ∧
  worker_dependencies_ r.2 = worker_dependencies_ s ∧
  required_tasks_ r.2 = required_tasks_ s ∧
  required_objects_ r.2 = required_objects_ s ∧
  outgoing_ r.2 = outgoing_ s.
Proof.
  revert acc s. induction l as [|x l IH]; intros acc s Hnd; cbn [foldl].
  - simpl. repeat split; try done; set_solver.
  - apply NoDup_cons in Hnd as [Hx Hnd].
    unfold collect_and_forget at 2.
    match goal with
    | |- context [foldl collect_and_forget (?acc1, ?s1) l] =>
        destruct (IH acc1 s1 Hnd) as (HC & Htd & Hp & Hl & Hwd & Hrt & Hro & Hout)
    end.
    simpl in *. rewrite Hl, Hwd, Hrt, Hro, Hout.
    split; [|split; [|split]]; [..|done].
    + intros o. rewrite HC. split.
      * intros [Hacc|(t & e & Ht & He & Ho)].
        -- destruct (task_dependencies_ s !! x) as [e|] eqn:He; [|by left].
           apply elem_of_union in Hacc as [?|?]; [by left|].
           right. exists x, e. split; [left|done].
        -- right. exists t, e. split; [by right|].
           rewrite lookup_delete_ne in He by (by intros ->). done.
      * intros [Hacc|(t & e & [->|Ht]%elem_of_cons & He & Ho)].
        -- left. destruct (task_dependencies_ s !! x); set_solver.
        -- left. rewrite He. set_solver.
        -- right. exists t, e. split; [done|].
           rewrite lookup_delete_ne by (by intros ->). done.
    + intros t. rewrite Htd. destruct (decide (t = x)) as [->|Hne].
      * rewrite (decide_True (P := x ∈ x :: l)) by left.
        case_decide; [done|apply lookup_delete_eq].
      * rewrite lookup_delete_ne by done.
        destruct (decide (t ∈ l)).
        -- rewrite decide_True; [done|by right].
        -- rewrite decide_False; [done|]. by intros [?|?]%elem_of_cons.
    + intros t. rewrite Hp. set_solver.
Qed.

Lemma collected_objects_spec ids s o :
  o ∈ collected_objects ids s ↔
  ∃ t e, t ∈ ids ∧ task_dependencies_ s !! t = Some e ∧ o ∈ get_dependencies e.
Proof.
  unfold collected_objects.
  destruct (collect_loop_spec (elements ids) ∅ s (NoDup_elements _)) as (HC & _).
  rewrite HC. split.
  - intros [?|(t & e & ?%elem_of_elements & ?)]; [set_solver|eauto].
  - intros (t & e & ?%elem_of_elements & ?). eauto.
Qed.

Lemma cancel_created_by_spec s x :
  let s1 := cancel_created_by s x in
  required_tasks_ s1 = delete (TaskId x) (required_tasks_ s) ∧
  required_objects_ s1 = required_objects_ s ∖ {[x]} ∧
  local_objects_ s1 = local_objects_ s ∧
  task_dependencies_ s1 = task_dependencies_ s ∧
  worker_dependencies_ s1 = worker_dependencies_ s ∧
  pending_tasks_ s1 = pending_tasks_ s.
Proof.
  unfold cancel_created_by.
  set (s0 := with_required_tasks (delete (TaskId x) (required_tasks_ s)) s).
  destruct (HandleRemoteDependencyCanceled_spec x s0) as [Hsame Hro0].
  assert (objectIsRequired s0 x = false) as Hnot.
  { apply not_true_is_false. intros (Hs & _)%objectIsRequired_true.
    simpl in Hs. rewrite find_entry_delete, decide_True in Hs by done.
    by destruct Hs. }
  rewrite Hnot in Hro0. destruct Hsame as (Hl0 & Htd0 & Hwd0 & Hrt0 & Hp0).
  simpl. by rewrite Hl0, Htd0, Hwd0, Hrt0, Hp0, Hro0.
Qed.

Lemma cancel_created_loop_spec l s :
  let s' := foldl cancel_created_by s l in
  (∀ c, required_tasks_ s' !! c
        = if decide (c ∈ TaskId <$> l) then None else required_tasks_ s !! c) ∧
  (∀ o, o ∈ required_objects_ s' ↔ o ∈ required_objects_ s ∧ o ∉ l) ∧
  local_objects_ s' = local_objects_ s ∧
  task_dependencies_ s' = task_dependencies_ s ∧
  worker_dependencies_ s' = worker_dependencies_ s ∧
  pending_tasks_ s' = pending_tasks_ s.
Proof.
  revert s. induction l as [|x l IH]; intros s; cbn [foldl].
  - simpl. repeat split; try done; set_solver.
  - destruct (IH (cancel_created_by s x)) as (Hrt & Hro & Hl & Htd & Hwd & Hp).
    destruct (cancel_created_by_spec s x) as (Hrt0 & Hro0 & Hl0 & Htd0 & Hwd0 & Hp0).
    cbv zeta in *.
    rewrite Hl, Htd, Hwd, Hp, Hl0, Htd0, Hwd0, Hp0.
    split; [|split]; [..|done].
    + intros c. rewrite Hrt, Hrt0. rewrite fmap_cons.
      destruct (decide (c = TaskId x)) as [->|Hne].
      * rewrite (decide_True (P := TaskId x ∈ TaskId x :: _)) by left.
        case_decide; [done|apply lookup_delete_eq].
      * rewrite lookup_delete_ne by done.
        destruct (decide (c ∈ TaskId <$> l)).
        -- rewrite decide_True; [done|by right].
        -- rewrite decide_False; [done|]. by intros [?|?]%elem_of_cons.
    + intros o. rewrite Hro, Hro0. set_solver.
Qed.

Lemma check_loop_spec l s s' :
  for_each (λ task_id s,
              match required_tasks_ s !! task_id with
              | None => Returns s
              | Some _ => Aborts (CheckFailed check_no_dependents_left)
              end) l s = Returns s' →
  s' = s ∧ ∀ t, t ∈ l → required_tasks_ s !! t = None.
Proof.
  induction l as [|x l IH]; simpl.
  - intros [= <-]. split; [done|]. by intros ? ?%elem_of_nil.
  - destruct (required_tasks_ s !! x) eqn:Hx; [done|]. simpl.
    intros [-> Hl]%IH. split; [done|]. by intros t [->|?]%elem_of_cons; [|apply Hl].
Qed.

Lemma RemoveTasksAndRelatedObjects_spec ids s s' :
  RemoveTasksAndRelatedObjects ids s = Returns s' →
  let C := collected_objects ids s in
  local_objects_ s' = local_objects_ s ∧
  worker_dependencies_ s' = worker_dependencies_ s ∧
  (∀ t, task_dependencies_ s' !! t
        = if decide (t ∈ ids) then None else task_dependencies_ s !! t) ∧
  pending_tasks_ s' = pending_tasks_ s ∖ ids ∧
  (∀ c, required_tasks_ s' !! c
        = if decide (∃ o, o ∈ C ∧ TaskId o = c) then None
          else required_tasks_ s !! c) ∧
  required_objects_ s' = required_objects_ s ∖ C ∧
  (∀ t, t ∈ ids → required_tasks_ s' !! t = None).
Proof.
  unfold RemoveTasksAndRelatedObjects, collected_objects.
  pose proof (collect_loop_spec (elements ids) ∅ s (NoDup_elements _)) as Hcollect.
  destruct (foldl collect_and_forget _ _) as [C s1]. simpl in Hcollect.
  destruct Hcollect as (_ & Htd & Hp & Hl & Hwd & Hrt & Hro & _).
  pose proof (cancel_created_loop_spec (elements C) s1)
    as (Hrt2 & Hro2 & Hl2 & Htd2 & Hwd2 & Hp2).
  simpl in *.
  intros [-> Hchk]%check_loop_spec.
  rewrite Hl2, Hwd2, Htd2, Hp2, Hl, Hwd.
  split; [done|]. split; [done|]. split; [|split; [|split; [|split]]].
  - intros t. rewrite Htd. destruct (decide (t ∈ ids)).
    + rewrite decide_True; [done|by apply elem_of_elements].
    + rewrite decide_False; [done|by rewrite elem_of_elements].
  - apply set_eq. intros t. rewrite Hp, elem_of_difference, elem_of_elements. done.
  - intros c. rewrite Hrt2, Hrt.
    destruct (decide (c ∈ TaskId <$> elements C)) as [Hin|Hnin].
    + rewrite decide_True; [done|].
      apply list_elem_of_fmap in Hin as (o & -> & Ho%elem_of_elements). eauto.
    + rewrite decide_False; [done|]. intros (o & Ho & <-). apply Hnin.
      apply list_elem_of_fmap. exists o. by rewrite elem_of_elements.
  - apply set_eq. intros o. rewrite Hro2, Hro, elem_of_difference, elem_of_elements.
    done.
  - intros t Ht. apply Hchk. by apply elem_of_elements.
Qed.

Lemma RemoveTasksAndRelatedObjects_consistent ids s s' :
  RemoveTasksAndRelatedObjects ids s = Returns s' → consistent s → consistent s'.
Proof.
  intros (Hl & Hwd & Htd & Hp & Hrt & Hro & Hchk)%RemoveTasksAndRelatedObjects_spec
         [Hk Hd Hc Hr].
  assert (∀ o d, find_entry (required_tasks_ s') o = Some d →
                 find_entry (required_tasks_ s) o = Some d
                 ∧ (o ∉ collected_objects ids s) ∧ (TaskId o ∉ ids)) as Hsub.
  { intros o d (inner & Hin & Ho)%find_entry_Some.
    destruct (decide (TaskId o ∈ ids)) as [Hi|Hi];
      [by rewrite (Hchk _ Hi) in Hin|].
    rewrite Hrt in Hin. case_decide as HC; [done|].
    split; [apply find_entry_Some; eauto|]. split; [|done].
    intros Hcol. apply HC. eauto. }
  split.
  - intros c inner o. rewrite Hrt. case_decide; [done|]. apply Hk.
  - intros o d (Hf & HnC & _)%Hsub. destruct (Hd _ _ Hf) as [Hdt Hdw]. split.
    + intros t Hin. destruct (Hdt _ Hin) as (e & He & Hoe).
      rewrite Htd. case_decide as Hi; [|eauto].
      exfalso. apply HnC. apply collected_objects_spec. eauto.
    + intros w Hin. unfold wait_set. rewrite Hwd. by apply Hdw.
  - intros o (Hsome & Hnl & Hnp)%objectIsRequired_true.
    destruct Hsome as [d (Hf & HnC & Hni)%Hsub].
    rewrite Hro. apply elem_of_difference. split; [|done].
    apply Hc, objectIsRequired_true. rewrite Hl in Hnl. rewrite Hp in Hnp.
    repeat split; [by eexists|done|set_solver].
  - intros o. rewrite Hro, Hl. intros [Hin _]%elem_of_difference. by apply Hr.
Qed.

(** ** What every reachable state satisfies *)

Lemma consistent_new : consistent TaskDependencyManager_new.
Proof.
  split.
  - intros c inner o. simpl. by rewrite lookup_empty.
  - intros o d. unfold find_entry. simpl. by rewrite lookup_empty.
  - intros o (Hs & _)%objectIsRequired_true. unfold find_entry in Hs. simpl in Hs.
    rewrite lookup_empty in Hs. by destruct Hs.
  - intros o. simpl. set_solver.
Qed.

Section ReachableFacts.
Context {object_manager_ : ObjectManagerInterface}.

Lemma perform_consistent op s s' :
  perform op s = Returns s' → consistent s → consistent s'.
Proof.
  destruct op; simpl.
  - destruct (SubscribeGetDependencies _ _ _) as [[b s1]|] eqn:Hop; [|done].
    simpl. intros [= <-]. by eapply SubscribeGetDependencies_consistent.
  - apply SubscribeWaitDependencies_consistent.
  - destruct (UnsubscribeGetDependencies _ _) as [[b s1]|] eqn:Hop; [|done].
    simpl. intros [= <-]. by eapply UnsubscribeGetDependencies_consistent.
  - apply UnsubscribeWaitDependencies_consistent.
  - destruct (HandleObjectLocal _ _) as [[r s1]|] eqn:Hop; [|done].
    simpl. intros [= <-]. by eapply HandleObjectLocal_consistent.
  - destruct (HandleObjectMissing _ _) as [[r s1]|] eqn:Hop; [|done].
    simpl. intros [= <-]. by eapply HandleObjectMissing_consistent.
  - intros [= <-]. apply TaskPending_consistent.
  - apply TaskCanceled_consistent.
  - apply RemoveTasksAndRelatedObjects_consistent.
Qed.

Lemma reachable_consistent s : reachable s → consistent s.
Proof.
  induction 1 as [|s op s' _ IH Hop]; [apply consistent_new|].
  by eapply perform_consistent.
Qed.

Lemma reachable_honouring_reachable s : reachable_honouring s → reachable s.
Proof.
  induction 1 as [|s op s' _ IH _ Hop]; [constructor|]. by econstructor.
Qed.

Lemma perform_all_reachable ops s s' :
  reachable s → perform_all ops s = Returns s' → reachable s'.
Proof.
  unfold perform_all. revert s. induction ops as [|op ops IH]; intros s Hs; simpl.
  - by intros [= <-].
  - destruct (perform op s) as [s1|] eqn:Hop; [|done]. simpl.
    apply IH. by econstructor.
Qed.

End ReachableFacts.

(** ** Counting missing dependencies *)

Section MissingCount.
Implicit Types (X L : gset ObjectID) (o : ObjectID).


Lemma missing_count_declare X L o :
  o ∉ X →
  missing_count ({[o]} ∪ X) L
  = if decide (o ∈ L) then missing_count X L else missing_count X L + 1.
Proof.
  intros Ho. unfold missing_count. case_decide as HL.
  - f_equal. f_equal. set_solver.
  - replace (({[o]} ∪ X) ∖ L) with ({[o]} ∪ X ∖ L) by set_solver.
    rewrite size_union by set_solver. rewrite size_singleton. lia.
Qed.

Lemma missing_count_appear X L o :
  o ∈ X → o ∉ L → missing_count X ({[o]} ∪ L) = missing_count X L - 1.
Proof.
  intros HX HL. unfold missing_count.
  replace (X ∖ L) with ({[o]} ∪ X ∖ ({[o]} ∪ L)).
  - rewrite (size_union {[o]} (X ∖ ({[o]} ∪ L))) by set_solver.
    rewrite size_singleton. lia.
  - apply set_eq. intros x. destruct (decide (x = o)); set_solver.
Qed.

Lemma missing_count_vanish X L o :
  o ∈ X → o ∈ L → missing_count X (L ∖ {[o]}) = missing_count X L + 1.
Proof.
  intros HX HL. unfold missing_count.
  replace (X ∖ (L ∖ {[o]})) with ({[o]} ∪ X ∖ L).
  - rewrite (size_union {[o]} (X ∖ L)) by set_solver.
    rewrite size_singleton. lia.
  - apply set_eq. intros x. destruct (decide (x = o)); set_solver.
Qed.

Lemma missing_count_other_appear X L o :
  o ∉ X → missing_count X ({[o]} ∪ L) = missing_count X L.
Proof. intros HX. unfold missing_count. f_equal. f_equal. set_solver. Qed.

Lemma missing_count_other_vanish X L o :
  o ∉ X → missing_count X (L ∖ {[o]}) = missing_count X L.
Proof.
  intros HX. unfold missing_count. f_equal. f_equal.
  apply set_eq. intros x. destruct (decide (x = o)); set_solver.
Qed.

End MissingCount.

Lemma counters_exact_alt s :
  counters_exact s ↔
  ∀ t e, task_dependencies_ s !! t = Some e →
         num_missing_get_dependencies e
         = missing_count (get_dependencies e) (local_objects_ s).
Proof. done. Qed.

Lemma dependent_tasks_of_Some s o d :
  find_entry (required_tasks_ s) o = Some d → dependent_tasks_of s o = dependent_tasks d.
Proof. unfold dependent_tasks_of. by intros ->. Qed.

Lemma elem_of_dependent_tasks_of s o t :
  t ∈ dependent_tasks_of s o ↔
  ∃ d, find_entry (required_tasks_ s) o = Some d ∧ t ∈ dependent_tasks d.
Proof.
  unfold dependent_tasks_of. destruct (find_entry _ o) as [d|].
  - split; [eauto|]. by intros (? & [= <-] & ?).
  - split; [set_solver|]. by intros (? & ? & ?).
Qed.

Lemma elem_of_dependent_workers_of s o w :
  w ∈ dependent_workers_of s o ↔
  ∃ d, find_entry (required_tasks_ s) o = Some d ∧ w ∈ dependent_workers d.
Proof.
  unfold dependent_workers_of. destruct (find_entry _ o) as [d|].
  - split; [eauto|]. by intros (? & [= <-] & ?).
  - split; [set_solver|]. by intros (? & ? & ?).
Qed.

(** The index invariants only read the indices. *)
Lemma subscriptions_indexed_same_indices s s' :
  same_indices s s' → subscriptions_indexed s → subscriptions_indexed s'.
Proof.
  intros (_ & Htd & _ & Hrt & _) Hs. unfold subscriptions_indexed, dependent_tasks_of.
  rewrite Hrt, Htd. apply Hs.
Qed.

Lemma no_empty_entries_same_indices s s' :
  same_indices s s' → no_empty_entries s → no_empty_entries s'.
Proof. intros (_ & _ & _ & Hrt & _) Hs. unfold no_empty_entries. rewrite Hrt. apply Hs. Qed.

Lemma counters_exact_same_indices s s' :
  same_indices s s' → counters_exact s → counters_exact s'.
Proof.
  intros (Hl & Htd & _) Hs. unfold counters_exact. rewrite Hl, Htd. apply Hs.
Qed.

(** ** Subscribing keeps the indices in step *)

Lemma record_get_dependency_indexed t s ref :
  subscriptions_indexed s → subscriptions_indexed (record_get_dependency t s ref).
Proof.
  intros Hs. unfold record_get_dependency. case_decide as Hin; [done|].
  intros t' e' o'. simpl. rewrite elem_of_dependent_tasks_of. simpl.
  rewrite find_entry_store, find_or_emplace_spec.
  assert (∀ t0 o0, t0 ∈ dependent_tasks_of s o0 →
            ∃ d, (if decide (o0 = ref_object_id ref)
                  then Some
                         (mkObjectDependencies
                            (owner_address
                               (default (ObjectDependencies_of ref)
                                  (find_entry (required_tasks_ s) (ref_object_id ref))))
                            ({[t]} ∪ dependent_tasks
                               (default (ObjectDependencies_of ref)
                                  (find_entry (required_tasks_ s) (ref_object_id ref))))
                            (dependent_workers
                               (default (ObjectDependencies_of ref)
                                  (find_entry (required_tasks_ s) (ref_object_id ref)))))
                  else find_entry (required_tasks_ s) o0) = Some d
                 ∧ t0 ∈ dependent_tasks d) as Hmono.
  { intros t0 o0 (d & Hd & Ht0)%elem_of_dependent_tasks_of. case_decide as Ho.
    - subst o0. rewrite Hd. simpl. eexists; split; [done|]. simpl. set_solver.
    - eauto. }
  destruct (decide (t' = t)) as [->|Hne].
  - rewrite lookup_insert_eq. intros [= <-]. simpl.
    intros [->%elem_of_singleton|Ho']%elem_of_union.
    + rewrite decide_True by done. eexists; split; [done|]. simpl. set_solver.
    + apply Hmono.
      destruct (task_dependencies_ s !! t) as [e|] eqn:He; simpl in Ho';
        [by eapply Hs|set_solver].
  - rewrite lookup_insert_ne by done. intros He Ho'. apply Hmono. by eapply Hs.
Qed.

Lemma record_get_dependency_no_empty t s ref :
  no_empty_entries s → no_empty_entries (record_get_dependency t s ref).
Proof.
  intros Hs. unfold record_get_dependency. case_decide as Hin; [done|].
  intros o d. simpl. rewrite find_entry_store. case_decide; [|apply Hs].
  intros [= <-]. apply Empty_false. simpl. set_solver.
Qed.

Lemma record_get_dependency_counters t s ref :
  counters_exact s → counters_exact (record_get_dependency t s ref).
Proof.
  intros Hs. unfold record_get_dependency. case_decide as Hin; [done|].
  intros t' e'. simpl. destruct (decide (t' = t)) as [->|Hne].
  - rewrite lookup_insert_eq. intros [= <-]. simpl.
    fold (missing_count
            ({[ref_object_id ref]}
             ∪ get_dependencies (default TaskDependencies_new (task_dependencies_ s !! t)))
            (local_objects_ s)).
    rewrite missing_count_declare by done.
    assert (num_missing_get_dependencies
              (default TaskDependencies_new (task_dependencies_ s !! t))
            = missing_count
                (get_dependencies (default TaskDependencies_new (task_dependencies_ s !! t)))
                (local_objects_ s)) as ->; [|done].
    destruct (task_dependencies_ s !! t) as [e|] eqn:He; simpl;
      [exact (Hs _ _ He)|].
    unfold missing_count. by rewrite difference_disjoint_L, size_empty by set_solver.
  - rewrite lookup_insert_ne by done. apply Hs.
Qed.

Lemma record_wait_dependency_indexed w s ref :
  subscriptions_indexed s → subscriptions_indexed (record_wait_dependency w s ref).
Proof.
  intros Hs. unfold record_wait_dependency. repeat case_decide; [done..|].
  intros t' e' o'. simpl. intros He Ho'.
  specialize (Hs _ _ _ He Ho'). apply elem_of_dependent_tasks_of.
  apply elem_of_dependent_tasks_of in Hs as (d & Hd & Ht). simpl.
  rewrite find_entry_store, find_or_emplace_spec. case_decide as Ho; [|eauto].
  subst o'. rewrite Hd. simpl. eexists; split; [done|]. done.
Qed.

Lemma record_wait_dependency_no_empty w s ref :
  no_empty_entries s → no_empty_entries (record_wait_dependency w s ref).
Proof.
  intros Hs. unfold record_wait_dependency. repeat case_decide; [done..|].
  intros o d. simpl. rewrite find_entry_store. case_decide; [|apply Hs].
  intros [= <-]. apply Empty_false. simpl. set_solver.
Qed.

Lemma record_wait_dependency_counters w s ref :
  counters_exact s → counters_exact (record_wait_dependency w s ref).
Proof. intros Hs. unfold record_wait_dependency. by repeat case_decide. Qed.

Section SubscribeSynced.
Context {object_manager_ : ObjectManagerInterface}.

Lemma SubscribeGetDependencies_synced t refs s b s' :
  SubscribeGetDependencies t refs s = Returns (b, s') → synced s → synced s'.
Proof.
  unfold SubscribeGetDependencies.
  set (s0 := with_task_dependencies _ s).
  destruct (for_each _ refs _) as [s2|] eqn:Hloop; [|done]. simpl.
  intros [= _ <-] [Hi Hn Hc Hp].
  rewrite for_each_fmap in Hloop.
  pose proof (record_get_dependency_grow t s0 refs) as Hgrow.
  destruct (grow_then_require _ _ _ _ Hgrow Hloop) as (_ & _ & Hp').
  apply require_loop_spec in Hloop as [Hsame _].
  split.
  - eapply subscriptions_indexed_same_indices; [done|].
    apply foldl_preserves; [intros; by apply record_get_dependency_indexed|].
    intros t' e' o'. subst s0. simpl. destruct (decide (t' = t)) as [->|Hne].
    + rewrite lookup_insert_eq. intros [= <-].
      destruct (task_dependencies_ s !! t) as [e|] eqn:He; simpl; [|set_solver].
      intros Ho. exact (Hi _ _ _ He Ho).
    + rewrite lookup_insert_ne by done. apply Hi.
  - eapply no_empty_entries_same_indices; [done|].
    apply foldl_preserves; [intros; by apply record_get_dependency_no_empty|done].
  - eapply counters_exact_same_indices; [done|].
    apply foldl_preserves; [intros; by apply record_get_dependency_counters|].
    intros t' e'. subst s0. simpl. destruct (decide (t' = t)) as [->|Hne].
    + rewrite lookup_insert_eq. intros [= <-].
      destruct (task_dependencies_ s !! t) as [e|] eqn:He; simpl;
        [exact (Hc _ _ He)|].
      by rewrite difference_disjoint_L, size_empty by set_solver.
    + rewrite lookup_insert_ne by done. apply Hc.
  - apply Hp'. intros o. apply Hp.
Qed.

Lemma SubscribeWaitDependencies_synced w refs s s' :
  SubscribeWaitDependencies w refs s = Returns s' → synced s → synced s'.
Proof.
  unfold SubscribeWaitDependencies.
  set (s0 := with_worker_dependencies _ s).
  intros Hloop [Hi Hn Hc Hp].
  rewrite for_each_fmap in Hloop.
  pose proof (record_wait_dependency_grow w s0 refs) as Hgrow.
  destruct (grow_then_require _ _ _ _ Hgrow Hloop) as (_ & _ & Hp').
  apply require_loop_spec in Hloop as [Hsame _].
  split.
  - eapply subscriptions_indexed_same_indices; [done|].
    apply foldl_preserves; [intros; by apply record_wait_dependency_indexed|done].
  - eapply no_empty_entries_same_indices; [done|].
    apply foldl_preserves; [intros; by apply record_wait_dependency_no_empty|done].
  - eapply counters_exact_same_indices; [done|].
    apply foldl_preserves; [intros; by apply record_wait_dependency_counters|done].
  - apply Hp'. intros o. apply Hp.
Qed.

End SubscribeSynced.

(** ** Unsubscribing keeps the indices in step *)

Lemma UnsubscribeGetDependencies_synced t s b s' :
  UnsubscribeGetDependencies t s = Returns (b, s') → synced s → synced s'.
Proof.
  unfold UnsubscribeGetDependencies.
  destruct (task_dependencies_ s !! t) as [e|] eqn:He; [|by intros [= _ <-]].
  simpl. destruct (for_each _ _ _) as [rt'|] eqn:Hloop; [|done]. simpl.
  intros [= _ <-] [Hi Hn Hc Hp].
  set (s0 := with_task_dependencies (delete t (task_dependencies_ s)) s) in *.
  pose proof (NoDup_elements (get_dependencies e)) as Hnd.
  pose proof (remove_loop_shrink _ _ s0 _ Hnd Hloop) as Hshrink.
  destruct (shrink_then_cancel _ _ _ Hshrink) as (_ & _ & Hp').
  destruct (cancel_loop_spec (elements (get_dependencies e))
              (with_required_tasks rt' s0)) as [Hsame _].
  split.
  - eapply subscriptions_indexed_same_indices; [done|].
    intros t' e' o'. simpl. intros [Hne He']%lookup_delete_Some Ho'.
    specialize (Hi _ _ _ He' Ho').
    apply elem_of_dependent_tasks_of in Hi as (d & Hd & Ht').
    apply elem_of_dependent_tasks_of. simpl.
    destruct (remove_loop_find _ _ _ _ Hnd Hloop o') as [Hout Hin].
    destruct (decide (o' ∈ elements (get_dependencies e))) as [Hel|Hel].
    + destruct (Hin Hel) as (d0 & d1 & Hd0 & Hf1 & ->).
      rewrite Hd in Hd0. injection Hd0 as <-.
      unfold erase_dependent_task in Hf1. case_decide; [|done].
      injection Hf1 as <-.
      destruct (Empty _) eqn:HE.
      * destruct (proj1 (Empty_true _) HE) as [HE' _]. simpl in HE'.
        exfalso. clear -HE' Ht' Hne. set_solver.
      * eexists; split; [done|]. simpl. set_solver.
    + rewrite Hout by done. eauto.
  - eapply no_empty_entries_same_indices; [done|].
    intros o d. simpl.
    destruct (remove_loop_find _ _ _ _ Hnd Hloop o) as [Hout Hin].
    destruct (decide (o ∈ elements (get_dependencies e))) as [Hel|Hel].
    + destruct (Hin Hel) as (d0 & d1 & Hd0 & Hf1 & ->).
      destruct (Empty d1) eqn:HE; [done|]. by intros [= <-].
    + rewrite Hout by done. apply Hn.
  - eapply counters_exact_same_indices; [done|].
    intros t' e'. simpl. intros [_ He']%lookup_delete_Some. exact (Hc _ _ He').
  - apply Hp'. intros o. apply Hp.
Qed.

Lemma UnsubscribeWaitDependencies_synced w s s' :
  UnsubscribeWaitDependencies w s = Returns s' → synced s → synced s'.
Proof.
  unfold UnsubscribeWaitDependencies.
  destruct (worker_dependencies_ s !! w) as [ws|] eqn:He; [|by intros [= <-]].
  simpl. destruct (for_each _ _ _) as [rt'|] eqn:Hloop; [|done]. simpl.
  intros [= <-] [Hi Hn Hc Hp].
  set (s0 := with_worker_dependencies (delete w (worker_dependencies_ s)) s) in *.
  pose proof (NoDup_elements ws) as Hnd.
  pose proof (remove_loop_shrink _ _ s0 _ Hnd Hloop) as Hshrink.
  destruct (shrink_then_cancel _ _ _ Hshrink) as (_ & _ & Hp').
  destruct (cancel_loop_spec (elements ws)
              (with_required_tasks rt' s0)) as [Hsame _].
  split.
  - eapply subscriptions_indexed_same_indices; [done|].
    intros t' e' o'. simpl. intros He' Ho'.
    specialize (Hi _ _ _ He' Ho').
    apply elem_of_dependent_tasks_of in Hi as (d & Hd & Ht').
    apply elem_of_dependent_tasks_of. simpl.
    destruct (remove_loop_find _ _ _ _ Hnd Hloop o') as [Hout Hin].
    destruct (decide (o' ∈ elements ws)) as [Hel|Hel].
    + destruct (Hin Hel) as (d0 & d1 & Hd0 & Hf1 & ->).
      rewrite Hd in Hd0. injection Hd0 as <-.
      unfold erase_dependent_worker in Hf1. case_decide; [|done].
      injection Hf1 as <-.
      destruct (Empty _) eqn:HE.
      * destruct (proj1 (Empty_true _) HE) as [HE' _]. simpl in HE'.
        exfalso. clear -HE' Ht'. set_solver.
      * eexists; split; [done|]. done.
    + rewrite Hout by done. eauto.
  - eapply no_empty_entries_same_indices; [done|].
    intros o d. simpl.
    destruct (remove_loop_find _ _ _ _ Hnd Hloop o) as [Hout Hin].
    destruct (decide (o ∈ elements ws)) as [Hel|Hel].
    + destruct (Hin Hel) as (d0 & d1 & Hd0 & Hf1 & ->).
      destruct (Empty d1) eqn:HE; [done|]. by intros [= <-].
    + rewrite Hout by done. apply Hn.
  - eapply counters_exact_same_indices; [done|]. exact Hc.
  - apply Hp'. intros o. apply Hp.
Qed.

(** ** Objects appearing and vanishing keep the indices in step *)

Lemma HandleObjectLocal_synced o s ready s' :
  HandleObjectLocal o s = Returns (ready, s') → consistent s → synced s → synced s'.
Proof.
  intros (Hlocal & Hl & Hp & Hro & Htd & _ & Hwd & Hrt & _ & _)%HandleObjectLocal_spec
         [_ Hd _ _] [Hi Hn Hc Hx].
  assert (∀ t e', task_dependencies_ s' !! t = Some e' →
            ∃ e, task_dependencies_ s !! t = Some e
                 ∧ get_dependencies e' = get_dependencies e
                 ∧ num_missing_get_dependencies e'
                   = if decide (t ∈ dependent_tasks_of s o)
                     then num_missing_get_dependencies e - 1
                     else num_missing_get_dependencies e) as Hentry.
  { intros t e'. rewrite Htd. case_decide as Hin.
    - apply elem_of_dependent_tasks_of in Hin as (d & Hf & Ht).
      destruct (Hd _ _ Hf) as [Hdt _]. destruct (Hdt _ Ht) as (e & He & _).
      unfold entry_of. rewrite He. simpl. intros [= <-]. eauto.
    - intros He. eauto. }
  split.
  - intros t e' o' (e & He & Hg & _)%Hentry. rewrite Hg. intros Ho'.
    specialize (Hi _ _ _ He Ho').
    apply elem_of_dependent_tasks_of in Hi as (d & Hf & Ht).
    apply elem_of_dependent_tasks_of. rewrite Hrt. case_decide as Heq; [|eauto].
    subst o'. rewrite Hf. simpl. destruct (Empty _) eqn:HE.
    + destruct (proj1 (Empty_true _) HE) as [HE' _]. simpl in HE'.
      exfalso. clear -HE' Ht. set_solver.
    + eauto.
  - intros o' d'. rewrite Hrt. case_decide; [|apply Hn].
    intros (d & _ & Ht & _ & _ & Hne)%cleared_entry_Some.
    apply Empty_false. rewrite Ht. tauto.
  - intros t e' He'. destruct (Hentry _ _ He') as (e & He & Hg & Hnum).
    rewrite Hnum, Hg, Hl. fold (missing_count (get_dependencies e)
                                   ({[o]} ∪ local_objects_ s)).
    rewrite (Hc _ _ He). fold (missing_count (get_dependencies e) (local_objects_ s)).
    case_decide as Hin.
    + apply elem_of_dependent_tasks_of in Hin as (d & Hf & Ht).
      destruct (Hd _ _ Hf) as [Hdt _]. destruct (Hdt _ Ht) as (e0 & He0 & Ho).
      rewrite He in He0. injection He0 as <-.
      by rewrite missing_count_appear.
    + rewrite missing_count_other_appear; [done|].
      intros Ho. apply Hin. by eapply Hi.
  - intros o'. rewrite Hro, objectIsRequired_true, Hrt, Hl, Hp.
    rewrite elem_of_difference, (Hx o'), objectIsRequired_true.
    case_decide as Heq; [subst o'; set_solver|]. set_solver.
Qed.

Section MissingSynced.
Context {object_manager_ : ObjectManagerInterface}.

Lemma HandleObjectMissing_synced o s waiting s' :
  HandleObjectMissing o s = Returns (waiting, s') → consistent s → synced s → synced s'.
Proof.
  intros (Hlocal & Hl & Hp & Hwd & Hrt & Hro & Htd & _)%HandleObjectMissing_spec
         [_ Hd _ Hr] [Hi Hn Hc Hx].
  assert (∀ t e', task_dependencies_ s' !! t = Some e' →
            ∃ e, task_dependencies_ s !! t = Some e
                 ∧ get_dependencies e' = get_dependencies e
                 ∧ num_missing_get_dependencies e'
                   = if decide (t ∈ dependent_tasks_of s o)
                     then num_missing_get_dependencies e + 1
                     else num_missing_get_dependencies e) as Hentry.
  { intros t e'. rewrite Htd. case_decide as Hin.
    - apply elem_of_dependent_tasks_of in Hin as (d & Hf & Ht).
      destruct (Hd _ _ Hf) as [Hdt _]. destruct (Hdt _ Ht) as (e & He & _).
      unfold entry_of. rewrite He. simpl. intros [= <-]. eauto.
    - intros He. eauto. }
  split.
  - intros t e' o' (e & He & Hg & _)%Hentry. rewrite Hg. intros Ho'.
    unfold dependent_tasks_of. rewrite Hrt. exact (Hi _ _ _ He Ho').
  - unfold no_empty_entries. rewrite Hrt. exact Hn.
  - intros t e' He'. destruct (Hentry _ _ He') as (e & He & Hg & Hnum).
    rewrite Hnum, Hg, Hl. fold (missing_count (get_dependencies e)
                                   (local_objects_ s ∖ {[o]})).
    rewrite (Hc _ _ He). fold (missing_count (get_dependencies e) (local_objects_ s)).
    case_decide as Hin.
    + apply elem_of_dependent_tasks_of in Hin as (d & Hf & Ht).
      destruct (Hd _ _ Hf) as [Hdt _]. destruct (Hdt _ Ht) as (e0 & He0 & Ho).
      rewrite He in He0. injection He0 as <-.
      by rewrite missing_count_vanish.
    + rewrite missing_count_other_vanish; [done|].
      intros Ho. apply Hin. by eapply Hi.
  - intros o'. rewrite Hro. destruct (decide (o' = o)) as [->|Hne].
    + destruct (objectIsRequired s' o) eqn:Hreq; [set_solver|].
      split; [|done]. intros Hin. by apply Hr in Hin.
    + rewrite objectIsRequired_true, Hrt, Hl, Hp.
      assert (o' ∈ required_objects_ s ↔
              is_Some (find_entry (required_tasks_ s) o')
              ∧ (o' ∉ local_objects_ s) ∧ (TaskId o' ∉ pending_tasks_ s)) as Hx'.
      { by rewrite (Hx o'), objectIsRequired_true. }
      destruct (objectIsRequired s' o); set_solver.
Qed.

End MissingSynced.

(** ** Pending tasks and the bulk removal keep the indices in step *)

Lemma synced_same_indices s s' :
  same_indices s s' → pulls_exact s' →
  subscriptions_indexed s → no_empty_entries s → counters_exact s → synced s'.
Proof.
  intros Hsame Hp Hi Hn Hc. split; [ | | |done].
  - by eapply subscriptions_indexed_same_indices.
  - by eapply no_empty_entries_same_indices.
  - by eapply counters_exact_same_indices.
Qed.

Lemma TaskPending_synced task s : consistent s → synced s → synced (TaskPending task s).
Proof.
  intros [Hk _ _ _] [Hi Hn Hc Hx].
  destruct (tracked task) eqn:Htracked; [|by rewrite TaskPending_untracked].
  destruct (decide (TaskSpecification_TaskId task ∈ pending_tasks_ s)) as [Hin|Hnin];
    [by rewrite TaskPending_pending|].
  destruct (TaskPending_spec task s Htracked Hnin) as [Hsame Hro].
  eapply synced_same_indices; [exact Hsame| |exact Hi|exact Hn|exact Hc].
  intros o. rewrite (objectIsRequired_same_indices _ _ _ Hsame), Hro, (Hx o).
  rewrite !objectIsRequired_true. simpl. split.
  - intros [(Hs & Hl & Hp) Hcr]. repeat split; [done..|].
    intros [Ht%elem_of_singleton|?]%elem_of_union; [|done].
    rewrite <- Ht in Hcr. apply created_by_find in Hs.
    apply Hcr in Hs as (_ & _ & Hs). set_solver.
  - intros (Hs & Hl & Hp). split; [|done]. repeat split; [done..|set_solver].
Qed.

Section CanceledSynced.
Context {object_manager_ : ObjectManagerInterface}.

Lemma TaskCanceled_synced t s s' :
  TaskCanceled t s = Returns s' → synced s → synced s'.
Proof.
  intros Hcancel [Hi Hn Hc Hx].
  destruct (decide (t ∈ pending_tasks_ s)) as [Hin|Hnin];
    [|rewrite TaskCanceled_not_pending in Hcancel by done; by injection Hcancel as <-].
  destruct (TaskCanceled_spec t s s' Hin Hcancel) as [Hsame Hro].
  eapply synced_same_indices; [exact Hsame| |exact Hi|exact Hn|exact Hc].
  intros o. rewrite (objectIsRequired_same_indices _ _ _ Hsame), Hro, (Hx o).
  rewrite !objectIsRequired_true. simpl. split.
  - intros [(Hs & Hl & Hp)|[_ ?]]; [|done]. repeat split; [done..|set_solver].
  - intros (Hs & Hl & Hp). destruct (decide (TaskId o = t)) as [<-|Hne].
    + right. split; [by apply created_by_find|done].
    + left. repeat split; [done..|set_solver].
Qed.

End CanceledSynced.

Lemma subscribers_purged_entry ids s o o' d :
  subscribers_purged ids s →
  o ∈ collected_objects ids s → TaskId o = TaskId o' →
  find_entry (required_tasks_ s) o' = Some d →
  dependent_workers d = ∅ ∧ dependent_tasks d ⊆ ids.
Proof.
  intros Hpurged Ho Heq Hf. specialize (Hpurged _ Ho). rewrite Heq in Hpurged.
  rewrite <- find_entry_objects_of in Hf. exact (Hpurged _ _ Hf).
Qed.

Lemma RemoveTasksAndRelatedObjects_synced ids s s' :
  RemoveTasksAndRelatedObjects ids s = Returns s' →
  subscribers_purged ids s → consistent s → synced s → synced s'.
Proof.
  intros Hremove Hpurged Hcons [Hi Hn Hc Hx].
  pose proof (RemoveTasksAndRelatedObjects_consistent _ _ _ Hremove Hcons)
    as [_ _ Hcover' _].
  destruct Hcons as [Hk Hd _ _].
  apply RemoveTasksAndRelatedObjects_spec in Hremove
    as (Hl & Hwd & Htd & Hp & Hrt & Hro & Hchk).
  assert (∀ o d, find_entry (required_tasks_ s') o = Some d →
                 find_entry (required_tasks_ s) o = Some d) as Hsub.
  { intros o d (inner & Hin & Ho)%find_entry_Some.
    rewrite Hrt in Hin. case_decide; [done|]. apply find_entry_Some; eauto. }
  assert (∀ o d t, find_entry (required_tasks_ s) o = Some d → t ∈ dependent_tasks d →
                   t ∉ ids → find_entry (required_tasks_ s') o = Some d) as Hkeep.
  { intros o d t Hf Ht Hni. apply find_entry_Some in Hf as Hf'.
    destruct Hf' as (inner & Hin & Ho). apply find_entry_Some. exists inner.
    split; [|done]. rewrite Hrt. case_decide as HC; [|done].
    destruct HC as (o2 & Ho2 & Heq).
    destruct (subscribers_purged_entry _ _ _ _ _ Hpurged Ho2 Heq Hf) as [_ Hsubset].
    exfalso. apply Hni. set_solver. }
  split.
  - intros t e o. rewrite Htd. case_decide as Hni; [done|]. intros He Ho.
    specialize (Hi _ _ _ He Ho).
    apply elem_of_dependent_tasks_of in Hi as (d & Hf & Ht).
    apply elem_of_dependent_tasks_of. exists d. split; [|done]. by eapply Hkeep.
  - intros o d Hf%Hsub. by eapply Hn.
  - intros t e. rewrite Htd, Hl. case_decide; [done|]. apply Hc.
  - intros o. split; [|apply Hcover'].
    rewrite Hro. intros [Hin HnC]%elem_of_difference.
    apply Hx, objectIsRequired_true in Hin as ([d Hf] & Hnl & Hnp).
    apply objectIsRequired_true. rewrite Hl, Hp.
    split; [|split; [done|set_solver]].
    assert (dependent_tasks d = ∅ ∨ ∃ t, t ∈ dependent_tasks d) as [Hempty|[t Ht]].
    { destruct (set_choose_or_empty (dependent_tasks d)) as [?|?]; [by right|left].
      by apply leibniz_equiv. }
    + (* only workers wait for the object: its outer entry is not erased *)
      exists d. apply find_entry_Some in Hf as Hf'.
      destruct Hf' as (inner & Hin & Ho). apply find_entry_Some. exists inner.
      split; [|done]. rewrite Hrt. case_decide as HC; [|done].
      destruct HC as (o2 & Ho2 & Heq).
      destruct (subscribers_purged_entry _ _ _ _ _ Hpurged Ho2 Heq Hf) as [Hw _].
      specialize (Hn _ _ Hf). apply Empty_false in Hn. tauto.
    + destruct (decide (t ∈ ids)) as [Hti|Hti]; [|exists d; by eapply Hkeep].
      exfalso. apply HnC. apply collected_objects_spec.
      destruct (Hd _ _ Hf) as [Hdt _]. destruct (Hdt _ Ht) as (e & He & Hoe). eauto.
Qed.

(** ** What every state reached by a caller honouring the contract satisfies *)

Lemma synced_new : synced TaskDependencyManager_new.
Proof.
  split.
  - intros t e o. simpl. by rewrite lookup_empty.
  - intros o d. unfold find_entry. simpl. by rewrite lookup_empty.
  - intros t e. simpl. by rewrite lookup_empty.
  - intros o. rewrite objectIsRequired_true. unfold find_entry. simpl.
    rewrite lookup_empty. simpl. split; [set_solver|]. by intros [[? ?] _].
Qed.

Section HonouringFacts.
Context {object_manager_ : ObjectManagerInterface}.

Lemma perform_synced op s s' :
  perform op s = Returns s' → honours_contract s op →
  consistent s → synced s → synced s'.
Proof.
  destruct op; simpl.
  - destruct (SubscribeGetDependencies _ _ _) as [[b s1]|] eqn:Hop; [|done].
    simpl. intros [= <-] _ _. by eapply SubscribeGetDependencies_synced.
  - intros ? _ _. by eapply SubscribeWaitDependencies_synced.
  - destruct (UnsubscribeGetDependencies _ _) as [[b s1]|] eqn:Hop; [|done].
    simpl. intros [= <-] _ _. by eapply UnsubscribeGetDependencies_synced.
  - intros ? _ _. by eapply UnsubscribeWaitDependencies_synced.
  - destruct (HandleObjectLocal _ _) as [[r s1]|] eqn:Hop; [|done].
    simpl. intros [= <-] _. by eapply HandleObjectLocal_synced.
  - destruct (HandleObjectMissing _ _) as [[r s1]|] eqn:Hop; [|done].
    simpl. intros [= <-] _. by eapply HandleObjectMissing_synced.
  - intros [= <-] _. apply TaskPending_synced.
  - intros ? _ _. by eapply TaskCanceled_synced.
  - intros. by eapply RemoveTasksAndRelatedObjects_synced.
Qed.

Lemma reachable_honouring_synced s : reachable_honouring s → synced s.
Proof.
  induction 1 as [|s op s' Hs IH Hh Hop]; [apply synced_new|].
  eapply perform_synced; [done..| |done].
  by apply reachable_consistent, reachable_honouring_reachable.
Qed.

End HonouringFacts.

(** * The claims *)

(** ** Benign no-ops (C9) *)

(** C9. Unsubscribing a task that has no entry in [task_dependencies_]
    returns [false] and leaves the whole state, the log of outgoing calls
    included, as it was; unsubscribing a worker that has no entry and
    cancelling a task that is not pending return with the state unchanged. *)
Theorem C9_benign_no_ops {object_manager_ : ObjectManagerInterface}
    (s : TaskDependencyManager) :
  (∀ task_id, task_dependencies_ s !! task_id = None →
     UnsubscribeGetDependencies task_id s = Returns (false, s)) ∧
  (∀ worker_id, worker_dependencies_ s !! worker_id = None →
     UnsubscribeWaitDependencies worker_id s = Returns s) ∧
  (∀ task_id, task_id ∉ pending_tasks_ s → TaskCanceled task_id s = Returns s).
Proof.
  split; [|split].
  - intros t Ht. unfold UnsubscribeGetDependencies. by rewrite Ht.
  - intros w Hw. unfold UnsubscribeWaitDependencies. by rewrite Hw.
  - intros t Ht. by apply TaskCanceled_not_pending.
Qed.

(** ** The owner address (C10, C7) *)

(** C10. [GetOwnerAddress] returns [false] and leaves the output cell alone
    when the object has no entry; when it has one, the cached address is
    written to the cell whatever the result, and the result is [true] exactly
    when the worker identifier of the cached address is not empty. *)
Theorem C10_GetOwnerAddress (s : TaskDependencyManager) (object_id : ObjectID)
    (cell : Address) :
  (find_entry (required_tasks_ s) object_id = None →
     GetOwnerAddress s object_id cell = (false, cell)) ∧
  (∀ d, find_entry (required_tasks_ s) object_id = Some d →
     worker_id (owner_address d) = "" →
     GetOwnerAddress s object_id cell = (false, owner_address d)) ∧
  ((GetOwnerAddress s object_id cell).1 = true ↔
     ∃ d, find_entry (required_tasks_ s) object_id = Some d
          ∧ worker_id (owner_address d) ≠ "").
Proof.
  unfold GetOwnerAddress, find_entry.
  destruct (required_tasks_ s !! TaskId object_id) as [inner|]; simpl.
  - destruct (inner !! object_id) as [d|]; simpl.
    + split; [done|]. split.
      * intros d' [= <-] Hw. by rewrite bool_decide_eq_true_2.
      * rewrite negb_true_iff, bool_decide_eq_false. split; [eauto|].
        by intros (d' & [= <-] & ?).
    + split; [done|]. split; [done|]. split; [done|]. by intros (? & ? & _).
  - split; [done|]. split; [done|]. split; [done|]. by intros (? & ? & _).
Qed.

Lemma record_get_dependency_owner t s ref o d :
  find_entry (required_tasks_ s) o = Some d →
  ∃ d', find_entry (required_tasks_ (record_get_dependency t s ref)) o = Some d'
        ∧ owner_address d' = owner_address d.
Proof.
  intros Hf. unfold record_get_dependency. case_decide; [eauto|]. simpl.
  rewrite find_entry_store, find_or_emplace_spec. case_decide as Ho; [|eauto].
  subst o. rewrite Hf. simpl. eauto.
Qed.

Lemma record_wait_dependency_owner w s ref o d :
  find_entry (required_tasks_ s) o = Some d →
  ∃ d', find_entry (required_tasks_ (record_wait_dependency w s ref)) o = Some d'
        ∧ owner_address d' = owner_address d.
Proof.
  intros Hf. unfold record_wait_dependency. repeat case_decide; [eauto..|]. simpl.
  rewrite find_entry_store, find_or_emplace_spec. case_decide as Ho; [|eauto].
  subst o. rewrite Hf. simpl. eauto.
Qed.

(** C7. A record of the index that exists before a call of
    [SubscribeGetDependencies] or [SubscribeWaitDependencies] still exists
    after it and caches the same owner address, whatever the references of
    the call carry. *)
Theorem C7_owner_address_kept {object_manager_ : ObjectManagerInterface}
    (s : TaskDependencyManager) (object_id : ObjectID) (d : ObjectDependencies) :
  find_entry (required_tasks_ s) object_id = Some d →
  (∀ task_id refs b s',
     SubscribeGetDependencies task_id refs s = Returns (b, s') →
     ∃ d', find_entry (required_tasks_ s') object_id = Some d'
           ∧ owner_address d' = owner_address d) ∧
  (∀ worker_id refs s',
     SubscribeWaitDependencies worker_id refs s = Returns s' →
     ∃ d', find_entry (required_tasks_ s') object_id = Some d'
           ∧ owner_address d' = owner_address d).
Proof.
  intros Hf. split.
  - intros t refs b s'. unfold SubscribeGetDependencies.
    destruct (for_each _ refs _) as [s2|] eqn:Hloop; [|done]. simpl.
    intros [= _ <-]. rewrite for_each_fmap in Hloop.
    apply require_loop_spec in Hloop as [(_ & _ & _ & -> & _) _].
    apply (foldl_preserves
             (λ s1, ∃ d', find_entry (required_tasks_ s1) object_id = Some d'
                          ∧ owner_address d' = owner_address d)); [|eauto].
    intros s1 ref _ (d1 & Hd1 & <-). by apply record_get_dependency_owner.
  - intros w refs s'. unfold SubscribeWaitDependencies. intros Hloop.
    rewrite for_each_fmap in Hloop.
    apply require_loop_spec in Hloop as [(_ & _ & _ & -> & _) _].
    apply (foldl_preserves
             (λ s1, ∃ d', find_entry (required_tasks_ s1) object_id = Some d'
                          ∧ owner_address d' = owner_address d)); [|eauto].
    intros s1 ref _ (d1 & Hd1 & <-). by apply record_wait_dependency_owner.
Qed.

Lemma C9_benign_no_ops_witness :
  let s := @state_after accepting_object_manager
             [OpSubscribeGetDependencies task_1 [mkObjectReference object_1 sample_owner]] in
  @UnsubscribeGetDependencies task_2 s = Returns (false, s) ∧
  @UnsubscribeWaitDependencies worker_1 s = Returns s ∧
  @TaskCanceled accepting_object_manager creator s = Returns s.
Proof.
  intros s.
  destruct (@C9_benign_no_ops accepting_object_manager s) as (Hget & Hwait & Hcancel).
  split; [|split].
  - apply Hget. vm_compute. reflexivity.
  - apply Hwait. vm_compute. reflexivity.
  - apply Hcancel. vm_compute. intros H. discriminate H.
Defined.

Lemma C10_GetOwnerAddress_witness :
  let s := @state_after accepting_object_manager
             [OpSubscribeGetDependencies task_1
                [mkObjectReference object_1 sample_stale_owner]] in
  GetOwnerAddress s object_2 sample_owner = (false, sample_owner) ∧
  GetOwnerAddress s object_1 sample_owner = (false, sample_stale_owner).
Proof.
  intros s. split.
  - apply (C10_GetOwnerAddress s object_2 sample_owner). vm_compute. reflexivity.
  - apply (proj1 (proj2 (C10_GetOwnerAddress s object_1 sample_owner))
             (mkObjectDependencies sample_stale_owner {[task_1]} ∅)).
    + vm_compute. reflexivity.
    + reflexivity.
Defined.

Lemma C7_owner_address_kept_witness :
  let s := @state_after accepting_object_manager
             [OpSubscribeGetDependencies task_1 [mkObjectReference object_1 sample_owner]] in
  ∃ d', find_entry
          (required_tasks_
             (@state_after accepting_object_manager
                [OpSubscribeGetDependencies task_1
                   [mkObjectReference object_1 sample_owner];
                 OpSubscribeGetDependencies task_2
                   [mkObjectReference object_1 sample_stale_owner]])) object_1
        = Some d'
        ∧ owner_address d' = sample_owner.
Proof.
  intros s.
  destruct (@C7_owner_address_kept accepting_object_manager s object_1
              (mkObjectDependencies sample_owner {[task_1]} ∅)) as [Hget _].
  { vm_compute. reflexivity. }
  destruct (@SubscribeGetDependencies accepting_object_manager task_2
              [mkObjectReference object_1 sample_stale_owner] s)
    as [[b s']|] eqn:Hcall; [|vm_compute in Hcall; discriminate Hcall].
  destruct (Hget _ _ _ _ Hcall) as (d' & Hd' & Howner).
  exists d'. split; [|exact Howner].
  vm_compute in Hcall. injection Hcall as _ <-. exact Hd'.
Defined.

(** ** The result of [SubscribeGetDependencies] (C4) *)

Lemma record_get_dependency_grows t s ref o :
  o ∈ get_dependencies (entry_of (task_dependencies_ s) t) ∨ o = ref_object_id ref ↔
  o ∈ get_dependencies (entry_of (task_dependencies_ (record_get_dependency t s ref)) t).
Proof.
  unfold record_get_dependency. fold (entry_of (task_dependencies_ s) t).
  case_decide as Hin; [set_solver|]. simpl.
  unfold entry_of at 2. rewrite lookup_insert_eq. simpl. set_solver.
Qed.

Lemma record_loop_grows t refs s o :
  o ∈ get_dependencies (entry_of (task_dependencies_ s) t) ∨ o ∈ ref_object_id <$> refs ↔
  o ∈ get_dependencies
        (entry_of (task_dependencies_ (foldl (record_get_dependency t) s refs)) t).
Proof.
  revert s. induction refs as [|ref refs IH]; intros s; simpl.
  - set_solver.
  - rewrite <- IH, <- record_get_dependency_grows. set_solver.
Qed.

Lemma record_get_dependency_subscribed t s ref :
  is_Some (task_dependencies_ s !! t) →
  is_Some (task_dependencies_ (record_get_dependency t s ref) !! t).
Proof.
  intros Hs. unfold record_get_dependency. case_decide; [done|]. simpl.
  rewrite lookup_insert_eq. eauto.
Qed.

Lemma record_loop_collapse t refs s seen :
  (∀ o, o ∈ seen → o ∈ get_dependencies (entry_of (task_dependencies_ s) t)) →
  foldl (record_get_dependency t) s refs
  = foldl (record_get_dependency t) s (collapse_duplicates seen refs).
Proof.
  revert s seen. induction refs as [|ref refs IH]; intros s seen Hseen; simpl; [done|].
  case_decide as Hin.
  - assert (record_get_dependency t s ref = s) as ->; [|by apply IH].
    unfold record_get_dependency. fold (entry_of (task_dependencies_ s) t).
    rewrite decide_True; [done|by apply Hseen].
  - simpl. apply IH. intros o Ho. apply record_get_dependency_grows. set_solver.
Qed.


Section CollapseFacts.
Context {object_manager_ : ObjectManagerInterface}.

Lemma HandleRemoteDependencyRequired_settled o s :
  settled s o → HandleRemoteDependencyRequired o s = Returns s.
Proof.
  unfold settled, HandleRemoteDependencyRequired. intros Hs.
  pose proof (CheckObjectRequired_fst s o (Some Address_default)) as Hfst.
  destruct (CheckObjectRequired s o (Some Address_default)) as [required cell].
  simpl in Hfst. subst required.
  destruct (objectIsRequired s o); [|done]. by rewrite decide_True by auto.
Qed.

Lemma HandleRemoteDependencyRequired_settles o s s' o' :
  HandleRemoteDependencyRequired o s = Returns s' →
  (o' = o ∨ settled s o') → settled s' o'.
Proof.
  intros [Hsame Hro]%HandleRemoteDependencyRequired_spec Ho'. unfold settled.
  rewrite (objectIsRequired_same_indices _ _ _ Hsame), Hro.
  destruct Ho' as [->|Hs].
  - intros ->. set_solver.
  - intros Hreq. specialize (Hs Hreq). destruct (objectIsRequired s o); set_solver.
Qed.

Lemma require_loop_collapse refs s seen :
  (∀ o, o ∈ seen → settled s o) →
  for_each HandleRemoteDependencyRequired (ref_object_id <$> refs) s
  = for_each HandleRemoteDependencyRequired
             (ref_object_id <$> collapse_duplicates seen refs) s.
Proof.
  revert s seen. induction refs as [|ref refs IH]; intros s seen Hseen; simpl; [done|].
  case_decide as Hin.
  - rewrite HandleRemoteDependencyRequired_settled by auto. simpl. by apply IH.
  - simpl. destruct (HandleRemoteDependencyRequired _ s) as [s1|] eqn:H1; [|done].
    simpl. apply IH. intros o Ho.
    apply (HandleRemoteDependencyRequired_settles _ _ _ _ H1).
    apply elem_of_union in Ho as [Ho%elem_of_singleton|Ho]; [by left|].
    right. by apply Hseen.
Qed.

Lemma SubscribeGetDependencies_collapse t refs s :
  SubscribeGetDependencies t refs s
  = SubscribeGetDependencies t (collapse_duplicates ∅ refs) s.
Proof.
  assert (∀ P : ObjectID → Prop, ∀ o, o ∈ (∅ : gset ObjectID) → P o) as Hnone.
  { intros P o Ho. exfalso. exact (not_elem_of_empty o Ho). }
  unfold SubscribeGetDependencies.
  set (s0 := with_task_dependencies _ s).
  rewrite <- (record_loop_collapse t refs s0 ∅) by apply Hnone.
  set (s1 := foldl (record_get_dependency t) s0 refs).
  rewrite !(for_each_fmap ref_object_id HandleRemoteDependencyRequired).
  rewrite <- (require_loop_collapse refs s1 ∅) by apply Hnone.
  done.
Qed.

Lemma SubscribeGetDependencies_counters t refs s b s' :
  SubscribeGetDependencies t refs s = Returns (b, s') →
  counters_exact s → counters_exact s'.
Proof.
  unfold SubscribeGetDependencies.
  destruct (for_each _ refs _) as [s2|] eqn:Hloop; [|done]. simpl.
  intros [= _ <-] Hc. rewrite for_each_fmap in Hloop.
  apply require_loop_spec in Hloop as [Hsame _].
  eapply counters_exact_same_indices; [done|].
  apply foldl_preserves; [intros; by apply record_get_dependency_counters|].
  intros t' e'. simpl. destruct (decide (t' = t)) as [->|Hne].
  - rewrite lookup_insert_eq. intros [= <-].
    destruct (task_dependencies_ s !! t) as [e|] eqn:He; simpl;
      [exact (Hc _ _ He)|].
    by rewrite difference_disjoint_L, size_empty by set_solver.
  - rewrite lookup_insert_ne by done. apply Hc.
Qed.

(** C4. [SubscribeGetDependencies] returns [true] exactly when the counter
    of the task is zero once the call is over; the task's entry then holds
    every object of the call, and when the counters of the state were exact
    the result says that every declared dependency is local.  Later
    occurrences of an object identifier in the references change nothing:
    the call behaves as the call on the references without them (same
    result, same state, same outgoing calls).  The call returns whenever the
    object manager accepts the pulls of its objects. *)
Theorem C4_SubscribeGetDependencies_result (task_id : TaskID)
    (refs : list ObjectReference) (s : TaskDependencyManager) :
  (∀ b s', SubscribeGetDependencies task_id refs s = Returns (b, s') →
     ∃ task_entry,
       task_dependencies_ s' !! task_id = Some task_entry ∧
       (b = true ↔ num_missing_get_dependencies task_entry = 0) ∧
       (∀ object, object ∈ refs →
          ref_object_id object ∈ get_dependencies task_entry) ∧
       (counters_exact s →
          (b = true ↔ get_dependencies task_entry ⊆ local_objects_ s'))) ∧
  SubscribeGetDependencies task_id refs s
  = SubscribeGetDependencies task_id (collapse_duplicates ∅ refs) s ∧
  ((∀ object, object ∈ refs → accepts_pulls_of (ref_object_id object)) →
   ∃ b s', SubscribeGetDependencies task_id refs s = Returns (b, s')).
Proof.
  split; [|split; [apply SubscribeGetDependencies_collapse|]]; cycle 1.
  { intros Hok. unfold SubscribeGetDependencies.
    match goal with
    | |- context [for_each ?f refs ?s1] =>
        destruct (require_loop_accepted (ref_object_id <$> refs) s1) as [s2 Hs2]
    end.
    { intros o (ref & -> & Href)%list_elem_of_fmap. by apply Hok. }
    rewrite (for_each_fmap ref_object_id HandleRemoteDependencyRequired), Hs2.
    simpl. eauto. }
  intros b s' Hcall.
  pose proof (SubscribeGetDependencies_counters _ _ _ _ _ Hcall) as Hcounters.
  revert Hcall. unfold SubscribeGetDependencies.
  set (s0 := with_task_dependencies _ s).
  destruct (for_each _ refs _) as [s2|] eqn:Hloop; [|done]. simpl.
  intros [= <- <-]. rewrite for_each_fmap in Hloop.
  apply require_loop_spec in Hloop as [(Hl & Htd & _) _].
  assert (is_Some (task_dependencies_ s2 !! task_id)) as [e He].
  { rewrite Htd. apply foldl_preserves.
    - intros. by apply record_get_dependency_subscribed.
    - subst s0. simpl. rewrite lookup_insert_eq. eauto. }
  exists e. rewrite He. simpl. split; [done|]. split; [|split].
  - apply bool_decide_eq_true.
  - intros ref Href.
    pose proof (proj1 (record_loop_grows task_id refs s0 (ref_object_id ref))) as Hg.
    rewrite <- Htd in Hg. unfold entry_of in Hg at 2. rewrite He in Hg. apply Hg.
    right. apply list_elem_of_fmap. eauto.
  - intros Hc. specialize (Hcounters Hc _ _ He). rewrite bool_decide_eq_true, Hcounters.
    split.
    + intros Hz o Ho. destruct (decide (o ∈ local_objects_ s2)) as [|Hn]; [done|].
      assert (size (get_dependencies e ∖ local_objects_ s2) = 0%nat) as Hsz by lia.
      apply size_empty_iff in Hsz. set_solver.
    + intros Hsub. replace (get_dependencies e ∖ local_objects_ s2) with (∅ : gset ObjectID)
        by set_solver.
      by rewrite size_empty.
Qed.

End CollapseFacts.

Lemma C4_SubscribeGetDependencies_result_witness :
  let refs := [mkObjectReference object_1 sample_owner;
               mkObjectReference object_2 sample_owner;
               mkObjectReference object_1 sample_stale_owner] in
  let s := @state_after accepting_object_manager [OpHandleObjectLocal object_2] in
  ∃ s' task_entry,
    @SubscribeGetDependencies accepting_object_manager task_1 refs s = Returns (false, s') ∧
    task_dependencies_ s' !! task_1 = Some task_entry ∧
    (false = true ↔ num_missing_get_dependencies task_entry = 0) ∧
    (false = true ↔ get_dependencies task_entry ⊆ local_objects_ s').
Proof.
  intros refs s.
  destruct (@C4_SubscribeGetDependencies_result accepting_object_manager task_1 refs s)
    as (Hresult & _ & _).
  destruct (@SubscribeGetDependencies accepting_object_manager task_1 refs s)
    as [[b s']|] eqn:Hcall; [|vm_compute in Hcall; discriminate Hcall].
  destruct (Hresult b s' eq_refl) as (task_entry & Hentry & Hzero & _ & Hlocal).
  assert (b = false) as -> by (vm_compute in Hcall; by injection Hcall as <- _).
  exists s', task_entry. split; [reflexivity|]. split; [exact Hentry|].
  split; [exact Hzero|]. apply Hlocal.
  intros t e He. vm_compute in He. discriminate He.
Defined.

(** ** Objects appearing and vanishing (C5, C3, C8) *)

Lemma incremented_decremented e : incremented (decremented e) = e.
Proof. destruct e as [g n]. unfold incremented, decremented. simpl. f_equal. lia. Qed.

Lemma decremented_incremented e : decremented (incremented e) = e.
Proof. destruct e as [g n]. unfold incremented, decremented. simpl. f_equal. lia. Qed.

Lemma dependent_tasks_of_cleared s s' o :
  find_entry (required_tasks_ s') o = cleared_entry (find_entry (required_tasks_ s) o) →
  dependent_tasks_of s' o = dependent_tasks_of s o.
Proof.
  unfold dependent_tasks_of. intros ->.
  destruct (find_entry (required_tasks_ s) o) as [d|]; simpl; [|done].
  destruct (Empty _) eqn:HE; [|done].
  destruct (proj1 (Empty_true _) HE) as [H1 _]. simpl in H1. by rewrite H1.
Qed.

Lemma dependent_workers_of_cleared s s' o :
  find_entry (required_tasks_ s') o = cleared_entry (find_entry (required_tasks_ s) o) →
  dependent_workers_of s' o = ∅.
Proof.
  unfold dependent_workers_of. intros ->.
  destruct (find_entry (required_tasks_ s) o) as [d|]; simpl; [|done].
  by destruct (Empty _).
Qed.

Section ObjectFacts.
Context {object_manager_ : ObjectManagerInterface}.

Lemma reachable_HandleObjectLocal o s ready s' :
  reachable s → HandleObjectLocal o s = Returns (ready, s') → reachable s'.
Proof.
  intros Hs Hcall. apply (reachable_perform s (OpHandleObjectLocal o)); [done|].
  simpl. by rewrite Hcall.
Qed.

Lemma reachable_HandleObjectMissing o s waiting s' :
  reachable s → HandleObjectMissing o s = Returns (waiting, s') → reachable s'.
Proof.
  intros Hs Hcall. apply (reachable_perform s (OpHandleObjectMissing o)); [done|].
  simpl. by rewrite Hcall.
Qed.

Lemma HandleObjectLocal_reachable_returns o s :
  reachable s → o ∉ local_objects_ s →
  ∃ ready s', HandleObjectLocal o s = Returns (ready, s').
Proof.
  intros [_ Hd _ _]%reachable_consistent Hlocal.
  apply HandleObjectLocal_returns; [done|].
  intros w (d & Hf & Hw)%elem_of_dependent_workers_of. by apply (Hd _ _ Hf).
Qed.

(** C5. In a reachable state where the object is not local,
    [HandleObjectLocal] returns; the tasks it returns are, each once, the
    dependent tasks of the object whose counter is zero after being
    decremented; every dependent task has its counter decremented by one;
    the record of the object is left without dependent workers and the
    object is gone from the wait-set of each of them. *)
Theorem C5_HandleObjectLocal_ready (s : TaskDependencyManager) (object_id : ObjectID) :
  reachable s → object_id ∉ local_objects_ s →
  ∃ ready s',
    HandleObjectLocal object_id s = Returns (ready, s') ∧
    NoDup ready ∧
    (∀ task_id, task_id ∈ ready ↔
       task_id ∈ dependent_tasks_of s object_id ∧ num_missing s' task_id = Some 0) ∧
    (∀ task_id, task_id ∈ dependent_tasks_of s object_id →
       ∃ n, num_missing s task_id = Some n ∧ num_missing s' task_id = Some (n - 1)) ∧
    dependent_workers_of s' object_id = ∅ ∧
    (∀ worker_id, worker_id ∈ dependent_workers_of s object_id →
       object_id ∉ wait_set s' worker_id).
Proof.
  intros Hreach Hlocal.
  destruct (HandleObjectLocal_reachable_returns _ _ Hreach Hlocal) as (ready & s' & Hcall).
  exists ready, s'. split; [done|].
  apply reachable_consistent in Hreach as [_ Hd _ _].
  apply HandleObjectLocal_spec in Hcall
    as (_ & _ & _ & _ & Htd & _ & Hwd & Hrt & -> & _).
  assert (∀ t, t ∈ dependent_tasks_of s object_id →
            ∃ e, task_dependencies_ s !! t = Some e
                 ∧ task_dependencies_ s' !! t = Some (decremented e)) as Hdec.
  { intros t Ht. rewrite Htd, decide_True by done.
    apply elem_of_dependent_tasks_of in Ht as (d & Hf & Ht).
    destruct (Hd _ _ Hf) as [Hdt _]. destruct (Hdt _ Ht) as (e & He & _).
    exists e. unfold entry_of. by rewrite He. }
  split; [apply NoDup_filter, NoDup_elements|]. split; [|split; [|split]].
  - intros t. rewrite list_elem_of_filter, elem_of_elements. unfold num_missing.
    split.
    + intros [Hz Ht]. split; [done|]. destruct (Hdec _ Ht) as (e & He & ->).
      unfold entry_of in Hz. rewrite He in Hz. simpl in *. by rewrite Hz.
    + intros [Ht Hz]. split; [|done]. destruct (Hdec _ Ht) as (e & He & He').
      rewrite He' in Hz. unfold entry_of. rewrite He. simpl in *. by injection Hz.
  - intros t Ht. destruct (Hdec _ Ht) as (e & He & He').
    exists (num_missing_get_dependencies e). unfold num_missing. by rewrite He, He'.
  - apply (dependent_workers_of_cleared s). specialize (Hrt object_id).
    by rewrite decide_True in Hrt.
  - intros w Hw. unfold wait_set. rewrite Hwd, decide_True by done. simpl.
    set_solver.
Qed.

Lemma HandleObjectLocal_Missing_inverse o s ready s1 waiting s2 :
  reachable s →
  HandleObjectLocal o s = Returns (ready, s1) →
  HandleObjectMissing o s1 = Returns (waiting, s2) →
  task_dependencies_ s2 = task_dependencies_ s.
Proof.
  intros [_ Hd _ _]%reachable_consistent
         (_ & _ & _ & _ & Htd1 & _ & _ & Hrt1 & _)%HandleObjectLocal_spec
         (_ & _ & _ & _ & _ & _ & Htd2 & _)%HandleObjectMissing_spec.
  apply map_eq. intros t. rewrite Htd2.
  rewrite (dependent_tasks_of_cleared s s1 o)
    by (specialize (Hrt1 o); by rewrite decide_True in Hrt1).
  unfold entry_of. rewrite !Htd1. case_decide as Ht; [|done]. simpl.
  apply elem_of_dependent_tasks_of in Ht as (d & Hf & Ht).
  destruct (Hd _ _ Hf) as [Hdt _]. destruct (Hdt _ Ht) as (e & He & _).
  fold (entry_of (task_dependencies_ s) t). unfold entry_of. rewrite He. simpl.
  by rewrite incremented_decremented.
Qed.

Lemma HandleObjectMissing_Local_inverse o s waiting s1 ready s2 :
  reachable s →
  HandleObjectMissing o s = Returns (waiting, s1) →
  HandleObjectLocal o s1 = Returns (ready, s2) →
  task_dependencies_ s2 = task_dependencies_ s.
Proof.
  intros [_ Hd _ _]%reachable_consistent
         (_ & _ & _ & _ & Hrt1 & _ & Htd1 & _)%HandleObjectMissing_spec
         (_ & _ & _ & _ & Htd2 & _)%HandleObjectLocal_spec.
  apply map_eq. intros t. rewrite Htd2.
  assert (dependent_tasks_of s1 o = dependent_tasks_of s o) as ->.
  { unfold dependent_tasks_of. by rewrite Hrt1. }
  unfold entry_of. rewrite !Htd1. case_decide as Ht; [|done]. simpl.
  apply elem_of_dependent_tasks_of in Ht as (d & Hf & Ht).
  destruct (Hd _ _ Hf) as [Hdt _]. destruct (Hdt _ Ht) as (e & He & _).
  fold (entry_of (task_dependencies_ s) t). unfold entry_of. rewrite He. simpl.
  by rewrite decremented_incremented.
Qed.

Lemma HandleObjectMissing_outcome o s :
  o ∈ local_objects_ s →
  ((∃ waiting s', HandleObjectMissing o s = Returns (waiting, s')) ∨
   HandleObjectMissing o s = Aborts (CheckFailed check_pull_ok)) ∧
  (accepts_pulls_of o → ∃ waiting s', HandleObjectMissing o s = Returns (waiting, s')).
Proof.
  intros Hin. unfold HandleObjectMissing. rewrite decide_True by done.
  destruct (match find_entry _ _ with Some _ => _ | None => _ end) as [waiting s1].
  split.
  - unfold HandleRemoteDependencyRequired.
    destruct (CheckObjectRequired s1 o (Some Address_default)) as [[] cell];
      [|simpl; eauto].
    case_decide; [simpl; eauto|]. simpl. destruct Pull_status; simpl; eauto.
  - intros Hok.
    destruct (HandleRemoteDependencyRequired_accepted o s1 Hok) as [s' ->].
    simpl. eauto.
Qed.

(** C3. In a reachable state, [HandleObjectLocal] of a non-local object
    returns; the [HandleObjectMissing] of the same object that follows either
    returns, leaving the subscribed tasks and their counters as they were
    before the pair, or aborts on the status of the pull it issues, and it
    returns whenever the object manager accepts the pulls of the object.
    For a local object, [HandleObjectMissing] either aborts on the status of
    its pull or returns, and then the [HandleObjectLocal] of the same object
    that follows returns and restores the subscribed tasks and their
    counters; the pair completes whenever the object manager accepts the
    pulls of the object. *)
Theorem C3_local_missing_inverse (s : TaskDependencyManager) (object_id : ObjectID) :
  reachable s →
  (object_id ∉ local_objects_ s →
     ∃ ready s1,
       HandleObjectLocal object_id s = Returns (ready, s1) ∧
       ((∃ waiting s2, HandleObjectMissing object_id s1 = Returns (waiting, s2) ∧
                       readiness s2 = readiness s) ∨
        HandleObjectMissing object_id s1 = Aborts (CheckFailed check_pull_ok)) ∧
       (accepts_pulls_of object_id →
          ∃ waiting s2, HandleObjectMissing object_id s1 = Returns (waiting, s2) ∧
                        readiness s2 = readiness s)) ∧
  (object_id ∈ local_objects_ s →
     ((∃ waiting s1 ready s2,
          HandleObjectMissing object_id s = Returns (waiting, s1) ∧
          HandleObjectLocal object_id s1 = Returns (ready, s2) ∧
          readiness s2 = readiness s) ∨
      HandleObjectMissing object_id s = Aborts (CheckFailed check_pull_ok)) ∧
     (accepts_pulls_of object_id →
        ∃ waiting s1 ready s2,
          HandleObjectMissing object_id s = Returns (waiting, s1) ∧
          HandleObjectLocal object_id s1 = Returns (ready, s2) ∧
          readiness s2 = readiness s)).
Proof.
  intros Hreach. split.
  - intros Hlocal.
    destruct (HandleObjectLocal_reachable_returns _ _ Hreach Hlocal)
      as (ready & s1 & Hcall).
    exists ready, s1. split; [done|].
    assert (∀ waiting s2, HandleObjectMissing object_id s1 = Returns (waiting, s2) →
                          readiness s2 = readiness s) as Hback.
    { intros waiting s2 Hcall2. unfold readiness.
      by rewrite (HandleObjectLocal_Missing_inverse _ _ _ _ _ _ Hreach Hcall Hcall2). }
    assert (object_id ∈ local_objects_ s1) as Hlocal1.
    { apply HandleObjectLocal_spec in Hcall as (_ & -> & _). set_solver. }
    destruct (HandleObjectMissing_outcome object_id s1 Hlocal1) as [Hout Hacc].
    split.
    + destruct Hout as [(waiting & s2 & Hcall2)|Habort]; [left|by right].
      exists waiting, s2. split; [done|]. by eapply Hback.
    + intros Hok. destruct (Hacc Hok) as (waiting & s2 & Hcall2).
      exists waiting, s2. split; [done|]. by eapply Hback.
  - intros Hlocal.
    assert (∀ waiting s1, HandleObjectMissing object_id s = Returns (waiting, s1) →
              ∃ ready s2, HandleObjectLocal object_id s1 = Returns (ready, s2) ∧
                          readiness s2 = readiness s) as Hback.
    { intros waiting s1 Hcall.
      pose proof (reachable_HandleObjectMissing _ _ _ _ Hreach Hcall) as Hreach1.
      destruct (HandleObjectLocal_reachable_returns object_id s1 Hreach1)
        as (ready & s2 & Hcall2).
      { apply HandleObjectMissing_spec in Hcall as (_ & -> & _). set_solver. }
      exists ready, s2. split; [done|]. unfold readiness.
      by rewrite (HandleObjectMissing_Local_inverse _ _ _ _ _ _ Hreach Hcall Hcall2). }
    destruct (HandleObjectMissing_outcome object_id s Hlocal) as [Hout Hacc].
    split.
    + destruct Hout as [(waiting & s1 & Hcall)|Habort]; [left|by right].
      destruct (Hback _ _ Hcall) as (ready & s2 & Hcall2 & Hsame).
      by exists waiting, s1, ready, s2.
    + intros Hok. destruct (Hacc Hok) as (waiting & s1 & Hcall).
      destruct (Hback _ _ Hcall) as (ready & s2 & Hcall2 & Hsame).
      by exists waiting, s1, ready, s2.
Qed.

End ObjectFacts.

Section StateAfterFacts.
Context {object_manager_ : ObjectManagerInterface}.

Lemma state_after_reachable ops :
  perform_all ops TaskDependencyManager_new = Returns (state_after ops) →
  reachable (state_after ops).
Proof. apply perform_all_reachable. constructor. Qed.

End StateAfterFacts.

Lemma C5_HandleObjectLocal_ready_witness :
  let s := @state_after accepting_object_manager
             [OpSubscribeGetDependencies task_1 [mkObjectReference object_1 sample_owner];
              OpSubscribeWaitDependencies worker_1
                [mkObjectReference object_1 sample_owner]] in
  ∃ ready s',
    HandleObjectLocal object_1 s = Returns (ready, s') ∧
    NoDup ready ∧
    (∀ task_id, task_id ∈ ready ↔
       task_id ∈ dependent_tasks_of s object_1 ∧ num_missing s' task_id = Some 0) ∧
    (∀ task_id, task_id ∈ dependent_tasks_of s object_1 →
       ∃ n, num_missing s task_id = Some n ∧ num_missing s' task_id = Some (n - 1)) ∧
    dependent_workers_of s' object_1 = ∅ ∧
    (∀ worker_id, worker_id ∈ dependent_workers_of s object_1 →
       object_1 ∉ wait_set s' worker_id).
Proof.
  intros s. apply (@C5_HandleObjectLocal_ready accepting_object_manager s object_1).
  - apply state_after_reachable. vm_compute. reflexivity.
  - vm_compute. intros H. discriminate H.
Defined.

Lemma C3_local_missing_inverse_witness :
  let ops := [OpSubscribeGetDependencies task_1 [mkObjectReference object_1 sample_owner];
              OpSubscribeGetDependencies task_2 [mkObjectReference object_1 sample_owner;
                                                 mkObjectReference object_2 sample_owner]] in
  let s := @state_after accepting_object_manager ops in
  let s_local := @state_after accepting_object_manager
                   (ops ++ [OpHandleObjectLocal object_1]) in
  num_missing s task_1 = Some 1 ∧ num_missing s_local task_1 = Some 0 ∧
  (∃ ready s1 waiting s2,
     HandleObjectLocal object_1 s = Returns (ready, s1) ∧
     @HandleObjectMissing accepting_object_manager object_1 s1 = Returns (waiting, s2) ∧
     readiness s2 = readiness s) ∧
  (∃ waiting s1 ready s2,
     @HandleObjectMissing accepting_object_manager object_1 s_local
     = Returns (waiting, s1) ∧
     HandleObjectLocal object_1 s1 = Returns (ready, s2) ∧
     readiness s2 = readiness s_local).
Proof.
  intros ops s s_local.
  assert (@accepts_pulls_of accepting_object_manager object_1) as Hok.
  { intros calls owner. reflexivity. }
  split; [vm_compute; reflexivity|]. split; [vm_compute; reflexivity|]. split.
  - destruct (@C3_local_missing_inverse accepting_object_manager s object_1)
      as [Hfirst _].
    { apply state_after_reachable. vm_compute. reflexivity. }
    destruct Hfirst as (ready & s1 & Hcall & _ & Hacc).
    { vm_compute. intros H. discriminate H. }
    destruct (Hacc Hok) as (waiting & s2 & Hcall2 & Hsame).
    exists ready, s1, waiting, s2. split; [exact Hcall|]. split; [exact Hcall2|exact Hsame].
  - destruct (@C3_local_missing_inverse accepting_object_manager s_local object_1)
      as [_ Hsecond].
    { apply state_after_reachable. vm_compute. reflexivity. }
    destruct Hsecond as [_ Hacc].
    { vm_compute. reflexivity. }
    exact (Hacc Hok).
Defined.

(** ** Pending tasks (C6) *)

Section PendingFacts.
Context {object_manager_ : ObjectManagerInterface}.

(** C6, for a task that is not pending yet.  In a reachable state, for a task that [TaskPending]
    tracks and that is not pending yet, [TaskPending] followed by
    [TaskCanceled] of its identifier, when the latter returns, leaves
    [required_objects_] with the contents it had before the pair. *)
Theorem C6_pending_canceled_restores (s : TaskDependencyManager) (task : Task) :
  reachable s →
  IsActorCreationTask task = true → OnDispatch task = None →
  TaskSpecification_TaskId task ∉ pending_tasks_ s →
  ∀ s', TaskCanceled (TaskSpecification_TaskId task) (TaskPending task s) = Returns s' →
        required_objects_ s' = required_objects_ s.
Proof.
  intros [Hk _ Hc Hr]%reachable_consistent Hactor Hdispatch Hnin s' Hcancel.
  assert (tracked task = true) as Htracked.
  { unfold tracked. by rewrite Hactor, bool_decide_eq_true_2. }
  set (T := TaskSpecification_TaskId task) in *.
  destruct (TaskPending_spec task s Htracked Hnin) as [Hsame1 Hro1].
  fold T in Hsame1, Hro1.
  destruct Hsame1 as (Hl1 & _ & _ & Hrt1 & Hp1). simpl in Hl1, Hrt1, Hp1.
  apply TaskCanceled_spec in Hcancel as [_ Hro2]; [|rewrite Hp1; set_solver].
  apply set_eq. intros o. rewrite Hro2, Hro1.
  assert (created_by (TaskPending task s) T = created_by s T) as ->.
  { unfold created_by. by rewrite Hrt1. }
  rewrite !objectIsRequired_true. simpl. rewrite Hl1, Hrt1, Hp1.
  clear Hro1 Hro2 Hl1 Hrt1 Hp1 Htracked. clearbody T.
  split.
  - intros [[Hin _]|[Hcr (Hs & Hl & Hp)]]; [exact Hin|].
    apply Hc, objectIsRequired_true. split; [exact Hs|]. split; [exact Hl|].
    clear -Hp Hnin. set_solver.
  - intros Hin. destruct (decide (o ∈ created_by s T)) as [Hcr|Hcr].
    + right. split; [exact Hcr|].
      pose proof (created_by_keyed _ _ _ Hk Hcr) as Hkey.
      split; [|split; [by apply Hr|]].
      * apply created_by_find. by rewrite Hkey.
      * rewrite Hkey. clear -Hnin. set_solver.
    + left. split; [exact Hin|]. by intros ?.
Qed.

End PendingFacts.

Lemma C6_pending_canceled_restores_witness :
  let s := @state_after accepting_object_manager
             [OpSubscribeGetDependencies task_1
                [mkObjectReference object_1 sample_owner]] in
  ∃ s', @TaskCanceled accepting_object_manager creator (TaskPending restarted_actor s)
        = Returns s' ∧
        required_objects_ s' = required_objects_ s.
Proof.
  intros s.
  destruct (@TaskCanceled accepting_object_manager creator (TaskPending restarted_actor s))
    as [s'|] eqn:Hcall; [|vm_compute in Hcall; discriminate Hcall].
  exists s'. split; [reflexivity|].
  apply (@C6_pending_canceled_restores accepting_object_manager s restarted_actor).
  - apply state_after_reachable. vm_compute. reflexivity.
  - reflexivity.
  - reflexivity.
  - vm_compute. intros H. discriminate H.
  - exact Hcall.
Defined.

(** C6 for a task that is already pending: the second [TaskPending] does
    nothing, and [TaskCanceled] then reopens the pull that the first one had
    closed. *)
Lemma C6_counterexample_already_pending :
  let s := @state_after accepting_object_manager
             [OpSubscribeGetDependencies task_1 [mkObjectReference object_1 sample_owner];
              OpTaskPending restarted_actor] in
  @perform_all accepting_object_manager
    [OpSubscribeGetDependencies task_1 [mkObjectReference object_1 sample_owner];
     OpTaskPending restarted_actor] TaskDependencyManager_new = Returns s ∧
  IsActorCreationTask restarted_actor = true ∧ OnDispatch restarted_actor = None ∧
  ∃ s', @TaskCanceled accepting_object_manager
          (TaskSpecification_TaskId restarted_actor) (TaskPending restarted_actor s)
        = Returns s' ∧
        required_objects_ s = ∅ ∧
        required_objects_ s' = {[object_1]} ∧
        required_objects_ s' ≠ required_objects_ s.
Proof.
  intros s. split; [vm_compute; reflexivity|]. split; [reflexivity|].
  split; [reflexivity|]. eexists. split; [vm_compute; reflexivity|].
  split; [vm_compute; reflexivity|]. split; [vm_compute; reflexivity|].
  vm_compute. intros H. discriminate H.
Qed.

(** ** The checks on the local registry (C8) *)

Section RegistryChecks.
Context {object_manager_ : ObjectManagerInterface}.

Lemma HandleRemoteDependencyRequired_outcome o s :
  (∃ s', HandleRemoteDependencyRequired o s = Returns s') ∨
  HandleRemoteDependencyRequired o s = Aborts (CheckFailed check_pull_ok).
Proof.
  unfold HandleRemoteDependencyRequired.
  destruct (CheckObjectRequired s o (Some Address_default)) as [[] cell]; [|eauto].
  case_decide; [eauto|]. simpl. destruct Pull_status; eauto.
Qed.

(** C8, with the status of the pull taken into account.  [HandleObjectLocal] of an object that is already local
    and [HandleObjectMissing] of an object that is not local abort on their
    check of the local registry.  Otherwise that check passes:
    [HandleObjectLocal] of a non-local object returns in every reachable
    state, and [HandleObjectMissing] of a local object returns unless the
    object manager refuses the pull it issues, in which case the check on the
    status of the pull aborts; it returns whenever the object manager accepts
    the pulls of this object. *)
Theorem C8_local_registry_checks (s : TaskDependencyManager) (object_id : ObjectID) :
  (object_id ∈ local_objects_ s →
     HandleObjectLocal object_id s = Aborts (CheckFailed check_local_inserted)) ∧
  (object_id ∉ local_objects_ s →
     HandleObjectMissing object_id s = Aborts (CheckFailed check_local_erased)) ∧
  (reachable s → object_id ∉ local_objects_ s →
     ∃ ready s', HandleObjectLocal object_id s = Returns (ready, s')) ∧
  (object_id ∈ local_objects_ s →
     (∃ waiting s', HandleObjectMissing object_id s = Returns (waiting, s')) ∨
     HandleObjectMissing object_id s = Aborts (CheckFailed check_pull_ok)) ∧
  (object_id ∈ local_objects_ s → accepts_pulls_of object_id →
     ∃ waiting s', HandleObjectMissing object_id s = Returns (waiting, s')).
Proof.
  split; [|split; [|split; [|split]]].
  - intros Hin. unfold HandleObjectLocal. by rewrite decide_True.
  - intros Hnin. unfold HandleObjectMissing. by rewrite decide_False.
  - apply HandleObjectLocal_reachable_returns.
  - intros Hin. unfold HandleObjectMissing. rewrite decide_True by done.
    destruct (match find_entry _ _ with Some _ => _ | None => _ end)
      as [waiting s1].
    destruct (HandleRemoteDependencyRequired_outcome object_id s1) as [[s' ->]| ->];
      simpl; eauto.
  - intros Hin Hok. unfold HandleObjectMissing. rewrite decide_True by done.
    destruct (match find_entry _ _ with Some _ => _ | None => _ end)
      as [waiting s1].
    destruct (HandleRemoteDependencyRequired_accepted object_id s1 Hok) as [s' ->].
    simpl. eauto.
Qed.

End RegistryChecks.

Lemma C8_local_registry_checks_witness :
  let s := @state_after accepting_object_manager
             [OpSubscribeGetDependencies task_1 [mkObjectReference object_1 sample_owner;
                                                 mkObjectReference object_2 sample_owner];
              OpHandleObjectLocal object_2] in
  HandleObjectLocal object_2 s = Aborts (CheckFailed check_local_inserted) ∧
  @HandleObjectMissing accepting_object_manager object_1 s
  = Aborts (CheckFailed check_local_erased) ∧
  (∃ ready s', HandleObjectLocal object_1 s = Returns (ready, s')) ∧
  (∃ waiting s',
     @HandleObjectMissing accepting_object_manager object_2 s = Returns (waiting, s')).
Proof.
  intros s.
  destruct (@C8_local_registry_checks accepting_object_manager s object_1)
    as (_ & Hmissing1 & Hlocal1 & _).
  destruct (@C8_local_registry_checks accepting_object_manager s object_2)
    as (Hlocal2 & _ & _ & _ & Hmissing2).
  split; [|split; [|split]].
  - apply Hlocal2. vm_compute. reflexivity.
  - apply Hmissing1. vm_compute. intros H. discriminate H.
  - apply Hlocal1.
    + apply state_after_reachable. vm_compute. reflexivity.
    + vm_compute. intros H. discriminate H.
  - apply Hmissing2.
    + vm_compute. reflexivity.
    + intros calls owner. reflexivity.
Defined.

(** C8 with an object manager that refuses the pull: [HandleObjectMissing]
    of a local object that a subscribed task depends on passes the check of
    the local registry and aborts on the status of the pull. *)
Lemma C8_counterexample_pull_refused :
  let s := @state_after refusing_object_manager
             [OpHandleObjectLocal object_1;
              OpSubscribeGetDependencies task_1
                [mkObjectReference object_1 sample_owner]] in
  @perform_all refusing_object_manager
    [OpHandleObjectLocal object_1;
     OpSubscribeGetDependencies task_1 [mkObjectReference object_1 sample_owner]]
    TaskDependencyManager_new = Returns s ∧
  object_1 ∈ local_objects_ s ∧
  @HandleObjectMissing refusing_object_manager object_1 s
  = Aborts (CheckFailed check_pull_ok).
Proof.
  intros s. split; [vm_compute; reflexivity|]. split; vm_compute; reflexivity.
Qed.

(** ** The invariants over sequences of operations (C1, C2) *)

Section SequenceFacts.
Context {object_manager_ : ObjectManagerInterface}.

Lemma contract_honoured_reachable ops s s' :
  reachable_honouring s → contract_honoured ops s →
  perform_all ops s = Returns s' → reachable_honouring s'.
Proof.
  unfold perform_all. revert s.
  induction ops as [|op ops IH]; intros s Hs; simpl.
  - by intros _ [= <-].
  - intros [Hop Hrest]. destruct (perform op s) as [s1|] eqn:Hperform; [|done].
    simpl. apply IH; [|done]. by econstructor.
Qed.

(** C1, for callers that honour the contract of the bulk removal.  Along every sequence of public operations started on a
    fresh manager in which each [RemoveTasksAndRelatedObjects] is called as
    its contract wants (every subscriber of an object in an outer entry it
    erases is one of the purged tasks), once the operations have returned an
    object is in [required_objects_] exactly when [objectIsRequired] holds
    for it. *)
Theorem C1_active_pulls_are_required (ops : list Operation) (s : TaskDependencyManager) :
  contract_honoured ops TaskDependencyManager_new →
  perform_all ops TaskDependencyManager_new = Returns s →
  ∀ object_id, object_id ∈ required_objects_ s ↔ objectIsRequired s object_id = true.
Proof.
  intros Hcontract Hops.
  apply (synced_pulls s), reachable_honouring_synced.
  eapply contract_honoured_reachable; [constructor|done..].
Qed.

(** C2, for callers that honour the contract of the bulk removal.  Along every such sequence, once the operations have
    returned the counter of every subscribed task is the number of its
    declared dependencies that are not in the local registry. *)
Theorem C2_counters_count_missing (ops : list Operation) (s : TaskDependencyManager) :
  contract_honoured ops TaskDependencyManager_new →
  perform_all ops TaskDependencyManager_new = Returns s →
  ∀ task_id task_entry,
    task_dependencies_ s !! task_id = Some task_entry →
    num_missing_get_dependencies task_entry
    = Z.of_nat (size (get_dependencies task_entry ∖ local_objects_ s)).
Proof.
  intros Hcontract Hops.
  apply (synced_counters s), reachable_honouring_synced.
  eapply contract_honoured_reachable; [constructor|done..].
Qed.

End SequenceFacts.


Lemma C1_active_pulls_are_required_witness :
  let s := @state_after accepting_object_manager sample_operations in
  (object_1 ∈ required_objects_ s ↔ objectIsRequired s object_1 = true) ∧
  (object_2 ∈ required_objects_ s ↔ objectIsRequired s object_2 = true).
Proof.
  intros s.
  assert (@contract_honoured accepting_object_manager sample_operations
            TaskDependencyManager_new) as Hcontract.
  { apply (bool_decide_eq_true_1
             (@contract_honoured accepting_object_manager sample_operations
                TaskDependencyManager_new)).
    vm_compute. reflexivity. }
  assert (@perform_all accepting_object_manager sample_operations
            TaskDependencyManager_new = Returns s) as Hops
    by (vm_compute; reflexivity).
  split.
  - exact (@C1_active_pulls_are_required accepting_object_manager sample_operations s
             Hcontract Hops object_1).
  - exact (@C1_active_pulls_are_required accepting_object_manager sample_operations s
             Hcontract Hops object_2).
Defined.

Lemma C2_counters_count_missing_witness :
  let s := @state_after accepting_object_manager sample_operations in
  let task_entry := mkTaskDependencies {[object_1; object_2]} 1 in
  task_dependencies_ s !! task_1 = Some task_entry ∧
  num_missing_get_dependencies task_entry
  = Z.of_nat (size (get_dependencies task_entry ∖ local_objects_ s)).
Proof.
  intros s task_entry.
  assert (task_dependencies_ s !! task_1 = Some task_entry) as Hentry
    by (vm_compute; reflexivity).
  split; [exact Hentry|].
  apply (@C2_counters_count_missing accepting_object_manager sample_operations s)
    with (task_id := task_1).
  - apply (bool_decide_eq_true_1
             (@contract_honoured accepting_object_manager sample_operations
                TaskDependencyManager_new)).
    vm_compute. reflexivity.
  - vm_compute. reflexivity.
  - exact Hentry.
Defined.


(** C1 without the contract: after [careless_operations], [object_2] is
    still in [required_objects_] although it is no longer required. *)
Lemma C1_counterexample_stale_pull :
  let s := @state_after accepting_object_manager careless_operations in
  @perform_all accepting_object_manager careless_operations TaskDependencyManager_new
  = Returns s ∧
  object_2 ∈ required_objects_ s ∧
  objectIsRequired s object_2 = false ∧
  ¬ (∀ object_id, object_id ∈ required_objects_ s ↔ objectIsRequired s object_id = true).
Proof.
  intros s.
  assert (object_2 ∈ required_objects_ s) as Hin by (vm_compute; reflexivity).
  assert (objectIsRequired s object_2 = false) as Hnot by (vm_compute; reflexivity).
  split; [vm_compute; reflexivity|]. split; [exact Hin|]. split; [exact Hnot|].
  intros Hall. apply Hall in Hin. rewrite Hnot in Hin. discriminate Hin.
Qed.

(** C2 without the contract: when [object_2] then becomes local, the
    counter of [task_2] is not decremented, and stays at one with no
    dependency missing. *)
Lemma C2_counterexample_stale_counter :
  let ops := careless_operations ++ [OpHandleObjectLocal object_2] in
  let s := @state_after accepting_object_manager ops in
  @perform_all accepting_object_manager ops TaskDependencyManager_new = Returns s ∧
  task_dependencies_ s !! task_2 = Some (mkTaskDependencies {[object_2]} 1) ∧
  object_2 ∈ local_objects_ s ∧
  ¬ (∀ task_id task_entry,
       task_dependencies_ s !! task_id = Some task_entry →
       num_missing_get_dependencies task_entry
       = Z.of_nat (size (get_dependencies task_entry ∖ local_objects_ s))).
Proof.
  intros ops s.
  assert (task_dependencies_ s !! task_2 = Some (mkTaskDependencies {[object_2]} 1))
    as Hentry by (vm_compute; reflexivity).
  split; [vm_compute; reflexivity|]. split; [exact Hentry|].
  split; [vm_compute; reflexivity|].
  intros Hall. specialize (Hall _ _ Hentry). vm_compute in Hall. discriminate Hall.
Qed.

(** * Further properties of the code *)

(** ** What holds after any sequence of operations *)

Section AlwaysFacts.
Context {object_manager_ : ObjectManagerInterface}.

(** X1. After any sequence of public operations, whatever the arguments of
    the bulk removal, every object that [CheckObjectRequired] reports as
    required is in [required_objects_], and no object of [required_objects_]
    is in [local_objects_]. *)
Theorem X1_required_are_pulled_and_remote (ops : list Operation)
    (s : TaskDependencyManager) :
  perform_all ops TaskDependencyManager_new = Returns s →
  (∀ object_id, objectIsRequired s object_id = true →
                object_id ∈ required_objects_ s) ∧
  required_objects_ s ## local_objects_ s.
Proof.
  intros Hops.
  destruct (reachable_consistent s) as [_ _ Hc Hr].
  { eapply perform_all_reachable; [constructor|done]. }
  split; [exact Hc|]. intros o Hin Hlocal. by apply (Hr o).
Qed.

(** X2. After any sequence of public operations, the objects recorded under
    an outer key of [required_tasks_] are created by the task of that key;
    every dependent task of a record is subscribed and has declared the
    object; every dependent worker of a record has the object in its
    wait-set. *)
Theorem X2_index_records_subscribers (ops : list Operation) (s : TaskDependencyManager) :
  perform_all ops TaskDependencyManager_new = Returns s →
  (∀ creating_task_id inner object_id,
     required_tasks_ s !! creating_task_id = Some inner →
     is_Some (inner !! object_id) → TaskId object_id = creating_task_id) ∧
  (∀ object_id task_id, task_id ∈ dependent_tasks_of s object_id →
     ∃ task_entry, task_dependencies_ s !! task_id = Some task_entry
                   ∧ object_id ∈ get_dependencies task_entry) ∧
  (∀ object_id worker_id, worker_id ∈ dependent_workers_of s object_id →
     ∃ worker_entry, worker_dependencies_ s !! worker_id = Some worker_entry
                     ∧ object_id ∈ worker_entry).
Proof.
  intros Hops.
  destruct (reachable_consistent s) as [Hk Hd _ _].
  { eapply perform_all_reachable; [constructor|done]. }
  split; [exact Hk|]. split.
  - intros o t (d & Hf & Ht)%elem_of_dependent_tasks_of. by apply (Hd _ _ Hf).
  - intros o w (d & Hf & Hw)%elem_of_dependent_workers_of.
    destruct (Hd _ _ Hf) as [_ Hdw]. specialize (Hdw _ Hw). unfold wait_set in Hdw.
    destruct (worker_dependencies_ s !! w) as [ws|]; [eauto|]. simpl in Hdw.
    by apply not_elem_of_empty in Hdw.
Qed.

(** X3. Along a sequence of public operations in which every bulk removal
    honours its contract, a record of the index always has a dependent task
    or a dependent worker, and a subscribed task is a dependent task of
    every object it has declared. *)
Theorem X3_records_are_in_use (ops : list Operation) (s : TaskDependencyManager) :
  contract_honoured ops TaskDependencyManager_new →
  perform_all ops TaskDependencyManager_new = Returns s →
  (∀ object_id d, find_entry (required_tasks_ s) object_id = Some d →
     dependent_tasks d ≠ ∅ ∨ dependent_workers d ≠ ∅) ∧
  (∀ task_id task_entry object_id,
     task_dependencies_ s !! task_id = Some task_entry →
     object_id ∈ get_dependencies task_entry →
     task_id ∈ dependent_tasks_of s object_id).
Proof.
  intros Hcontract Hops.
  destruct (reachable_honouring_synced s) as [Hi Hn _ _].
  { eapply contract_honoured_reachable; [constructor|done..]. }
  split; [|exact Hi]. intros o d Hf. specialize (Hn _ _ Hf).
  apply Empty_false in Hn.
  destruct (decide (dependent_tasks d = ∅)); [|by left].
  destruct (decide (dependent_workers d = ∅)); [|by right]. tauto.
Qed.

End AlwaysFacts.

Lemma X1_required_are_pulled_and_remote_witness :
  let s := @state_after accepting_object_manager careless_operations in
  (objectIsRequired s object_1 = true → object_1 ∈ required_objects_ s) ∧
  required_objects_ s ## local_objects_ s.
Proof.
  intros s.
  destruct (@X1_required_are_pulled_and_remote accepting_object_manager
              careless_operations s) as [Hcover Hremote].
  { vm_compute. reflexivity. }
  split; [apply Hcover|exact Hremote].
Defined.

Lemma X2_index_records_subscribers_witness :
  let s := @state_after accepting_object_manager
             (careless_operations
                ++ [OpSubscribeWaitDependencies worker_1
                      [mkObjectReference object_1 sample_owner]]) in
  ∃ worker_entry, worker_dependencies_ s !! worker_1 = Some worker_entry
                  ∧ object_1 ∈ worker_entry.
Proof.
  intros s.
  destruct (@X2_index_records_subscribers accepting_object_manager
              (careless_operations
                 ++ [OpSubscribeWaitDependencies worker_1
                       [mkObjectReference object_1 sample_owner]]) s)
    as (_ & _ & Hworkers).
  { vm_compute. reflexivity. }
  apply Hworkers. vm_compute. reflexivity.
Defined.

Lemma X3_records_are_in_use_witness :
  let s := @state_after accepting_object_manager sample_operations in
  task_1 ∈ dependent_tasks_of s object_2.
Proof.
  intros s.
  destruct (@X3_records_are_in_use accepting_object_manager sample_operations s)
    as [_ Hindexed].
  - apply (bool_decide_eq_true_1
             (@contract_honoured accepting_object_manager sample_operations
                TaskDependencyManager_new)).
    vm_compute. reflexivity.
  - vm_compute. reflexivity.
  - apply (Hindexed task_1 (mkTaskDependencies {[object_1; object_2]} 1)).
    + vm_compute. reflexivity.
    + vm_compute. reflexivity.
Defined.

(** ** Objects vanishing *)

Section VanishFacts.
Context {object_manager_ : ObjectManagerInterface}.

(** X4. In a state reached by public operations, a call of
    [HandleObjectMissing] that returns gives, each once, the dependent tasks
    of the object whose counter was zero; it adds one to the counter of every
    dependent task, leaves the other tasks, the wait-sets of the workers and
    the index as they were, and removes the object from the local
    registry. *)
Theorem X4_HandleObjectMissing_waiting (s : TaskDependencyManager)
    (object_id : ObjectID) (waiting : list TaskID) (s' : TaskDependencyManager) :
  reachable s →
  HandleObjectMissing object_id s = Returns (waiting, s') →
  NoDup waiting ∧
  (∀ task_id, task_id ∈ waiting ↔
     task_id ∈ dependent_tasks_of s object_id ∧ num_missing s task_id = Some 0) ∧
  (∀ task_id, task_id ∈ dependent_tasks_of s object_id →
     ∃ n, num_missing s task_id = Some n ∧ num_missing s' task_id = Some (n + 1)) ∧
  (∀ task_id, task_id ∉ dependent_tasks_of s object_id →
     task_dependencies_ s' !! task_id = task_dependencies_ s !! task_id) ∧
  worker_dependencies_ s' = worker_dependencies_ s ∧
  required_tasks_ s' = required_tasks_ s ∧
  local_objects_ s' = local_objects_ s ∖ {[object_id]}.
Proof.
  intros [_ Hd _ _]%reachable_consistent
         (_ & Hl & _ & Hwd & Hrt & _ & Htd & ->)%HandleObjectMissing_spec.
  assert (∀ t, t ∈ dependent_tasks_of s object_id →
            ∃ e, task_dependencies_ s !! t = Some e
                 ∧ task_dependencies_ s' !! t = Some (incremented e)) as Hinc.
  { intros t Ht. rewrite Htd, decide_True by done.
    apply elem_of_dependent_tasks_of in Ht as (d & Hf & Ht).
    destruct (Hd _ _ Hf) as [Hdt _]. destruct (Hdt _ Ht) as (e & He & _).
    exists e. unfold entry_of. by rewrite He. }
  split; [apply NoDup_filter, NoDup_elements|].
  split; [|split; [|split; [|done]]].
  - intros t. rewrite list_elem_of_filter, elem_of_elements. unfold num_missing.
    split.
    + intros [Hz Ht]. split; [done|]. destruct (Hinc _ Ht) as (e & He & _).
      unfold entry_of in Hz. rewrite He in Hz. rewrite He. simpl in *. by rewrite Hz.
    + intros [Ht Hz]. split; [|done]. destruct (Hinc _ Ht) as (e & He & _).
      rewrite He in Hz. unfold entry_of. rewrite He. simpl in *. by injection Hz.
  - intros t Ht. destruct (Hinc _ Ht) as (e & He & He').
    exists (num_missing_get_dependencies e). unfold num_missing. by rewrite He, He'.
  - intros t Ht. by rewrite Htd, decide_False.
Qed.

End VanishFacts.

Lemma X4_HandleObjectMissing_waiting_witness :
  let s := @state_after accepting_object_manager
             [OpSubscribeGetDependencies task_1 [mkObjectReference object_1 sample_owner];
              OpHandleObjectLocal object_1] in
  ∃ waiting s',
    @HandleObjectMissing accepting_object_manager object_1 s = Returns (waiting, s') ∧
    (task_1 ∈ waiting ↔
       task_1 ∈ dependent_tasks_of s object_1 ∧ num_missing s task_1 = Some 0) ∧
    local_objects_ s' = local_objects_ s ∖ {[object_1]}.
Proof.
  intros s.
  destruct (@HandleObjectMissing accepting_object_manager object_1 s)
    as [[waiting s']|] eqn:Hcall; [|vm_compute in Hcall; discriminate Hcall].
  exists waiting, s'. split; [reflexivity|].
  destruct (@X4_HandleObjectMissing_waiting accepting_object_manager s object_1
              waiting s') as (_ & Hwaiting & _ & _ & _ & _ & Hlocal).
  - apply state_after_reachable. vm_compute. reflexivity.
  - exact Hcall.
  - split; [apply Hwaiting|exact Hlocal].
Defined.

(** ** The two reconciliation primitives *)

Section ReconcileBehaviour.
Context {object_manager_ : ObjectManagerInterface}.

Lemma CheckObjectRequired_cell s o cell :
  CheckObjectRequired s o (Some cell)
  = (objectIsRequired s o,
     if objectIsRequired s o
     then owner_address <$> find_entry (required_tasks_ s) o
     else Some cell).
Proof.
  unfold objectIsRequired, CheckObjectRequired, find_entry.
  destruct (required_tasks_ s !! TaskId o) as [inner|]; simpl; [|done].
  destruct (inner !! o); simpl; [|done]. by repeat case_decide.
Qed.

(** X5. [HandleRemoteDependencyRequired] either changes nothing, or the
    object is required and not yet in [required_objects_]: it is then
    inserted and [Pull] and [ListenAndMaybeReconstruct] are called, once
    each, with the owner address cached in the record of the object.
    [HandleRemoteDependencyCanceled] either changes nothing, or the object is
    in [required_objects_] and not required: it is then removed and
    [CancelPull] and [Cancel] are called once each.  Calling either a second
    time changes nothing more. *)
Theorem X5_reconcile_once (object_id : ObjectID) (s : TaskDependencyManager) :
  (∀ s', HandleRemoteDependencyRequired object_id s = Returns s' →
     (s' = s ∨
      ∃ d, find_entry (required_tasks_ s) object_id = Some d ∧
           objectIsRequired s object_id = true ∧
           (object_id ∉ required_objects_ s) ∧
           s' = with_outgoing
                  (outgoing_ s ++ [Pull object_id (owner_address d);
                                   ListenAndMaybeReconstruct object_id (owner_address d)])
                  (with_required_objects ({[object_id]} ∪ required_objects_ s) s)) ∧
     HandleRemoteDependencyRequired object_id s' = Returns s') ∧
  (HandleRemoteDependencyCanceled object_id s = s ∨
   objectIsRequired s object_id = false ∧
   object_id ∈ required_objects_ s ∧
   HandleRemoteDependencyCanceled object_id s
   = with_required_objects (required_objects_ s ∖ {[object_id]})
       (with_outgoing (outgoing_ s ++ [CancelPull object_id; Cancel object_id]) s)) ∧
  HandleRemoteDependencyCanceled object_id (HandleRemoteDependencyCanceled object_id s)
  = HandleRemoteDependencyCanceled object_id s.
Proof.
  split; [|split].
  - intros s' Hcall. split.
    + revert Hcall. unfold HandleRemoteDependencyRequired.
      rewrite CheckObjectRequired_cell.
      destruct (objectIsRequired s object_id) eqn:Hreq; [|intros [= <-]; by left].
      case_decide as Hin; [intros [= <-]; by left|].
      apply objectIsRequired_true in Hreq as ([d Hd] & _). rewrite Hd. simpl.
      destruct Pull_status; [|done]. intros [= <-]. right. exists d. done.
    + apply HandleRemoteDependencyRequired_settled.
      apply (HandleRemoteDependencyRequired_settles _ _ _ _ Hcall). by left.
  - unfold HandleRemoteDependencyCanceled. rewrite CheckObjectRequired_fst.
    destruct (objectIsRequired s object_id); [by left|].
    case_decide; [by right|by left].
  - destruct (HandleRemoteDependencyCanceled_spec object_id s) as [Hsame Hro].
    set (s1 := HandleRemoteDependencyCanceled object_id s) in *.
    unfold HandleRemoteDependencyCanceled at 1. rewrite CheckObjectRequired_fst.
    rewrite (objectIsRequired_same_indices _ _ _ Hsame).
    destruct (objectIsRequired s object_id) eqn:Hreq; [done|].
    rewrite decide_False; [done|]. rewrite Hro. clearbody s1. set_solver.
Qed.

End ReconcileBehaviour.

Lemma X5_reconcile_once_witness :
  let s := with_local_objects ∅
             (@state_after accepting_object_manager
                [OpHandleObjectLocal object_1;
                 OpSubscribeGetDependencies task_1
                   [mkObjectReference object_1 sample_owner]]) in
  ∃ s', @HandleRemoteDependencyRequired accepting_object_manager object_1 s = Returns s' ∧
        outgoing_ s' = [Pull object_1 sample_owner;
                        ListenAndMaybeReconstruct object_1 sample_owner] ∧
        @HandleRemoteDependencyRequired accepting_object_manager object_1 s' = Returns s'.
Proof.
  intros s.
  destruct (@HandleRemoteDependencyRequired accepting_object_manager object_1 s)
    as [s'|] eqn:Hcall; [|vm_compute in Hcall; discriminate Hcall].
  exists s'. split; [reflexivity|].
  destruct (@X5_reconcile_once accepting_object_manager object_1 s) as [Hrequired _].
  destruct (Hrequired s' Hcall) as [_ Hagain].
  split; [|exact Hagain].
  vm_compute in Hcall. injection Hcall as <-. reflexivity.
Defined.

(** ** Pending tasks *)

Section PendingBehaviour.
Context {object_manager_ : ObjectManagerInterface}.

(** X6. [TaskPending] ignores a task that is not an actor creation task or
    that has a dispatch callback; for any task, a second [TaskPending]
    changes nothing more, and after it the identifier of a tracked task is
    pending.  After a [TaskCanceled] that returns, the task is not pending
    and a second [TaskCanceled] changes nothing. *)
Theorem X6_pending_and_canceled_repeat (task : Task) (s : TaskDependencyManager) :
  (IsActorCreationTask task = false ∨ OnDispatch task ≠ None →
     TaskPending task s = s) ∧
  (IsActorCreationTask task = true → OnDispatch task = None →
     TaskSpecification_TaskId task ∈ pending_tasks_ (TaskPending task s)) ∧
  TaskPending task (TaskPending task s) = TaskPending task s ∧
  (∀ task_id s', TaskCanceled task_id s = Returns s' →
     (task_id ∉ pending_tasks_ s') ∧ TaskCanceled task_id s' = Returns s').
Proof.
  assert (tracked task = true →
          TaskSpecification_TaskId task ∈ pending_tasks_ (TaskPending task s))
    as Hpending.
  { intros Htracked.
    destruct (decide (TaskSpecification_TaskId task ∈ pending_tasks_ s)) as [Hin|Hnin].
    - by rewrite TaskPending_pending.
    - destruct (TaskPending_spec task s Htracked Hnin) as [(_ & _ & _ & _ & ->) _].
      simpl. set_solver. }
  split; [|split; [|split]].
  - intros Hignored. apply TaskPending_untracked. unfold tracked.
    destruct Hignored as [->|Hdispatch]; [done|].
    rewrite bool_decide_eq_false_2 by done. apply andb_false_r.
  - intros Hactor Hdispatch. apply Hpending. unfold tracked.
    by rewrite Hactor, bool_decide_eq_true_2.
  - destruct (tracked task) eqn:Htracked.
    + by apply TaskPending_pending, Hpending.
    + by rewrite !TaskPending_untracked.
  - intros t s' Hcall.
    assert (t ∉ pending_tasks_ s') as Hnot.
    { destruct (decide (t ∈ pending_tasks_ s)) as [Hin|Hnin].
      - apply TaskCanceled_spec in Hcall as [(_ & _ & _ & _ & ->) _]; [|done].
        simpl. set_solver.
      - rewrite TaskCanceled_not_pending in Hcall by done. by injection Hcall as <-. }
    split; [done|]. by apply TaskCanceled_not_pending.
Qed.

End PendingBehaviour.

Lemma X6_pending_and_canceled_repeat_witness :
  let s := @state_after accepting_object_manager
             [OpSubscribeGetDependencies task_1
                [mkObjectReference object_1 sample_owner]] in
  TaskPending (mkTask true creator (Some (dispatch_callback 1%N))) s = s ∧
  creator ∈ pending_tasks_ (TaskPending restarted_actor s).
Proof.
  intros s. split.
  - destruct (@X6_pending_and_canceled_repeat accepting_object_manager
                (mkTask true creator (Some (dispatch_callback 1%N))) s)
      as (Hignored & _).
    apply Hignored. right. intros H. discriminate H.
  - destruct (@X6_pending_and_canceled_repeat accepting_object_manager
                restarted_actor s) as (_ & Hpending & _).
    apply Hpending; reflexivity.
Defined.

(** ** Bulk removal *)

(** X7. When [RemoveTasksAndRelatedObjects] returns, the purged tasks are
    neither subscribed nor pending nor outer keys of [required_tasks_], the
    other tasks keep their entries, the objects the purged tasks had
    declared have no record left and are out of [required_objects_], which
    loses nothing else, and the local registry and the wait-sets are
    untouched.  With no task to purge the call changes nothing. *)
Theorem X7_RemoveTasksAndRelatedObjects_effect (task_ids : gset TaskID)
    (s s' : TaskDependencyManager) :
  RemoveTasksAndRelatedObjects task_ids s = Returns s' →
  (∀ task_id, task_id ∈ task_ids →
     task_dependencies_ s' !! task_id = None ∧
     (task_id ∉ pending_tasks_ s') ∧
     required_tasks_ s' !! task_id = None) ∧
  (∀ task_id, task_id ∉ task_ids →
     task_dependencies_ s' !! task_id = task_dependencies_ s !! task_id ∧
     (task_id ∈ pending_tasks_ s' ↔ task_id ∈ pending_tasks_ s)) ∧
  (∀ task_id task_entry object_id,
     task_id ∈ task_ids → task_dependencies_ s !! task_id = Some task_entry →
     object_id ∈ get_dependencies task_entry →
     find_entry (required_tasks_ s') object_id = None ∧
     object_id ∉ required_objects_ s') ∧
  required_objects_ s' = required_objects_ s ∖ collected_objects task_ids s ∧
  local_objects_ s' = local_objects_ s ∧
  worker_dependencies_ s' = worker_dependencies_ s ∧
  (task_ids = ∅ → s' = s).
Proof.
  intros Hcall.
  pose proof (RemoveTasksAndRelatedObjects_spec _ _ _ Hcall)
    as (Hl & Hwd & Htd & Hp & Hrt & Hro & Hchk).
  split; [|split; [|split; [|split; [done|split; [done|split; [done|]]]]]].
  - intros t Ht. rewrite Htd, decide_True by done. rewrite Hp.
    split; [done|]. split; [set_solver|by apply Hchk].
  - intros t Ht. rewrite Htd, decide_False by done. rewrite Hp. set_solver.
  - intros t e o Ht He Ho.
    assert (o ∈ collected_objects task_ids s) as HC.
    { apply collected_objects_spec. eauto. }
    split; [|rewrite Hro; set_solver].
    unfold find_entry. rewrite Hrt. rewrite decide_True; [done|eauto].
  - intros ->. revert Hcall. unfold RemoveTasksAndRelatedObjects.
    rewrite elements_empty. simpl. rewrite elements_empty. simpl.
    intros [= <-]. by destruct s.
Qed.

Lemma X7_RemoveTasksAndRelatedObjects_effect_witness :
  let s := @state_after accepting_object_manager
             [OpSubscribeGetDependencies task_1 [mkObjectReference object_1 sample_owner];
              OpSubscribeGetDependencies task_2
                [mkObjectReference object_1 sample_owner]] in
  ∃ s', RemoveTasksAndRelatedObjects {[task_1; task_2]} s = Returns s' ∧
        task_dependencies_ s' !! task_1 = None ∧
        find_entry (required_tasks_ s') object_1 = None ∧
        required_objects_ s' = required_objects_ s ∖ collected_objects {[task_1; task_2]} s.
Proof.
  intros s.
  destruct (RemoveTasksAndRelatedObjects {[task_1; task_2]} s)
    as [s'|] eqn:Hcall; [|vm_compute in Hcall; discriminate Hcall].
  exists s'. split; [reflexivity|].
  destruct (X7_RemoveTasksAndRelatedObjects_effect _ _ _ Hcall)
    as (Hpurged & _ & Hobjects & Hpulls & _).
  split; [apply Hpurged; vm_compute; reflexivity|]. split; [|exact Hpulls].
  apply (Hobjects task_1 (mkTaskDependencies {[object_1]} 1) object_1);
    vm_compute; reflexivity.
Defined.

(** ** The projections *)

(** X8. [CheckObjectRequired] answers [true] exactly when the object has a
    record in the index, is not local, and its creating task is not pending;
    the answer does not depend on the output pointer.  With a null pointer
    nothing is written; with a cell, the cell is left alone when the answer
    is [false] and otherwise receives the cached owner address, the one
    [GetOwnerAddress] writes. *)
Theorem X8_CheckObjectRequired_owner (s : TaskDependencyManager) (object_id : ObjectID)
    (cell : Address) :
  ((CheckObjectRequired s object_id (Some cell)).1 = true ↔
     is_Some (find_entry (required_tasks_ s) object_id)
     ∧ (object_id ∉ local_objects_ s) ∧ (TaskId object_id ∉ pending_tasks_ s)) ∧
  CheckObjectRequired s object_id None
  = ((CheckObjectRequired s object_id (Some cell)).1, None) ∧
  ((CheckObjectRequired s object_id (Some cell)).1 = false →
     (CheckObjectRequired s object_id (Some cell)).2 = Some cell) ∧
  ((CheckObjectRequired s object_id (Some cell)).1 = true →
     (CheckObjectRequired s object_id (Some cell)).2
     = Some (GetOwnerAddress s object_id cell).2).
Proof.
  rewrite CheckObjectRequired_cell. simpl. split; [apply objectIsRequired_true|].
  split; [|split].
  - pose proof (CheckObjectRequired_fst s object_id None) as Hfst.
    unfold objectIsRequired in *. destruct (CheckObjectRequired s object_id None) as [b c]
      eqn:Hcheck. f_equal. revert Hcheck. unfold CheckObjectRequired.
    repeat case_match; by intros [= _ <-].
  - by intros ->.
  - intros Hreq. rewrite Hreq.
    apply objectIsRequired_true in Hreq as ([d Hd] & _). rewrite Hd. simpl.
    unfold GetOwnerAddress. apply find_entry_Some in Hd as (inner & -> & ->). done.
Qed.

Lemma X8_CheckObjectRequired_owner_witness :
  let s := @state_after accepting_object_manager
             [OpSubscribeGetDependencies task_1
                [mkObjectReference object_1 sample_owner]] in
  (CheckObjectRequired s object_1 (Some Address_default)).2 = Some sample_owner ∧
  (CheckObjectRequired s object_2 (Some Address_default)).2 = Some Address_default.
Proof.
  intros s.
  destruct (X8_CheckObjectRequired_owner s object_1 Address_default)
    as (_ & _ & _ & Hwritten).
  destruct (X8_CheckObjectRequired_owner s object_2 Address_default)
    as (_ & _ & Hkept & _).
  split.
  - rewrite Hwritten; [|vm_compute; reflexivity]. vm_compute. reflexivity.
  - apply Hkept. vm_compute. reflexivity.
Defined.

Section RegistryFrame.
Context {object_manager_ : ObjectManagerInterface}.

Lemma perform_local_objects op s s' :
  perform op s = Returns s' →
  local_objects_ s'
  = match op with
    | OpHandleObjectLocal o => {[o]} ∪ local_objects_ s
    | OpHandleObjectMissing o => local_objects_ s ∖ {[o]}
    | _ => local_objects_ s
    end.
Proof.
  destruct op as [t refs|w refs|t|w|o|o|task|t|ids]; simpl.
  - unfold SubscribeGetDependencies.
    destruct (for_each _ _ _) as [s2|] eqn:Hloop; [|done]. simpl. intros [= <-].
    rewrite for_each_fmap in Hloop.
    apply require_loop_spec in Hloop as [(-> & _) _].
    by destruct (record_get_dependency_grow t
                   (with_task_dependencies
                      (<[t := default TaskDependencies_new (task_dependencies_ s !! t)]>
                         (task_dependencies_ s)) s) refs) as (-> & _).
  - unfold SubscribeWaitDependencies. intros Hloop.
    rewrite for_each_fmap in Hloop.
    apply require_loop_spec in Hloop as [(-> & _) _].
    by destruct (record_wait_dependency_grow w
                   (with_worker_dependencies
                      (<[w := default ∅ (worker_dependencies_ s !! w)]>
                         (worker_dependencies_ s)) s) refs) as (-> & _).
  - unfold UnsubscribeGetDependencies.
    destruct (task_dependencies_ s !! t) as [e|]; [|by intros [= <-]].
    simpl. destruct (for_each _ _ _) as [rt'|]; [|done]. simpl. intros [= <-].
    match goal with
    | |- context [foldl _ ?s1 ?l] => by destruct (cancel_loop_spec l s1) as [(-> & _) _]
    end.
  - unfold UnsubscribeWaitDependencies.
    destruct (worker_dependencies_ s !! w) as [ws|]; [|by intros [= <-]].
    simpl. destruct (for_each _ _ _) as [rt'|]; [|done]. simpl. intros [= <-].
    match goal with
    | |- context [foldl _ ?s1 ?l] => by destruct (cancel_loop_spec l s1) as [(-> & _) _]
    end.
  - destruct (HandleObjectLocal _ _) as [[r s1]|] eqn:Hop; [|done].
    simpl. intros [= <-]. by apply HandleObjectLocal_spec in Hop as (_ & -> & _).
  - destruct (HandleObjectMissing _ _) as [[r s1]|] eqn:Hop; [|done].
    simpl. intros [= <-]. by apply HandleObjectMissing_spec in Hop as (_ & -> & _).
  - intros [= <-]. destruct (tracked task) eqn:Htracked;
      [|by rewrite TaskPending_untracked].
    destruct (decide (TaskSpecification_TaskId task ∈ pending_tasks_ s)) as [Hin|Hnin];
      [by rewrite TaskPending_pending|].
    by destruct (TaskPending_spec task s Htracked Hnin) as [(-> & _) _].
  - intros Hcall. destruct (decide (t ∈ pending_tasks_ s)) as [Hin|Hnin].
    + by apply TaskCanceled_spec in Hcall as [(-> & _) _].
    + rewrite TaskCanceled_not_pending in Hcall by done. by injection Hcall as <-.
  - by intros (-> & _)%RemoveTasksAndRelatedObjects_spec.
Qed.

(** X9. The local registry changes only through [HandleObjectLocal] and
    [HandleObjectMissing]: after a public operation that returns,
    [CheckObjectLocal] answers [true] for the object of a
    [HandleObjectLocal], [false] for the object of a [HandleObjectMissing],
    and what it answered before for every other object and after every other
    operation. *)
Theorem X9_CheckObjectLocal_after (op : Operation) (s s' : TaskDependencyManager)
    (object_id : ObjectID) :
  perform op s = Returns s' →
  CheckObjectLocal s' object_id
  = match op with
    | OpHandleObjectLocal o =>
        if decide (object_id = o) then true else CheckObjectLocal s object_id
    | OpHandleObjectMissing o =>
        if decide (object_id = o) then false else CheckObjectLocal s object_id
    | _ => CheckObjectLocal s object_id
    end.
Proof.
  intros Hop. unfold CheckObjectLocal. rewrite (perform_local_objects _ _ _ Hop).
  destruct op; try done.
  - case_decide as Heq.
    + subst. apply bool_decide_eq_true_2. set_solver.
    + apply bool_decide_ext. set_solver.
  - case_decide as Heq.
    + subst. apply bool_decide_eq_false_2. set_solver.
    + apply bool_decide_ext. set_solver.
Qed.

End RegistryFrame.

Lemma X9_CheckObjectLocal_after_witness :
  let s := @state_after accepting_object_manager
             [OpSubscribeGetDependencies task_1
                [mkObjectReference object_1 sample_owner]] in
  CheckObjectLocal
    (@state_after accepting_object_manager
       [OpSubscribeGetDependencies task_1 [mkObjectReference object_1 sample_owner];
        OpHandleObjectLocal object_1]) object_1 = true.
Proof.
  intros s.
  apply (@X9_CheckObjectLocal_after accepting_object_manager
           (OpHandleObjectLocal object_1) s _ object_1).
  vm_compute. reflexivity.
Defined.

(** ** The outgoing calls *)

Lemma logged_ext s s' :
  required_objects_ s' = required_objects_ s → outgoing_ s' = outgoing_ s →
  logged s → logged s'.
Proof. unfold logged. by intros -> ->. Qed.

Lemma logged_canceled o s : logged s → logged (HandleRemoteDependencyCanceled o s).
Proof.
  unfold logged, HandleRemoteDependencyCanceled. intros Hs.
  destruct (CheckObjectRequired s o None).1; [done|].
  case_decide as Hin; [|done]. simpl. unfold replay in *.
  rewrite foldl_app, Hs. simpl. rewrite decide_True by done. simpl.
  by rewrite decide_True.
Qed.

Lemma logged_cancel_loop l s :
  logged s → logged (foldl (λ s o, HandleRemoteDependencyCanceled o s) s l).
Proof. apply foldl_preserves. intros. by apply logged_canceled. Qed.

Section LoggedFacts.
Context {object_manager_ : ObjectManagerInterface}.

Lemma logged_required o s s' :
  HandleRemoteDependencyRequired o s = Returns s' → logged s → logged s'.
Proof.
  unfold logged, HandleRemoteDependencyRequired.
  destruct (CheckObjectRequired s o (Some Address_default)) as [[] cell];
    [|by intros [= <-]].
  case_decide as Hin; [by intros [= <-]|]. simpl.
  destruct Pull_status; [|done]. intros [= <-] Hs. simpl. unfold replay in *.
  rewrite foldl_app, Hs. simpl. rewrite decide_False by done. simpl.
  by rewrite decide_True.
Qed.

Lemma logged_require_loop l s s' :
  for_each HandleRemoteDependencyRequired l s = Returns s' → logged s → logged s'.
Proof.
  intros Hloop Hs. revert Hloop. apply for_each_preserves; [|done].
  intros s1 s2 x _ H1 H2. by eapply logged_required.
Qed.

Lemma perform_logged op s s' : perform op s = Returns s' → logged s → logged s'.
Proof.
  destruct op as [t refs|w refs|t|w|o|o|task|t|ids]; simpl.
  - unfold SubscribeGetDependencies.
    destruct (for_each _ _ _) as [s2|] eqn:Hloop; [|done]. simpl.
    intros [= <-] Hs. rewrite for_each_fmap in Hloop.
    apply (logged_require_loop _ _ _ Hloop).
    apply foldl_preserves; [|exact Hs].
    intros s1 ref _. destruct (record_get_dependency_frame t s1 ref)
      as (_ & _ & Hro & _ & Hout). by apply logged_ext.
  - unfold SubscribeWaitDependencies. intros Hloop Hs.
    rewrite for_each_fmap in Hloop.
    apply (logged_require_loop _ _ _ Hloop).
    apply foldl_preserves; [|exact Hs].
    intros s1 ref _. destruct (record_wait_dependency_frame w s1 ref)
      as (_ & _ & Hro & _ & Hout). by apply logged_ext.
  - unfold UnsubscribeGetDependencies.
    destruct (task_dependencies_ s !! t) as [e|]; [|by intros [= <-]].
    simpl. destruct (for_each _ _ _) as [rt'|]; [|done]. simpl.
    intros [= <-] Hs. by apply logged_cancel_loop.
  - unfold UnsubscribeWaitDependencies.
    destruct (worker_dependencies_ s !! w) as [ws|]; [|by intros [= <-]].
    simpl. destruct (for_each _ _ _) as [rt'|]; [|done]. simpl.
    intros [= <-] Hs. by apply logged_cancel_loop.
  - unfold HandleObjectLocal. case_decide; [done|]. simpl.
    destruct (find_entry (required_tasks_ s) o) as [d|]; simpl.
    + destruct (foldl mark_dependency_local _ _) as [ready td1].
      destruct (for_each _ _ _) as [wd1|]; [|done]. simpl.
      intros [= <-] Hs. by apply logged_canceled.
    + intros [= <-] Hs. by apply logged_canceled.
  - unfold HandleObjectMissing. case_decide; [|done].
    destruct (match find_entry _ _ with Some _ => _ | None => _ end)
      as [waiting s1] eqn:Hmatch.
    destruct (HandleRemoteDependencyRequired o s1) as [s2|] eqn:Hreq; [|done].
    simpl. intros [= <-] Hs. apply (logged_required _ _ _ Hreq).
    revert Hmatch. simpl. destruct (find_entry (required_tasks_ s) o) as [d|].
    + destruct (foldl mark_dependency_missing _ _) as [waiting1 td1].
      by intros [= _ <-].
    + by intros [= _ <-].
  - intros [= <-] Hs. unfold TaskPending. destruct (_ && _); [|done].
    case_decide; [done|]. simpl.
    destruct (required_tasks_ s !! TaskSpecification_TaskId task); [|done].
    by apply logged_cancel_loop.
  - unfold TaskCanceled. case_decide; [|by intros [= <-]]. simpl.
    destruct (required_tasks_ s !! t); [|by intros [= <-]].
    intros Hloop Hs. apply (logged_require_loop _ _ _ Hloop). exact Hs.
  - unfold RemoveTasksAndRelatedObjects.
    pose proof (collect_loop_spec (elements ids) ∅ s (NoDup_elements _)) as Hcollect.
    destruct (foldl collect_and_forget _ _) as [C s1]. simpl in Hcollect.
    destruct Hcollect as (_ & _ & _ & _ & _ & _ & Hro & Hout).
    intros [-> _]%check_loop_spec Hs.
    apply foldl_preserves; [|by apply (logged_ext s)].
    intros s2 x _ H2. unfold cancel_created_by. by apply logged_canceled.
Qed.

(** X10. After any sequence of public operations, the calls received by
    the object manager and the reconstruction policy are well paired: every
    [Pull] is of an object that has no open pull and is followed by
    [ListenAndMaybeReconstruct] of the same object with the same address,
    every [CancelPull] is of an object that has an open pull and is followed
    by [Cancel] of the same object, and the objects left with an open pull
    are those of [required_objects_]. *)
Theorem X10_outgoing_calls_paired (ops : list Operation) (s : TaskDependencyManager) :
  perform_all ops TaskDependencyManager_new = Returns s →
  replay (outgoing_ s) = Some (required_objects_ s, None).
Proof.
  intros Hops. change (logged s). revert Hops. unfold perform_all.
  apply for_each_preserves; [|done].
  intros s1 s2 op _ H1 Hop. by eapply perform_logged.
Qed.

End LoggedFacts.

Lemma X10_outgoing_calls_paired_witness :
  let ops := sample_operations ++ [OpHandleObjectLocal object_1] in
  let s := @state_after accepting_object_manager ops in
  replay (outgoing_ s) = Some (required_objects_ s, None) ∧
  outgoing_ s = [Pull object_1 sample_owner;
                 ListenAndMaybeReconstruct object_1 sample_owner;
                 Pull object_2 sample_owner;
                 ListenAndMaybeReconstruct object_2 sample_owner;
                 CancelPull object_2; Cancel object_2;
                 CancelPull object_1; Cancel object_1;
                 Pull object_1 sample_owner;
                 ListenAndMaybeReconstruct object_1 sample_owner;
                 CancelPull object_1; Cancel object_1].
Proof.
  intros ops s. split.
  - apply (@X10_outgoing_calls_paired accepting_object_manager ops s).
    vm_compute. reflexivity.
  - vm_compute. reflexivity.
Defined.

(** ** Unsubscribing a subscribed task *)

Lemma remove_loop_returns f l rt :
  NoDup l →
  (∀ o, o ∈ l → ∃ d, find_entry rt o = Some d ∧ is_Some (f d)) →
  ∃ rt', for_each (remove_dependent f) l rt = Returns rt'.
Proof.
  revert rt. induction l as [|x l IH]; intros rt Hnd Hall; simpl; [eauto|].
  apply NoDup_cons in Hnd as [Hx Hnd].
  destruct (Hall x) as (d & Hd & [d1 Hd1]); [left|].
  assert (∃ rt1, remove_dependent f x rt = Returns rt1) as [rt1 H1].
  { unfold remove_dependent. apply find_entry_Some in Hd as (inner & -> & ->).
    rewrite Hd1. destruct (Empty d1); eauto. }
  rewrite H1. simpl. apply IH; [done|]. intros o Ho.
  destruct (remove_dependent_find _ _ _ _ o H1) as (d' & d1' & _ & _ & Hfind).
  rewrite Hfind, decide_False by (by intros ->). apply Hall. by right.
Qed.

Section UnsubscribeFacts.
Context {object_manager_ : ObjectManagerInterface}.

Lemma UnsubscribeGetDependencies_entries (s : TaskDependencyManager)
    (task_id : TaskID) (task_entry : TaskDependencies) :
  reachable_honouring s →
  task_dependencies_ s !! task_id = Some task_entry →
  ∃ s', UnsubscribeGetDependencies task_id s = Returns (true, s') ∧
        task_dependencies_ s' = delete task_id (task_dependencies_ s) ∧
        (∀ o, find_entry (required_tasks_ s') o
              = d ← find_entry (required_tasks_ s) o;
                let d1 := mkObjectDependencies (owner_address d)
                            (dependent_tasks d ∖ {[task_id]}) (dependent_workers d) in
                if Empty d1 then None else Some d1) ∧
        (∀ object_id, object_id ∈ required_objects_ s' ↔
           object_id ∈ required_objects_ s ∧
           (object_id ∈ get_dependencies task_entry →
            objectIsRequired s' object_id = true)) ∧
        local_objects_ s' = local_objects_ s ∧
        worker_dependencies_ s' = worker_dependencies_ s ∧
        pending_tasks_ s' = pending_tasks_ s.
Proof.
  intros Hreach He.
  pose proof (reachable_honouring_synced s Hreach) as [Hi Hn _ _].
  pose proof (reachable_consistent s (reachable_honouring_reachable s Hreach))
    as [_ Hd _ _].
  pose proof (NoDup_elements (get_dependencies task_entry)) as Hnd.
  destruct (remove_loop_returns (erase_dependent_task task_id)
              (elements (get_dependencies task_entry)) (required_tasks_ s) Hnd)
    as [rt' Hloop].
  { intros o Ho%elem_of_elements. specialize (Hi _ _ _ He Ho).
    apply elem_of_dependent_tasks_of in Hi as (d & Hf & Ht). exists d.
    split; [done|]. unfold erase_dependent_task. rewrite decide_True by done. eauto. }
  unfold UnsubscribeGetDependencies. rewrite He. simpl. rewrite Hloop. simpl.
  eexists. split; [done|].
  match goal with
  | |- context [foldl _ ?s1 ?l] =>
      destruct (cancel_loop_spec l s1) as [Hsame Hro];
      set (s' := foldl (λ s o, HandleRemoteDependencyCanceled o s) s1 l) in *
  end.
  destruct Hsame as (Hl & Htd & Hwd & Hrt & Hp). simpl in Hl, Htd, Hwd, Hrt, Hp.
  split; [done|]. split; [|split; [|done]].
  - intros o. rewrite Hrt.
    destruct (remove_loop_find _ _ _ _ Hnd Hloop o) as [Hout Hin].
    destruct (decide (o ∈ elements (get_dependencies task_entry))) as [Ho|Ho].
    + destruct (Hin Ho) as (d & d1 & Hf & Hf1 & ->). rewrite Hf. simpl.
      unfold erase_dependent_task in Hf1. case_decide; [|done]. by injection Hf1 as <-.
    + rewrite Hout by done.
      destruct (find_entry (required_tasks_ s) o) as [d|] eqn:Hf; [|done]. simpl.
      assert (task_id ∉ dependent_tasks d) as Hnot.
      { intros Ht. destruct (Hd _ _ Hf) as [Hdt _].
        destruct (Hdt _ Ht) as (e' & He' & Ho'). rewrite He in He'.
        injection He' as <-. by apply Ho, elem_of_elements. }
      replace (dependent_tasks d ∖ {[task_id]}) with (dependent_tasks d) by set_solver.
      specialize (Hn _ _ Hf). unfold Empty in *. simpl. rewrite Hn. by destruct d.
  - intros o. rewrite Hro. simpl. rewrite elem_of_elements.
    assert (objectIsRequired s' o
            = objectIsRequired
                (with_required_tasks rt'
                   (with_task_dependencies (delete task_id (task_dependencies_ s)) s)) o)
      as ->; [|done].
    apply objectIsRequired_same_indices. by repeat split.
Qed.

(** X11. Along a sequence of public operations in which every bulk removal
    honours its contract, [UnsubscribeGetDependencies] of a subscribed task
    returns [true] without failing a check: the entry of the task is erased,
    the task is removed from the dependent tasks of every record (a record
    left without dependents being erased), no record loses a dependent
    worker, and [required_objects_] loses the declared objects that are no
    longer required, and nothing else. *)
Theorem X11_UnsubscribeGetDependencies_subscribed (ops : list Operation)
    (s : TaskDependencyManager) (task_id : TaskID) (task_entry : TaskDependencies) :
  contract_honoured ops TaskDependencyManager_new →
  perform_all ops TaskDependencyManager_new = Returns s →
  task_dependencies_ s !! task_id = Some task_entry →
  ∃ s', UnsubscribeGetDependencies task_id s = Returns (true, s') ∧
        task_dependencies_ s' = delete task_id (task_dependencies_ s) ∧
        (∀ object_id, dependent_tasks_of s' object_id
                      = dependent_tasks_of s object_id ∖ {[task_id]}) ∧
        (∀ object_id, dependent_workers_of s' object_id
                      = dependent_workers_of s object_id) ∧
        (∀ object_id, object_id ∈ required_objects_ s' ↔
           object_id ∈ required_objects_ s ∧
           (object_id ∈ get_dependencies task_entry →
            objectIsRequired s' object_id = true)) ∧
        local_objects_ s' = local_objects_ s ∧
        worker_dependencies_ s' = worker_dependencies_ s ∧
        pending_tasks_ s' = pending_tasks_ s.
Proof.
  intros Hcontract Hops He.
  assert (reachable_honouring s) as Hreach
    by (eapply contract_honoured_reachable; [constructor|done..]).
  destruct (UnsubscribeGetDependencies_entries s task_id task_entry Hreach He)
    as (s' & Hcall & Htd & Hentry & Hro & Hrest).
  exists s'. split; [done|]. split; [done|]. split; [|split; [|done]].
  - intros o. unfold dependent_tasks_of. rewrite Hentry.
    destruct (find_entry (required_tasks_ s) o) as [d|]; simpl; [|set_solver].
    destruct (Empty _) eqn:HE; [|done].
    destruct (proj1 (Empty_true _) HE) as [H1 _]. simpl in H1. by rewrite H1.
  - intros o. unfold dependent_workers_of. rewrite Hentry.
    destruct (find_entry (required_tasks_ s) o) as [d|]; simpl; [|done].
    destruct (Empty _) eqn:HE; [|done].
    destruct (proj1 (Empty_true _) HE) as [_ H2]. simpl in H2. by rewrite H2.
Qed.

End UnsubscribeFacts.

Lemma X11_UnsubscribeGetDependencies_subscribed_witness :
  let s := @state_after accepting_object_manager sample_operations in
  ∃ s', UnsubscribeGetDependencies task_1 s = Returns (true, s') ∧
        task_dependencies_ s' = delete task_1 (task_dependencies_ s) ∧
        (∀ object_id, dependent_tasks_of s' object_id
                      = dependent_tasks_of s object_id ∖ {[task_1]}).
Proof.
  intros s.
  destruct (@X11_UnsubscribeGetDependencies_subscribed accepting_object_manager
              sample_operations s task_1 (mkTaskDependencies {[object_1; object_2]} 1))
    as (s' & Hcall & Hentry & Htasks & _).
  - apply (bool_decide_eq_true_1
             (@contract_honoured accepting_object_manager sample_operations
                TaskDependencyManager_new)).
    vm_compute. reflexivity.
  - vm_compute. reflexivity.
  - vm_compute. reflexivity.
  - exists s'. split; [exact Hcall|]. split; [exact Hentry|exact Htasks].
Defined.

(** ** Subscribing again *)

Lemma record_get_dependency_counter t s ref :
  let e := entry_of (task_dependencies_ s) t in
  let e' := entry_of (task_dependencies_ (record_get_dependency t s ref)) t in
  num_missing_get_dependencies e'
  = num_missing_get_dependencies e
    + missing_count ({[ref_object_id ref]} ∖ get_dependencies e) (local_objects_ s).
Proof.
  unfold record_get_dependency. fold (entry_of (task_dependencies_ s) t).
  unfold missing_count. case_decide as Hin; simpl.
  - replace ({[ref_object_id ref]} ∖ _ ∖ _) with (∅ : gset ObjectID) by set_solver.
    rewrite size_empty. lia.
  - unfold entry_of at 1. rewrite lookup_insert_eq. simpl. case_decide as Hl.
    + replace ({[ref_object_id ref]} ∖ _ ∖ _) with (∅ : gset ObjectID) by set_solver.
      rewrite size_empty. lia.
    + replace ({[ref_object_id ref]} ∖ _ ∖ _)
        with ({[ref_object_id ref]} : gset ObjectID) by set_solver.
      rewrite size_singleton. lia.
Qed.

Lemma record_get_dependency_others t s ref t' :
  t' ≠ t →
  task_dependencies_ (record_get_dependency t s ref) !! t' = task_dependencies_ s !! t'.
Proof.
  intros Hne. unfold record_get_dependency. case_decide; [done|]. simpl.
  by rewrite lookup_insert_ne.
Qed.

Lemma record_loop_counter t refs s :
  let s' := foldl (record_get_dependency t) s refs in
  let e := entry_of (task_dependencies_ s) t in
  num_missing_get_dependencies (entry_of (task_dependencies_ s') t)
  = num_missing_get_dependencies e
    + missing_count (list_to_set (ref_object_id <$> refs) ∖ get_dependencies e)
                    (local_objects_ s).
Proof.
  revert s. induction refs as [|ref refs IH]; intros s; simpl.
  - unfold missing_count.
    replace (∅ ∖ _ ∖ _) with (∅ : gset ObjectID) by set_solver.
    rewrite size_empty. lia.
  - rewrite IH, record_get_dependency_counter.
    destruct (record_get_dependency_frame t s ref) as (-> & _).
    set (e := entry_of (task_dependencies_ s) t).
    set (e1 := entry_of (task_dependencies_ (record_get_dependency t s ref)) t).
    assert (get_dependencies e1 = {[ref_object_id ref]} ∪ get_dependencies e) as ->.
    { apply set_eq. intros o. subst e e1.
      rewrite <- record_get_dependency_grows. set_solver. }
    unfold missing_count.
    change (list_fmap ObjectReference (N * N)%type ref_object_id refs)
      with (ref_object_id <$> refs).
    generalize (list_to_set (ref_object_id <$> refs) : gset ObjectID).
    generalize (ref_object_id ref) (local_objects_ s). clearbody e. clear.
    intros o L R.
    assert (size (({[o]} ∪ R) ∖ get_dependencies e ∖ L)
            = (size ({[o]} ∖ get_dependencies e ∖ L)
               + size (R ∖ ({[o]} ∪ get_dependencies e) ∖ L))%nat) as ->; [|lia].
    rewrite <- size_union by set_solver. f_equal.
    apply set_eq. intros x. destruct (decide (x = o)); set_solver.
Qed.

Section AdditiveFacts.
Context {object_manager_ : ObjectManagerInterface}.

(** X12. Subscribing is additive.  After [SubscribeGetDependencies] the
    task has declared what it had declared before and the objects of the
    call; its counter has grown by the number of objects of the call that it
    had not declared and that are not local; the entries of the other tasks,
    the local registry, the wait-sets and the pending tasks are as before;
    every record keeps its dependent workers and loses no dependent task. *)
Theorem X12_SubscribeGetDependencies_additive (task_id : TaskID)
    (refs : list ObjectReference) (s : TaskDependencyManager) (b : bool)
    (s' : TaskDependencyManager) :
  SubscribeGetDependencies task_id refs s = Returns (b, s') →
  let before := entry_of (task_dependencies_ s) task_id in
  (∃ after,
     task_dependencies_ s' !! task_id = Some after ∧
     get_dependencies after
     = get_dependencies before ∪ list_to_set (ref_object_id <$> refs) ∧
     num_missing_get_dependencies after
     = num_missing_get_dependencies before
       + Z.of_nat (size (list_to_set (ref_object_id <$> refs)
                         ∖ get_dependencies before ∖ local_objects_ s))) ∧
  (∀ other, other ≠ task_id →
     task_dependencies_ s' !! other = task_dependencies_ s !! other) ∧
  (∀ object_id, dependent_tasks_of s object_id ⊆ dependent_tasks_of s' object_id) ∧
  (∀ object_id, dependent_workers_of s' object_id = dependent_workers_of s object_id) ∧
  local_objects_ s' = local_objects_ s ∧
  worker_dependencies_ s' = worker_dependencies_ s ∧
  pending_tasks_ s' = pending_tasks_ s.
Proof.
  unfold SubscribeGetDependencies.
  set (s0 := with_task_dependencies _ s).
  destruct (for_each _ refs _) as [s2|] eqn:Hloop; [|done]. simpl.
  intros [= _ <-]. rewrite for_each_fmap in Hloop.
  apply require_loop_spec in Hloop as [(Hl & Htd & Hwd & Hrt & Hp) _].
  rewrite Hl, Htd, Hwd, Hp.
  assert (entry_of (task_dependencies_ s0) task_id
          = entry_of (task_dependencies_ s) task_id) as Hentry0.
  { subst s0. unfold entry_of. simpl. by rewrite lookup_insert_eq. }
  split; [|split; [|split; [|split; [|split; [|split]]]]].
  - assert (is_Some (task_dependencies_ (foldl (record_get_dependency task_id) s0 refs)
                       !! task_id)) as [e He].
    { apply foldl_preserves.
      - intros. by apply record_get_dependency_subscribed.
      - subst s0. simpl. rewrite lookup_insert_eq. eauto. }
    exists e. split; [done|].
    pose proof (record_loop_counter task_id refs s0) as Hcount.
    pose proof (record_loop_grows task_id refs s0) as Hgrow.
    cbv zeta in Hcount. unfold entry_of in Hcount at 1. unfold entry_of in Hgrow at 2.
    rewrite Hentry0 in Hcount. setoid_rewrite Hentry0 in Hgrow.
    rewrite He in Hcount. setoid_rewrite He in Hgrow.
    split; [|exact Hcount].
    apply set_eq. intros o. rewrite <- Hgrow, elem_of_union, elem_of_list_to_set. done.
  - intros t' Hne.
    apply (foldl_preserves
             (λ s1, task_dependencies_ s1 !! t' = task_dependencies_ s !! t')).
    + intros s1 ref _ <-. by apply record_get_dependency_others.
    + subst s0. simpl. by rewrite lookup_insert_ne.
  - intros o. unfold dependent_tasks_of. rewrite Hrt.
    apply (foldl_preserves
             (λ s1, dependent_tasks_of s o ⊆ dependent_tasks_of s1 o)); [|done].
    intros s1 ref _ Hsub. etrans; [exact Hsub|].
    unfold record_get_dependency. case_decide; [done|]. unfold dependent_tasks_of.
    simpl. rewrite find_entry_store, find_or_emplace_spec. case_decide as Ho; [|done].
    subst o. destruct (find_entry (required_tasks_ s1) (ref_object_id ref)); simpl;
      set_solver.
  - intros o. unfold dependent_workers_of at 1. rewrite Hrt.
    apply (foldl_preserves
             (λ s1, dependent_workers_of s1 o = dependent_workers_of s o)); [|done].
    intros s1 ref _ <-.
    unfold record_get_dependency. case_decide; [done|]. unfold dependent_workers_of.
    simpl. rewrite find_entry_store, find_or_emplace_spec. case_decide as Ho; [|done].
    subst o. by destruct (find_entry (required_tasks_ s1) (ref_object_id ref)).
  - by destruct (record_get_dependency_grow task_id s0 refs) as (-> & _).
  - apply (foldl_preserves
             (λ s1, worker_dependencies_ s1 = worker_dependencies_ s)); [|done].
    intros s1 ref _ <-. by destruct (record_get_dependency_frame task_id s1 ref)
      as (_ & -> & _).
  - by destruct (record_get_dependency_grow task_id s0 refs) as (_ & -> & _).
Qed.

End AdditiveFacts.

Lemma X12_SubscribeGetDependencies_additive_witness :
  let s := @state_after accepting_object_manager
             [OpSubscribeGetDependencies task_1 [mkObjectReference object_1 sample_owner]] in
  ∃ s' after,
    @SubscribeGetDependencies accepting_object_manager task_1
      [mkObjectReference object_2 sample_owner; mkObjectReference object_1 sample_owner] s
    = Returns (false, s') ∧
    task_dependencies_ s' !! task_1 = Some after ∧
    get_dependencies after
    = {[object_1]} ∪ list_to_set [object_2; object_1] ∧
    num_missing_get_dependencies after
    = 1 + Z.of_nat (size (list_to_set [object_2; object_1]
                          ∖ ({[object_1]} : gset ObjectID) ∖ local_objects_ s)).
Proof.
  intros s.
  destruct (@SubscribeGetDependencies accepting_object_manager task_1
              [mkObjectReference object_2 sample_owner;
               mkObjectReference object_1 sample_owner] s)
    as [[b s']|] eqn:Hcall; [|vm_compute in Hcall; discriminate Hcall].
  destruct (@X12_SubscribeGetDependencies_additive accepting_object_manager _ _ _ _ _
              Hcall) as ((after & Hentry & Hdeps & Hcount) & _).
  assert (b = false) as -> by (vm_compute in Hcall; by injection Hcall as <- _).
  exists s', after. split; [reflexivity|]. split; [exact Hentry|].
  split; [exact Hdeps|exact Hcount].
Defined.

(** ** Waiting workers *)

Lemma record_wait_dependency_waits w s ref :
  wait_set (record_wait_dependency w s ref) w
  = wait_set s w ∪ ({[ref_object_id ref]} ∖ local_objects_ s).
Proof.
  unfold record_wait_dependency, wait_set. case_decide as Hl; [set_solver|].
  case_decide as Hin; [set_solver|]. simpl. rewrite lookup_insert_eq. simpl.
  set_solver.
Qed.

Lemma record_wait_dependency_others w s ref w' :
  w' ≠ w →
  worker_dependencies_ (record_wait_dependency w s ref) !! w'
  = worker_dependencies_ s !! w'.
Proof.
  intros Hne. unfold record_wait_dependency. repeat case_decide; [done..|]. simpl.
  by rewrite lookup_insert_ne.
Qed.

Lemma record_wait_dependency_local w s ref :
  ref_object_id ref ∈ local_objects_ s → record_wait_dependency w s ref = s.
Proof. intros Hl. unfold record_wait_dependency. by rewrite decide_True. Qed.

Section WaitFacts.
Context {object_manager_ : ObjectManagerInterface}.

Lemma require_loop_local l s :
  (∀ o, o ∈ l → o ∈ local_objects_ s) →
  for_each HandleRemoteDependencyRequired l s = Returns s.
Proof.
  induction l as [|x l IH]; intros Hl; simpl; [done|].
  rewrite HandleRemoteDependencyRequired_settled.
  - simpl. apply IH. intros o Ho. apply Hl. by right.
  - intros (_ & Hn & _)%objectIsRequired_true. destruct Hn. apply Hl. left.
Qed.

(** X13. After [SubscribeWaitDependencies] the worker has an entry, whose
    wait-set is the one it had before and the objects of the call that are
    not local; the other workers, the subscribed tasks, the local registry
    and the pending tasks are as before.  When every object of the call is
    local (in particular when there is none), the index and
    [required_objects_] are unchanged and no outgoing call is made. *)
Theorem X13_SubscribeWaitDependencies_waits (worker : WorkerID)
    (refs : list ObjectReference) (s s' : TaskDependencyManager) :
  SubscribeWaitDependencies worker refs s = Returns s' →
  worker_dependencies_ s' !! worker
  = Some (wait_set s worker
          ∪ list_to_set (ref_object_id <$> refs) ∖ local_objects_ s) ∧
  (∀ other, other ≠ worker →
     worker_dependencies_ s' !! other = worker_dependencies_ s !! other) ∧
  task_dependencies_ s' = task_dependencies_ s ∧
  local_objects_ s' = local_objects_ s ∧
  pending_tasks_ s' = pending_tasks_ s ∧
  ((∀ object, object ∈ refs → ref_object_id object ∈ local_objects_ s) →
   required_tasks_ s' = required_tasks_ s ∧
   required_objects_ s' = required_objects_ s ∧
   outgoing_ s' = outgoing_ s).
Proof.
  unfold SubscribeWaitDependencies.
  set (s0 := with_worker_dependencies _ s).
  intros Hloop. rewrite for_each_fmap in Hloop.
  pose proof (require_loop_spec _ _ _ Hloop) as [(Hl & Htd & Hwd & Hrt & Hp) _].
  rewrite Hl, Htd, Hwd, Hp.
  assert (∀ s1, local_objects_ (foldl (record_wait_dependency worker) s1 refs)
                = local_objects_ s1) as Hlocal.
  { intros s1. by destruct (record_wait_dependency_grow worker s1 refs) as (-> & _). }
  split; [|split; [|split; [|split; [|split]]]].
  - assert (∀ s1, is_Some (worker_dependencies_ s1 !! worker) →
              worker_dependencies_ (foldl (record_wait_dependency worker) s1 refs)
                !! worker
              = Some (wait_set s1 worker
                      ∪ list_to_set (ref_object_id <$> refs) ∖ local_objects_ s1))
      as Hwaits.
    { clear. induction refs as [|ref refs IH]; intros s1 Hsome; simpl.
      - unfold wait_set. destruct Hsome as [ws ->]. simpl. f_equal. set_solver.
      - rewrite IH.
        + rewrite record_wait_dependency_waits.
          destruct (record_wait_dependency_frame worker s1 ref) as (-> & _).
          f_equal. set_solver.
        + unfold record_wait_dependency. repeat case_decide; [done..|]. simpl.
          rewrite lookup_insert_eq. eauto. }
    rewrite Hwaits.
    + f_equal. unfold wait_set. subst s0. simpl. by rewrite lookup_insert_eq.
    + subst s0. simpl. rewrite lookup_insert_eq. eauto.
  - intros w' Hne.
    apply (foldl_preserves
             (λ s1, worker_dependencies_ s1 !! w' = worker_dependencies_ s !! w')).
    + intros s1 ref _ <-. by apply record_wait_dependency_others.
    + subst s0. simpl. by rewrite lookup_insert_ne.
  - apply (foldl_preserves (λ s1, task_dependencies_ s1 = task_dependencies_ s));
      [|done].
    intros s1 ref _ <-. by destruct (record_wait_dependency_frame worker s1 ref)
      as (_ & -> & _).
  - exact (Hlocal s0).
  - by destruct (record_wait_dependency_grow worker s0 refs) as (_ & -> & _).
  - intros Hall.
    assert (foldl (record_wait_dependency worker) s0 refs = s0) as Hfold.
    { assert (∀ s1, local_objects_ s1 = local_objects_ s →
                foldl (record_wait_dependency worker) s1 refs = s1) as Hid; [|by apply Hid].
      clear -Hall. induction refs as [|ref refs IH]; intros s1 H1; simpl; [done|].
      rewrite record_wait_dependency_local.
      - apply IH; [|done]. intros ref' Href'. apply Hall. by right.
      - rewrite H1. apply Hall. left. }
    rewrite Hfold in Hloop. rewrite require_loop_local in Hloop.
    + by injection Hloop as <-.
    + intros o (ref & -> & Href)%list_elem_of_fmap. by apply Hall.
Qed.

End WaitFacts.

Lemma X13_SubscribeWaitDependencies_waits_witness :
  let s := @state_after accepting_object_manager [OpHandleObjectLocal object_1] in
  ∃ s', @SubscribeWaitDependencies accepting_object_manager worker_1
          [mkObjectReference object_1 sample_owner] s = Returns s' ∧
        worker_dependencies_ s' !! worker_1
        = Some (wait_set s worker_1
                ∪ list_to_set [object_1] ∖ local_objects_ s) ∧
        required_tasks_ s' = required_tasks_ s ∧
        required_objects_ s' = required_objects_ s ∧
        outgoing_ s' = outgoing_ s.
Proof.
  intros s.
  destruct (@SubscribeWaitDependencies accepting_object_manager worker_1
              [mkObjectReference object_1 sample_owner] s)
    as [s'|] eqn:Hcall; [|vm_compute in Hcall; discriminate Hcall].
  destruct (@X13_SubscribeWaitDependencies_waits accepting_object_manager _ _ _ _ Hcall)
    as (Hwaits & _ & _ & _ & _ & Hlocal).
  exists s'. split; [reflexivity|]. split; [exact Hwaits|]. apply Hlocal.
  intros ref Href. apply list_elem_of_singleton in Href as ->.
  vm_compute. reflexivity.
Defined.

(** ** The shape of the index *)

Section IndexShape.
Context {object_manager_ : ObjectManagerInterface}.

Lemma perform_index_closed P op s s' :
  index_closed P → perform op s = Returns s' →
  P (required_tasks_ s) → P (required_tasks_ s').
Proof.
  intros (Hstore & Herase & Hdelete).
  assert (∀ f l rt rt', for_each (remove_dependent f) l rt = Returns rt' → P rt → P rt')
    as Hremove.
  { intros f l rt rt' Hloop Hrt. revert Hloop. apply for_each_preserves; [|done].
    intros rt1 rt2 x _ H1 (d & d1 & _ & _ & ->)%remove_dependent_spec.
    destruct (Empty d1); auto. }
  destruct op as [t refs|w refs|t|w|o|o|task|t|ids]; simpl.
  - unfold SubscribeGetDependencies.
    destruct (for_each _ _ _) as [s2|] eqn:Hloop; [|done]. simpl.
    intros [= <-] Hs. rewrite for_each_fmap in Hloop.
    apply require_loop_spec in Hloop as [(_ & _ & _ & -> & _) _].
    apply (foldl_preserves (λ s1, P (required_tasks_ s1))); [|exact Hs].
    intros s1 ref _ H1. unfold record_get_dependency. case_decide; [done|].
    simpl. by apply Hstore.
  - unfold SubscribeWaitDependencies. intros Hloop Hs.
    rewrite for_each_fmap in Hloop.
    apply require_loop_spec in Hloop as [(_ & _ & _ & -> & _) _].
    apply (foldl_preserves (λ s1, P (required_tasks_ s1))); [|exact Hs].
    intros s1 ref _ H1. unfold record_wait_dependency. repeat case_decide; [done..|].
    simpl. by apply Hstore.
  - unfold UnsubscribeGetDependencies.
    destruct (task_dependencies_ s !! t) as [e|]; [|by intros [= <-]].
    simpl. destruct (for_each _ _ _) as [rt'|] eqn:Hloop; [|done]. simpl.
    intros [= <-] Hs.
    match goal with
    | |- context [foldl _ ?s1 ?l] =>
        destruct (cancel_loop_spec l s1) as [(_ & _ & _ & -> & _) _]
    end.
    simpl. by eapply Hremove.
  - unfold UnsubscribeWaitDependencies.
    destruct (worker_dependencies_ s !! w) as [ws|]; [|by intros [= <-]].
    simpl. destruct (for_each _ _ _) as [rt'|] eqn:Hloop; [|done]. simpl.
    intros [= <-] Hs.
    match goal with
    | |- context [foldl _ ?s1 ?l] =>
        destruct (cancel_loop_spec l s1) as [(_ & _ & _ & -> & _) _]
    end.
    simpl. by eapply Hremove.
  - unfold HandleObjectLocal. case_decide; [done|]. simpl.
    destruct (find_entry (required_tasks_ s) o) as [d|]; simpl.
    + destruct (foldl mark_dependency_local _ _) as [ready td1].
      destruct (for_each _ _ _) as [wd1|]; [|done]. simpl.
      intros [= <-] Hs.
      match goal with
      | |- context [HandleRemoteDependencyCanceled o ?s1] =>
          destruct (HandleRemoteDependencyCanceled_spec o s1)
            as [(_ & _ & _ & -> & _) _]
      end.
      simpl. destruct (Empty _); auto.
    + intros [= <-] Hs.
      match goal with
      | |- context [HandleRemoteDependencyCanceled o ?s1] =>
          by destruct (HandleRemoteDependencyCanceled_spec o s1)
            as [(_ & _ & _ & -> & _) _]
      end.
  - destruct (HandleObjectMissing _ _) as [[r s1]|] eqn:Hop; [|done].
    simpl. intros [= <-].
    by apply HandleObjectMissing_spec in Hop as (_ & _ & _ & _ & -> & _).
  - intros [= <-]. destruct (tracked task) eqn:Htracked;
      [|by rewrite TaskPending_untracked].
    destruct (decide (TaskSpecification_TaskId task ∈ pending_tasks_ s)) as [Hin|Hnin];
      [by rewrite TaskPending_pending|].
    by destruct (TaskPending_spec task s Htracked Hnin) as [(_ & _ & _ & -> & _) _].
  - intros Hcall. destruct (decide (t ∈ pending_tasks_ s)) as [Hin|Hnin].
    + by apply TaskCanceled_spec in Hcall as [(_ & _ & _ & -> & _) _].
    + rewrite TaskCanceled_not_pending in Hcall by done. by injection Hcall as <-.
  - unfold RemoveTasksAndRelatedObjects.
    pose proof (collect_loop_spec (elements ids) ∅ s (NoDup_elements _)) as Hcollect.
    destruct (foldl collect_and_forget _ _) as [C s1]. simpl in Hcollect.
    destruct Hcollect as (_ & _ & _ & _ & _ & Hrt & _).
    intros [-> _]%check_loop_spec Hs.
    apply (foldl_preserves (λ s2, P (required_tasks_ s2))); [|by rewrite Hrt].
    intros s2 x _ H2. destruct (cancel_created_by_spec s2 x) as (-> & _).
    by apply Hdelete.
Qed.

Lemma no_empty_outer_closed : index_closed no_empty_outer.
Proof.
  split; [|split].
  - intros rt o d Hrt c inner. unfold store_entry.
    destruct (decide (c = TaskId o)) as [->|Hne].
    + rewrite lookup_insert_eq. intros [= <-]. apply insert_non_empty.
    + rewrite lookup_insert_ne by done. apply Hrt.
  - intros rt o Hrt c inner. unfold erase_entry. case_decide as Hsz.
    + intros [_ Hc]%lookup_delete_Some. by eapply Hrt.
    + destruct (decide (c = TaskId o)) as [->|Hne].
      * rewrite lookup_insert_eq. intros [= <-] Hempty. apply Hsz.
        by rewrite Hempty, map_size_empty.
      * rewrite lookup_insert_ne by done. apply Hrt.
  - intros rt c Hrt c' inner [_ Hc]%lookup_delete_Some. by eapply Hrt.
Qed.

(** X14. After any sequence of public operations, no outer entry of
    [required_tasks_] holds an empty map: an outer entry is erased with its
    last record. *)
Theorem X14_no_empty_outer_entry (ops : list Operation) (s : TaskDependencyManager) :
  perform_all ops TaskDependencyManager_new = Returns s →
  ∀ creating_task_id inner,
    required_tasks_ s !! creating_task_id = Some inner → inner ≠ ∅.
Proof.
  intros Hops. change (no_empty_outer (required_tasks_ s)). revert Hops.
  unfold perform_all.
  apply (for_each_preserves (λ s1, no_empty_outer (required_tasks_ s1))).
  - intros s1 s2 op _ H1 Hop.
    by apply (perform_index_closed _ _ _ _ no_empty_outer_closed Hop).
  - intros c inner. simpl. by rewrite lookup_empty.
Qed.

End IndexShape.

Lemma X14_no_empty_outer_entry_witness :
  let ops := [OpSubscribeGetDependencies task_1
                [mkObjectReference object_1 sample_owner];
              OpSubscribeWaitDependencies worker_1
                [mkObjectReference object_2 sample_owner];
              OpUnsubscribeGetDependencies task_1] in
  ∃ inner, required_tasks_ (@state_after accepting_object_manager ops) !! creator
           = Some inner ∧ inner ≠ ∅.
Proof.
  intros ops.
  destruct (required_tasks_ (@state_after accepting_object_manager ops) !! creator)
    as [inner|] eqn:Hlookup; [|vm_compute in Hlookup; discriminate Hlookup].
  exists inner. split; [reflexivity|].
  apply (@X14_no_empty_outer_entry accepting_object_manager ops
           (@state_after accepting_object_manager ops)) with (creating_task_id := creator).
  - vm_compute. reflexivity.
  - exact Hlookup.
Defined.

(** ** The wait-sets and the index *)

Lemma waits_indexed_same_indices s s' :
  same_indices s s' → waits_indexed s → waits_indexed s'.
Proof.
  intros (_ & _ & Hwd & Hrt & _) Hs. unfold waits_indexed, wait_set, dependent_workers_of.
  rewrite Hwd, Hrt. apply Hs.
Qed.

Lemma record_get_dependency_workers t s ref o :
  dependent_workers_of (record_get_dependency t s ref) o = dependent_workers_of s o.
Proof.
  unfold record_get_dependency. case_decide; [done|]. unfold dependent_workers_of.
  simpl. rewrite find_entry_store, find_or_emplace_spec. case_decide as Ho; [|done].
  subst o. by destruct (find_entry (required_tasks_ s) (ref_object_id ref)).
Qed.

Lemma record_get_dependency_waits_indexed t s ref :
  waits_indexed s → waits_indexed (record_get_dependency t s ref).
Proof.
  intros Hs w o. rewrite record_get_dependency_workers. intros Ho. apply Hs.
  revert Ho. unfold wait_set.
  by destruct (record_get_dependency_frame t s ref) as (_ & -> & _).
Qed.

Lemma record_wait_dependency_workers w s ref o :
  dependent_workers_of s o ⊆ dependent_workers_of (record_wait_dependency w s ref) o.
Proof.
  unfold record_wait_dependency. repeat case_decide; [done..|].
  unfold dependent_workers_of. simpl.
  rewrite find_entry_store, find_or_emplace_spec. case_decide as Ho; [|done].
  subst o. destruct (find_entry (required_tasks_ s) (ref_object_id ref)); simpl;
    set_solver.
Qed.

Lemma record_wait_dependency_waits_indexed w s ref :
  waits_indexed s → waits_indexed (record_wait_dependency w s ref).
Proof.
  intros Hs w' o Ho. destruct (decide (w' = w)) as [->|Hne].
  - rewrite record_wait_dependency_waits in Ho.
    apply elem_of_union in Ho as [Ho|[Ho%elem_of_singleton Hl]%elem_of_difference].
    + by apply record_wait_dependency_workers, Hs.
    + subst o. unfold record_wait_dependency. rewrite decide_False by done.
      case_decide as Hin; [by apply Hs|]. unfold dependent_workers_of. simpl.
      rewrite find_entry_store, decide_True by done. simpl. set_solver.
  - apply record_wait_dependency_workers, Hs. revert Ho. unfold wait_set.
    by rewrite record_wait_dependency_others.
Qed.

Lemma remove_loop_keeps_workers f l rt rt' s0 w o :
  NoDup l →
  for_each (remove_dependent f) l rt = Returns rt' →
  (∀ d d1, f d = Some d1 → w ∈ dependent_workers d → w ∈ dependent_workers d1) →
  w ∈ dependent_workers_of (with_required_tasks rt s0) o →
  w ∈ dependent_workers_of (with_required_tasks rt' s0) o.
Proof.
  intros Hnd Hloop Hf (d & Hd & Hw)%elem_of_dependent_workers_of.
  apply elem_of_dependent_workers_of. simpl in *.
  destruct (remove_loop_find _ _ _ _ Hnd Hloop o) as [Hout Hin].
  destruct (decide (o ∈ l)) as [Ho|Ho].
  - destruct (Hin Ho) as (d0 & d1 & Hd0 & Hf1 & ->).
    rewrite Hd in Hd0. injection Hd0 as <-. specialize (Hf _ _ Hf1 Hw).
    destruct (Empty d1) eqn:HE; [|eauto].
    destruct (proj1 (Empty_true _) HE) as [_ HE']. rewrite HE' in Hf.
    by apply not_elem_of_empty in Hf.
  - rewrite Hout by done. eauto.
Qed.

Section WaitsIndexed.
Context {object_manager_ : ObjectManagerInterface}.

Lemma perform_waits_indexed op s s' :
  perform op s = Returns s' → honours_contract s op →
  waits_indexed s → waits_indexed s'.
Proof.
  destruct op as [t refs|w refs|t|w|o|o|task|t|ids]; simpl.
  - unfold SubscribeGetDependencies.
    destruct (for_each _ _ _) as [s2|] eqn:Hloop; [|done]. simpl.
    intros [= <-] _ Hs. rewrite for_each_fmap in Hloop.
    apply require_loop_spec in Hloop as [Hsame _].
    eapply waits_indexed_same_indices; [exact Hsame|].
    apply foldl_preserves; [|exact Hs].
    intros. by apply record_get_dependency_waits_indexed.
  - unfold SubscribeWaitDependencies. intros Hloop _ Hs.
    rewrite for_each_fmap in Hloop.
    apply require_loop_spec in Hloop as [Hsame _].
    eapply waits_indexed_same_indices; [exact Hsame|].
    apply foldl_preserves; [intros; by apply record_wait_dependency_waits_indexed|].
    intros w' o Ho. apply Hs. revert Ho. unfold wait_set. simpl.
    destruct (decide (w' = w)) as [->|Hne].
    + by rewrite lookup_insert_eq.
    + by rewrite lookup_insert_ne.
  - unfold UnsubscribeGetDependencies.
    destruct (task_dependencies_ s !! t) as [e|]; [|by intros [= <-]].
    simpl. destruct (for_each _ _ _) as [rt'|] eqn:Hloop; [|done]. simpl.
    intros [= <-] _ Hs.
    match goal with
    | |- context [foldl _ ?s1 ?l] => destruct (cancel_loop_spec l s1) as [Hsame _]
    end.
    eapply waits_indexed_same_indices; [exact Hsame|].
    intros w o Ho.
    apply (remove_loop_keeps_workers (erase_dependent_task t)
             (elements (get_dependencies e)) (required_tasks_ s) rt');
      [apply NoDup_elements|done| |by apply Hs].
    intros d d1. unfold erase_dependent_task. case_decide; [|done].
    by intros [= <-].
  - unfold UnsubscribeWaitDependencies.
    destruct (worker_dependencies_ s !! w) as [ws|] eqn:Hw; [|by intros [= <-]].
    simpl. destruct (for_each _ _ _) as [rt'|] eqn:Hloop; [|done]. simpl.
    intros [= <-] _ Hs.
    match goal with
    | |- context [foldl _ ?s1 ?l] => destruct (cancel_loop_spec l s1) as [Hsame _]
    end.
    eapply waits_indexed_same_indices; [exact Hsame|].
    intros w' o Ho.
    assert (w' ≠ w ∧ o ∈ wait_set s w') as [Hne Ho'].
    { revert Ho. unfold wait_set. simpl. destruct (decide (w' = w)) as [->|Hne].
      - rewrite lookup_delete_eq. simpl. by intros ?%not_elem_of_empty.
      - by rewrite lookup_delete_ne. }
    apply (remove_loop_keeps_workers (erase_dependent_worker w)
             (elements ws) (required_tasks_ s) rt');
      [apply NoDup_elements|done| |by apply Hs].
    intros d d1. unfold erase_dependent_worker. case_decide; [|done].
    intros [= <-] Hin. simpl. set_solver.
  - destruct (HandleObjectLocal _ _) as [[r s1]|] eqn:Hop; [|done].
    simpl. intros [= <-] _ Hs.
    apply HandleObjectLocal_spec in Hop
      as (_ & _ & _ & _ & _ & _ & Hwd & Hrt & _).
    intros w o' Ho'.
    assert (o' ∈ wait_set s w ∧ o' ≠ o) as [Hbefore Hne].
    { revert Ho'. unfold wait_set at 1. rewrite Hwd. case_decide as Hw.
      - simpl. set_solver.
      - intros Ho'. split; [done|]. intros ->. by apply Hw, Hs. }
    specialize (Hs _ _ Hbefore). unfold dependent_workers_of in *.
    by rewrite Hrt, decide_False.
  - destruct (HandleObjectMissing _ _) as [[r s1]|] eqn:Hop; [|done].
    simpl. intros [= <-] _ Hs.
    apply HandleObjectMissing_spec in Hop as (_ & _ & _ & Hwd & Hrt & _).
    unfold waits_indexed, wait_set, dependent_workers_of. rewrite Hwd, Hrt. apply Hs.
  - intros [= <-] _ Hs. destruct (tracked task) eqn:Htracked;
      [|by rewrite TaskPending_untracked].
    destruct (decide (TaskSpecification_TaskId task ∈ pending_tasks_ s)) as [Hin|Hnin];
      [by rewrite TaskPending_pending|].
    destruct (TaskPending_spec task s Htracked Hnin) as [Hsame _].
    eapply waits_indexed_same_indices; [exact Hsame|exact Hs].
  - intros Hcall _ Hs. destruct (decide (t ∈ pending_tasks_ s)) as [Hin|Hnin].
    + apply TaskCanceled_spec in Hcall as [Hsame _]; [|done].
      eapply waits_indexed_same_indices; [exact Hsame|exact Hs].
    + rewrite TaskCanceled_not_pending in Hcall by done. by injection Hcall as <-.
  - intros (_ & Hwd & _ & _ & Hrt & _)%RemoveTasksAndRelatedObjects_spec Hpurged Hs.
    intros w o Ho. unfold wait_set in Ho. rewrite Hwd in Ho.
    specialize (Hs _ _ Ho).
    apply elem_of_dependent_workers_of in Hs as (d & Hf & Hw).
    apply elem_of_dependent_workers_of. exists d. split; [|done].
    apply find_entry_Some in Hf as Hf'. destruct Hf' as (inner & Hin & Hd).
    apply find_entry_Some. exists inner. split; [|done].
    rewrite Hrt. case_decide as HC; [|done]. destruct HC as (o2 & Ho2 & Heq).
    destruct (subscribers_purged_entry _ _ _ _ _ Hpurged Ho2 Heq Hf) as [Hnone _].
    rewrite Hnone in Hw. by apply not_elem_of_empty in Hw.
Qed.

Lemma reachable_honouring_waits_indexed s : reachable_honouring s → waits_indexed s.
Proof.
  induction 1 as [|s op s' _ IH Hh Hop].
  - intros w o. unfold wait_set. simpl. rewrite lookup_empty. simpl.
    by intros ?%not_elem_of_empty.
  - by eapply perform_waits_indexed.
Qed.

(** X15. Along a sequence of public operations in which every bulk removal
    honours its contract, an object has a record in [required_tasks_]
    exactly when a subscribed task has declared it or it is in the wait-set
    of a worker, and the record of an object in the wait-set of a worker
    lists that worker. *)
Theorem X15_record_iff_subscriber (ops : list Operation) (s : TaskDependencyManager) :
  contract_honoured ops TaskDependencyManager_new →
  perform_all ops TaskDependencyManager_new = Returns s →
  (∀ object_id,
     is_Some (find_entry (required_tasks_ s) object_id) ↔
     (∃ task_id task_entry,
        task_dependencies_ s !! task_id = Some task_entry
        ∧ object_id ∈ get_dependencies task_entry)
     ∨ (∃ worker, object_id ∈ wait_set s worker)) ∧
  (∀ worker object_id, object_id ∈ wait_set s worker →
                       worker ∈ dependent_workers_of s object_id).
Proof.
  intros Hcontract Hops.
  assert (reachable_honouring s) as Hreach
    by (eapply contract_honoured_reachable; [constructor|done..]).
  pose proof (reachable_honouring_synced s Hreach) as [Hi Hn _ _].
  pose proof (reachable_consistent s (reachable_honouring_reachable s Hreach))
    as [_ Hd _ _].
  pose proof (reachable_honouring_waits_indexed s Hreach) as Hw.
  split; [|exact Hw]. intros o. split.
  - intros [d Hf]. destruct (Hd _ _ Hf) as [Hdt Hdw].
    specialize (Hn _ _ Hf). apply Empty_false in Hn.
    destruct (set_choose_or_empty (dependent_tasks d)) as [[t Ht]|Ht].
    + left. destruct (Hdt _ Ht) as (e & He & Ho). eauto.
    + destruct (set_choose_or_empty (dependent_workers d)) as [[w Hw']|Hw'].
      * right. exists w. by apply Hdw.
      * apply leibniz_equiv in Ht, Hw'. tauto.
  - intros [(t & e & He & Ho)|[w Ho]].
    + specialize (Hi _ _ _ He Ho).
      apply elem_of_dependent_tasks_of in Hi as (d & Hf & _). eauto.
    + specialize (Hw _ _ Ho).
      apply elem_of_dependent_workers_of in Hw as (d & Hf & _). eauto.
Qed.

End WaitsIndexed.

Lemma X15_record_iff_subscriber_witness :
  let ops := sample_operations
             ++ [OpSubscribeWaitDependencies worker_1
                   [mkObjectReference object_1 sample_owner]] in
  let s := @state_after accepting_object_manager ops in
  worker_1 ∈ dependent_workers_of s object_1.
Proof.
  intros ops s.
  destruct (@X15_record_iff_subscriber accepting_object_manager ops s) as [_ Hlisted].
  - apply (bool_decide_eq_true_1
             (@contract_honoured accepting_object_manager ops TaskDependencyManager_new)).
    vm_compute. reflexivity.
  - vm_compute. reflexivity.
  - apply Hlisted. vm_compute. reflexivity.
Defined.

Section UnsubscribeWaitFacts.
Context {object_manager_ : ObjectManagerInterface}.

Lemma UnsubscribeWaitDependencies_entries (s : TaskDependencyManager)
    (worker : WorkerID) (worker_entry : gset ObjectID) :
  reachable_honouring s →
  worker_dependencies_ s !! worker = Some worker_entry →
  ∃ s', UnsubscribeWaitDependencies worker s = Returns s' ∧
        worker_dependencies_ s' = delete worker (worker_dependencies_ s) ∧
        (∀ o, find_entry (required_tasks_ s') o
              = d ← find_entry (required_tasks_ s) o;
                let d1 := mkObjectDependencies (owner_address d)
                            (dependent_tasks d) (dependent_workers d ∖ {[worker]}) in
                if Empty d1 then None else Some d1) ∧
        (∀ object_id, object_id ∈ required_objects_ s' ↔
           object_id ∈ required_objects_ s ∧
           (object_id ∈ worker_entry → objectIsRequired s' object_id = true)) ∧
        local_objects_ s' = local_objects_ s ∧
        task_dependencies_ s' = task_dependencies_ s ∧
        pending_tasks_ s' = pending_tasks_ s.
Proof.
  intros Hreach He.
  pose proof (reachable_honouring_waits_indexed s Hreach) as Hw.
  pose proof (reachable_honouring_synced s Hreach) as [_ Hn _ _].
  pose proof (reachable_consistent s (reachable_honouring_reachable s Hreach))
    as [_ Hd _ _].
  pose proof (NoDup_elements worker_entry) as Hnd.
  destruct (remove_loop_returns (erase_dependent_worker worker)
              (elements worker_entry) (required_tasks_ s) Hnd)
    as [rt' Hloop].
  { intros o Ho%elem_of_elements.
    assert (o ∈ wait_set s worker) as Hin by (unfold wait_set; by rewrite He).
    apply Hw, elem_of_dependent_workers_of in Hin as (d & Hf & Hin). exists d.
    split; [done|]. unfold erase_dependent_worker. rewrite decide_True by done. eauto. }
  unfold UnsubscribeWaitDependencies. rewrite He. simpl. rewrite Hloop. simpl.
  eexists. split; [done|].
  match goal with
  | |- context [foldl _ ?s1 ?l] =>
      destruct (cancel_loop_spec l s1) as [Hsame Hro];
      set (s' := foldl (λ s o, HandleRemoteDependencyCanceled o s) s1 l) in *
  end.
  destruct Hsame as (Hl & Htd & Hwd & Hrt & Hp). simpl in Hl, Htd, Hwd, Hrt, Hp.
  split; [done|]. split; [|split; [|done]].
  - intros o. rewrite Hrt.
    destruct (remove_loop_find _ _ _ _ Hnd Hloop o) as [Hout Hin].
    destruct (decide (o ∈ elements worker_entry)) as [Ho|Ho].
    + destruct (Hin Ho) as (d & d1 & Hf & Hf1 & ->). rewrite Hf. simpl.
      unfold erase_dependent_worker in Hf1. case_decide; [|done].
      by injection Hf1 as <-.
    + rewrite Hout by done.
      destruct (find_entry (required_tasks_ s) o) as [d|] eqn:Hf; [|done]. simpl.
      assert (worker ∉ dependent_workers d) as Hnot.
      { intros Hin'. destruct (Hd _ _ Hf) as [_ Hdw]. specialize (Hdw _ Hin').
        unfold wait_set in Hdw. rewrite He in Hdw. by apply Ho, elem_of_elements. }
      replace (dependent_workers d ∖ {[worker]}) with (dependent_workers d)
        by set_solver.
      specialize (Hn _ _ Hf). unfold Empty in *. simpl. rewrite Hn. by destruct d.
  - intros o. rewrite Hro. simpl. rewrite elem_of_elements.
    assert (objectIsRequired s' o
            = objectIsRequired
                (with_required_tasks rt'
                   (with_worker_dependencies
                      (delete worker (worker_dependencies_ s)) s)) o)
      as ->; [|done].
    apply objectIsRequired_same_indices. by repeat split.
Qed.

(** X16. Along a sequence of public operations in which every bulk removal
    honours its contract, [UnsubscribeWaitDependencies] of a worker that has
    an entry returns without failing a check: the entry of the worker is
    erased, the worker is removed from the dependent workers of every record
    (a record left without dependents being erased), no record loses a
    dependent task, and [required_objects_] loses the objects of the wait-set
    that are no longer required, and nothing else. *)
Theorem X16_UnsubscribeWaitDependencies_subscribed (ops : list Operation)
    (s : TaskDependencyManager) (worker : WorkerID) (worker_entry : gset ObjectID) :
  contract_honoured ops TaskDependencyManager_new →
  perform_all ops TaskDependencyManager_new = Returns s →
  worker_dependencies_ s !! worker = Some worker_entry →
  ∃ s', UnsubscribeWaitDependencies worker s = Returns s' ∧
        worker_dependencies_ s' = delete worker (worker_dependencies_ s) ∧
        (∀ object_id, dependent_workers_of s' object_id
                      = dependent_workers_of s object_id ∖ {[worker]}) ∧
        (∀ object_id, dependent_tasks_of s' object_id
                      = dependent_tasks_of s object_id) ∧
        (∀ object_id, object_id ∈ required_objects_ s' ↔
           object_id ∈ required_objects_ s ∧
           (object_id ∈ worker_entry → objectIsRequired s' object_id = true)) ∧
        local_objects_ s' = local_objects_ s ∧
        task_dependencies_ s' = task_dependencies_ s ∧
        pending_tasks_ s' = pending_tasks_ s.
Proof.
  intros Hcontract Hops He.
  assert (reachable_honouring s) as Hreach
    by (eapply contract_honoured_reachable; [constructor|done..]).
  destruct (UnsubscribeWaitDependencies_entries s worker worker_entry Hreach He)
    as (s' & Hcall & Hwd & Hentry & Hro & Hrest).
  exists s'. split; [done|]. split; [done|]. split; [|split; [|done]].
  - intros o. unfold dependent_workers_of. rewrite Hentry.
    destruct (find_entry (required_tasks_ s) o) as [d|]; simpl; [|set_solver].
    destruct (Empty _) eqn:HE; [|done].
    destruct (proj1 (Empty_true _) HE) as [_ H2]. simpl in H2. by rewrite H2.
  - intros o. unfold dependent_tasks_of. rewrite Hentry.
    destruct (find_entry (required_tasks_ s) o) as [d|]; simpl; [|done].
    destruct (Empty _) eqn:HE; [|done].
    destruct (proj1 (Empty_true _) HE) as [H1 _]. simpl in H1. by rewrite H1.
Qed.

End UnsubscribeWaitFacts.

Lemma X16_UnsubscribeWaitDependencies_subscribed_witness :
  let ops := sample_operations
             ++ [OpSubscribeWaitDependencies worker_1
                   [mkObjectReference object_1 sample_owner]] in
  let s := @state_after accepting_object_manager ops in
  ∃ s', UnsubscribeWaitDependencies worker_1 s = Returns s' ∧
        worker_dependencies_ s' = delete worker_1 (worker_dependencies_ s) ∧
        (∀ object_id, dependent_workers_of s' object_id
                      = dependent_workers_of s object_id ∖ {[worker_1]}).
Proof.
  intros ops s.
  destruct (@X16_UnsubscribeWaitDependencies_subscribed accepting_object_manager
              ops s worker_1 {[object_1]})
    as (s' & Hcall & Hentry & Hworkers & _).
  - apply (bool_decide_eq_true_1
             (@contract_honoured accepting_object_manager ops TaskDependencyManager_new)).
    vm_compute. reflexivity.
  - vm_compute. reflexivity.
  - vm_compute. reflexivity.
  - exists s'. split; [exact Hcall|]. split; [exact Hentry|exact Hworkers].
Defined.

(** ** Subscribing, then unsubscribing *)

(** An index is determined by its records. *)
Lemma index_ext (rt rt' : gmap TaskID (gmap ObjectID ObjectDependencies)) :
  (∀ c inner o, rt !! c = Some inner → is_Some (inner !! o) → TaskId o = c) →
  (∀ c inner o, rt' !! c = Some inner → is_Some (inner !! o) → TaskId o = c) →
  no_empty_outer rt → no_empty_outer rt' →
  (∀ o, find_entry rt o = find_entry rt' o) → rt = rt'.
Proof.
  assert (∀ rt rt' : gmap TaskID (gmap ObjectID ObjectDependencies),
            (∀ c inner o, rt !! c = Some inner → is_Some (inner !! o) → TaskId o = c) →
            (∀ c inner o, rt' !! c = Some inner → is_Some (inner !! o) → TaskId o = c) →
            no_empty_outer rt →
            (∀ o, find_entry rt o = find_entry rt' o) →
            ∀ c inner, rt !! c = Some inner → rt' !! c = Some inner) as Hhalf.
  { clear. intros rt rt' Hk Hk' Hn Hfind c inner Hc.
    destruct (map_choose inner (Hn _ _ Hc)) as (o & d & Ho).
    assert (TaskId o = c) as Hkey by (eapply Hk; eauto).
    assert (find_entry rt' o = Some d) as Hf'.
    { rewrite <- Hfind. apply find_entry_Some. exists inner. by rewrite Hkey. }
    apply find_entry_Some in Hf' as (inner' & Hc' & _). rewrite Hkey in Hc'.
    rewrite Hc'. f_equal. apply map_eq. intros o'.
    destruct (decide (TaskId o' = c)) as [Hkey'|Hkey'].
    - specialize (Hfind o'). unfold find_entry in Hfind.
      rewrite Hkey', Hc, Hc' in Hfind. by simpl in Hfind.
    - destruct (inner !! o') as [d1|] eqn:H1.
      { destruct Hkey'. eapply Hk; eauto. }
      destruct (inner' !! o') as [d2|] eqn:H2; [|done].
      destruct Hkey'. eapply Hk'; eauto. }
  intros Hk Hk' Hn Hn' Hfind. apply map_eq. intros c.
  destruct (rt !! c) as [inner|] eqn:Hc.
  - symmetry. by apply (Hhalf rt rt').
  - destruct (rt' !! c) as [inner'|] eqn:Hc'; [|done].
    rewrite (Hhalf rt' rt Hk' Hk Hn' (λ o, eq_sym (Hfind o)) c inner' Hc') in Hc.
    done.
Qed.

(** What the first loop of [SubscribeGetDependencies] does to a record: the
    owner address and the dependent workers stay, and only the subscribing
    task is added. *)
Lemma record_loop_entries t refs s o :
  let s' := foldl (record_get_dependency t) s refs in
  match find_entry (required_tasks_ s) o with
  | Some d =>
      ∃ d', find_entry (required_tasks_ s') o = Some d' ∧
            owner_address d' = owner_address d ∧
            dependent_tasks d' ∖ {[t]} = dependent_tasks d ∖ {[t]} ∧
            dependent_workers d' = dependent_workers d
  | None =>
      ∀ d', find_entry (required_tasks_ s') o = Some d' →
            dependent_tasks d' ∖ {[t]} = ∅ ∧ dependent_workers d' = ∅
  end.
Proof.
  revert s. induction refs as [|ref refs IH]; intros s; simpl.
  - destruct (find_entry (required_tasks_ s) o) as [d|] eqn:Hf; [by eauto|].
    by intros d' Hd'.
  - specialize (IH (record_get_dependency t s ref)). simpl in IH.
    assert (find_entry (required_tasks_ (record_get_dependency t s ref)) o
            = find_entry (required_tasks_ s) o
            ∨ ∃ d1, find_entry (required_tasks_ (record_get_dependency t s ref)) o
                    = Some d1
                    ∧ dependent_tasks d1
                      = {[t]} ∪ from_option dependent_tasks ∅
                                  (find_entry (required_tasks_ s) o)
                    ∧ dependent_workers d1
                      = from_option dependent_workers ∅
                          (find_entry (required_tasks_ s) o)
                    ∧ (∀ d, find_entry (required_tasks_ s) o = Some d →
                            owner_address d1 = owner_address d)) as [Hstep|Hstep].
    { unfold record_get_dependency. case_decide; [by left|]. simpl.
      rewrite find_entry_store, find_or_emplace_spec.
      case_decide as Ho; [subst o|by left]. right. eexists. split; [done|]. simpl.
      destruct (find_entry (required_tasks_ s) (ref_object_id ref)) as [d|]; simpl.
      - repeat split; try done. by intros ? [= <-].
      - repeat split; done. }
    + by rewrite Hstep in IH.
    + destruct Hstep as (d1 & H1 & Ht & Hw & Ha). rewrite H1 in IH.
      destruct IH as (d' & Hd' & Ha' & Ht' & Hw').
      destruct (find_entry (required_tasks_ s) o) as [d|] eqn:Hf; simpl in Ht, Hw.
      * exists d'. split; [done|]. rewrite Ha', Ht', Hw', Ht, Hw, (Ha d eq_refl).
        repeat split. clear. set_solver.
      * intros d2 Hd2. rewrite Hd' in Hd2. injection Hd2 as <-.
        rewrite Ht', Hw', Ht, Hw. split; [|done]. clear. set_solver.
Qed.

Section RoundTrip.
Context {object_manager_ : ObjectManagerInterface}.

Lemma reachable_no_empty_outer s : reachable s → no_empty_outer (required_tasks_ s).
Proof.
  induction 1 as [|s op s' _ IH Hop].
  - intros c inner. simpl. by rewrite lookup_empty.
  - by apply (perform_index_closed _ _ _ _ no_empty_outer_closed Hop).
Qed.

(** X17. Along a sequence of public operations in which every bulk removal
    honours its contract, subscribing a task that is not subscribed and
    unsubscribing it again restores the manager: [UnsubscribeGetDependencies]
    returns [true] and every container is as it was before the
    subscription.  Only the calls made to the object manager and the
    reconstruction policy in between remain. *)
Theorem X17_subscribe_unsubscribe_restores (ops : list Operation)
    (s : TaskDependencyManager) (task_id : TaskID) (refs : list ObjectReference)
    (b : bool) (s1 : TaskDependencyManager) :
  contract_honoured ops TaskDependencyManager_new →
  perform_all ops TaskDependencyManager_new = Returns s →
  task_dependencies_ s !! task_id = None →
  SubscribeGetDependencies task_id refs s = Returns (b, s1) →
  ∃ s2, UnsubscribeGetDependencies task_id s1 = Returns (true, s2) ∧
        task_dependencies_ s2 = task_dependencies_ s ∧
        required_tasks_ s2 = required_tasks_ s ∧
        required_objects_ s2 = required_objects_ s ∧
        local_objects_ s2 = local_objects_ s ∧
        worker_dependencies_ s2 = worker_dependencies_ s ∧
        pending_tasks_ s2 = pending_tasks_ s.
Proof.
  intros Hcontract Hops Hfresh Hsub.
  assert (reachable_honouring s) as Hreach
    by (eapply contract_honoured_reachable; [constructor|done..]).
  assert (reachable_honouring s1) as Hreach1.
  { apply (reachable_honouring_perform s (OpSubscribeGetDependencies task_id refs));
      [done|done|]. simpl. by rewrite Hsub. }
  pose proof Hsub as Hsub'. unfold SubscribeGetDependencies in Hsub'.
  set (s0 := with_task_dependencies _ s) in Hsub'.
  destruct (for_each _ refs _) as [s1'|] eqn:Hloop; [|done]. simpl in Hsub'.
  injection Hsub' as _ ->. rewrite for_each_fmap in Hloop.
  apply require_loop_spec in Hloop as [(Hl & Htd & Hwd & Hrt & Hp) _].
  assert (is_Some (task_dependencies_ s1 !! task_id)) as [e He].
  { rewrite Htd. apply foldl_preserves.
    - intros. by apply record_get_dependency_subscribed.
    - subst s0. simpl. rewrite lookup_insert_eq. eauto. }
  destruct (UnsubscribeGetDependencies_entries s1 task_id e Hreach1 He)
    as (s2 & Hcall & Htd2 & Hentry & _ & Hl2 & Hwd2 & Hp2).
  assert (reachable_honouring s2) as Hreach2.
  { apply (reachable_honouring_perform s1 (OpUnsubscribeGetDependencies task_id));
      [done|done|]. simpl. by rewrite Hcall. }
  assert (local_objects_ s2 = local_objects_ s) as Hlocal.
  { rewrite Hl2, Hl.
    by destruct (record_get_dependency_grow task_id s0 refs) as (-> & _). }
  assert (pending_tasks_ s2 = pending_tasks_ s) as Hpending.
  { rewrite Hp2, Hp.
    by destruct (record_get_dependency_grow task_id s0 refs) as (_ & -> & _). }
  assert (required_tasks_ s2 = required_tasks_ s) as Hindex.
  { pose proof (reachable_honouring_reachable _ Hreach) as Hr.
    pose proof (reachable_honouring_reachable _ Hreach2) as Hr2.
    destruct (reachable_consistent _ Hr) as [Hk Hd _ _].
    destruct (reachable_consistent _ Hr2) as [Hk2 _ _ _].
    pose proof (reachable_honouring_synced _ Hreach) as [_ Hn _ _].
    apply index_ext; [exact Hk2|exact Hk|by apply reachable_no_empty_outer..|].
    intros o. rewrite Hentry, Hrt.
    pose proof (record_loop_entries task_id refs s0 o) as Hrec. simpl in Hrec.
    change (required_tasks_ s0) with (required_tasks_ s) in Hrec.
    destruct (find_entry (required_tasks_ s) o) as [d|] eqn:Hf.
    - destruct Hrec as (d' & -> & Ha & Ht & Hw). simpl. rewrite Ha, Ht, Hw.
      assert (task_id ∉ dependent_tasks d) as Hnot.
      { intros Hin. destruct (Hd _ _ Hf) as [Hdt _].
        destruct (Hdt _ Hin) as (e' & He' & _). by rewrite Hfresh in He'. }
      replace (dependent_tasks d ∖ {[task_id]}) with (dependent_tasks d)
        by (clear -Hnot; set_solver).
      specialize (Hn _ _ Hf). unfold Empty in *. simpl. rewrite Hn. by destruct d.
    - destruct (find_entry (required_tasks_ (foldl _ _ _)) o) as [d'|] eqn:Hf'; [|done]. simpl.
      destruct (Hrec d' eq_refl) as [Ht Hw].
      unfold Empty. simpl. rewrite Ht, Hw.
      by rewrite !bool_decide_eq_true_2. }
  exists s2. split; [done|]. split; [|split; [done|split; [|split; [done|split; [|done]]]]].
  - rewrite Htd2, Htd. apply map_eq. intros t'.
    destruct (decide (t' = task_id)) as [->|Hne].
    + by rewrite lookup_delete_eq, Hfresh.
    + rewrite lookup_delete_ne by done.
      apply (foldl_preserves
               (λ s3, task_dependencies_ s3 !! t' = task_dependencies_ s !! t')).
      * intros s3 ref _ <-. by apply record_get_dependency_others.
      * subst s0. simpl. by rewrite lookup_insert_ne.
  - pose proof (reachable_honouring_synced _ Hreach) as [_ _ _ Hx].
    pose proof (reachable_honouring_synced _ Hreach2) as [_ _ _ Hx2].
    apply set_eq. intros o.
    rewrite (Hx o), (Hx2 o), !objectIsRequired_true, Hindex, Hlocal, Hpending. done.
  - rewrite Hwd2, Hwd.
    apply (foldl_preserves
             (λ s3, worker_dependencies_ s3 = worker_dependencies_ s)); [|done].
    intros s3 ref _ <-. by destruct (record_get_dependency_frame task_id s3 ref)
      as (_ & -> & _).
Qed.

End RoundTrip.

Lemma X17_subscribe_unsubscribe_restores_witness :
  let s := @state_after accepting_object_manager sample_operations in
  let refs := [mkObjectReference object_2 sample_stale_owner;
               mkObjectReference (creator, 3%N) sample_owner] in
  ∃ b s1 s2,
    @SubscribeGetDependencies accepting_object_manager task_2 refs s = Returns (b, s1) ∧
    is_Some (find_entry (required_tasks_ s1) (creator, 3%N)) ∧
    UnsubscribeGetDependencies task_2 s1 = Returns (true, s2) ∧
    task_dependencies_ s2 = task_dependencies_ s ∧
    required_tasks_ s2 = required_tasks_ s ∧
    required_objects_ s2 = required_objects_ s.
Proof.
  intros s refs.
  destruct (@SubscribeGetDependencies accepting_object_manager task_2 refs s)
    as [[b s1]|f] eqn:Hsub; [|vm_compute in Hsub; discriminate Hsub].
  destruct (@X17_subscribe_unsubscribe_restores accepting_object_manager
              sample_operations s task_2 refs b s1)
    as (s2 & Hcall & Htd & Hrt & Hro & _).
  - apply (bool_decide_eq_true_1
             (@contract_honoured accepting_object_manager sample_operations
                TaskDependencyManager_new)).
    vm_compute. reflexivity.
  - vm_compute. reflexivity.
  - vm_compute. reflexivity.
  - exact Hsub.
  - exists b, s1, s2. split; [reflexivity|]. split.
    + vm_compute in Hsub. injection Hsub as _ <-. vm_compute. eauto.
    + split; [exact Hcall|]. split; [exact Htd|]. split; [exact Hrt|exact Hro].
Defined.

(** ** Waiting, then giving up *)

(** What the first loop of [SubscribeWaitDependencies] does to a record: the
    owner address and the dependent tasks stay, and only the subscribing
    worker is added. *)
Lemma record_wait_loop_entries w refs s o :
  let s' := foldl (record_wait_dependency w) s refs in
  match find_entry (required_tasks_ s) o with
  | Some d =>
      ∃ d', find_entry (required_tasks_ s') o = Some d' ∧
            owner_address d' = owner_address d ∧
            dependent_tasks d' = dependent_tasks d ∧
            dependent_workers d' ∖ {[w]} = dependent_workers d ∖ {[w]}
  | None =>
      ∀ d', find_entry (required_tasks_ s') o = Some d' →
            dependent_tasks d' = ∅ ∧ dependent_workers d' ∖ {[w]} = ∅
  end.
Proof.
  revert s. induction refs as [|ref refs IH]; intros s; simpl.
  - destruct (find_entry (required_tasks_ s) o) as [d|] eqn:Hf; [by eauto|].
    by intros d' Hd'.
  - specialize (IH (record_wait_dependency w s ref)). simpl in IH.
    assert (find_entry (required_tasks_ (record_wait_dependency w s ref)) o
            = find_entry (required_tasks_ s) o
            ∨ ∃ d1, find_entry (required_tasks_ (record_wait_dependency w s ref)) o
                    = Some d1
                    ∧ dependent_tasks d1
                      = from_option dependent_tasks ∅
                          (find_entry (required_tasks_ s) o)
                    ∧ dependent_workers d1
                      = {[w]} ∪ from_option dependent_workers ∅
                                  (find_entry (required_tasks_ s) o)
                    ∧ (∀ d, find_entry (required_tasks_ s) o = Some d →
                            owner_address d1 = owner_address d)) as [Hstep|Hstep].
    { unfold record_wait_dependency. repeat case_decide; [by left..|]. simpl.
      rewrite find_entry_store, find_or_emplace_spec.
      case_decide as Ho; [subst o|by left]. right. eexists. split; [done|]. simpl.
      destruct (find_entry (required_tasks_ s) (ref_object_id ref)) as [d|]; simpl.
      - repeat split; try done. by intros ? [= <-].
      - repeat split; done. }
    + by rewrite Hstep in IH.
    + destruct Hstep as (d1 & H1 & Ht & Hw & Ha). rewrite H1 in IH.
      destruct IH as (d' & Hd' & Ha' & Ht' & Hw').
      destruct (find_entry (required_tasks_ s) o) as [d|] eqn:Hf; simpl in Ht, Hw.
      * exists d'. split; [done|]. rewrite Ha', Ht', Hw', Ht, Hw, (Ha d eq_refl).
        repeat split. clear. set_solver.
      * intros d2 Hd2. rewrite Hd' in Hd2. injection Hd2 as <-.
        rewrite Ht', Hw', Ht, Hw. split; [done|]. clear. set_solver.
Qed.

Section WaitRoundTrip.
Context {object_manager_ : ObjectManagerInterface}.

(** X18. Along a sequence of public operations in which every bulk removal
    honours its contract, [SubscribeWaitDependencies] of a worker that has
    no entry followed by [UnsubscribeWaitDependencies] of that worker
    restores the manager: the second call returns and every container is as
    it was before the first.  Only the calls made to the object manager and
    the reconstruction policy in between remain. *)
Theorem X18_wait_unsubscribe_restores (ops : list Operation)
    (s : TaskDependencyManager) (worker : WorkerID) (refs : list ObjectReference)
    (s1 : TaskDependencyManager) :
  contract_honoured ops TaskDependencyManager_new →
  perform_all ops TaskDependencyManager_new = Returns s →
  worker_dependencies_ s !! worker = None →
  SubscribeWaitDependencies worker refs s = Returns s1 →
  ∃ s2, UnsubscribeWaitDependencies worker s1 = Returns s2 ∧
        worker_dependencies_ s2 = worker_dependencies_ s ∧
        required_tasks_ s2 = required_tasks_ s ∧
        required_objects_ s2 = required_objects_ s ∧
        local_objects_ s2 = local_objects_ s ∧
        task_dependencies_ s2 = task_dependencies_ s ∧
        pending_tasks_ s2 = pending_tasks_ s.
Proof.
  intros Hcontract Hops Hfresh Hsub.
  assert (reachable_honouring s) as Hreach
    by (eapply contract_honoured_reachable; [constructor|done..]).
  assert (reachable_honouring s1) as Hreach1
    by (by apply (reachable_honouring_perform s
                    (OpSubscribeWaitDependencies worker refs))).
  pose proof Hsub as Hloop. unfold SubscribeWaitDependencies in Hloop.
  set (s0 := with_worker_dependencies _ s) in Hloop.
  rewrite for_each_fmap in Hloop.
  apply require_loop_spec in Hloop as [(Hl & Htd & Hwd & Hrt & Hp) _].
  assert (is_Some (worker_dependencies_ s1 !! worker)) as [e He].
  { rewrite Hwd. apply foldl_preserves.
    - intros s3 ref _ Hs3. unfold record_wait_dependency.
      repeat case_decide; [done..|]. simpl. rewrite lookup_insert_eq. eauto.
    - subst s0. simpl. rewrite lookup_insert_eq. eauto. }
  destruct (UnsubscribeWaitDependencies_entries s1 worker e Hreach1 He)
    as (s2 & Hcall & Hwd2 & Hentry & _ & Hl2 & Htd2 & Hp2).
  assert (reachable_honouring s2) as Hreach2
    by (by apply (reachable_honouring_perform s1
                    (OpUnsubscribeWaitDependencies worker))).
  assert (local_objects_ s2 = local_objects_ s) as Hlocal.
  { rewrite Hl2, Hl.
    by destruct (record_wait_dependency_grow worker s0 refs) as (-> & _). }
  assert (pending_tasks_ s2 = pending_tasks_ s) as Hpending.
  { rewrite Hp2, Hp.
    by destruct (record_wait_dependency_grow worker s0 refs) as (_ & -> & _). }
  assert (required_tasks_ s2 = required_tasks_ s) as Hindex.
  { pose proof (reachable_honouring_reachable _ Hreach) as Hr.
    pose proof (reachable_honouring_reachable _ Hreach2) as Hr2.
    destruct (reachable_consistent _ Hr) as [Hk Hd _ _].
    destruct (reachable_consistent _ Hr2) as [Hk2 _ _ _].
    pose proof (reachable_honouring_synced _ Hreach) as [_ Hn _ _].
    apply index_ext; [exact Hk2|exact Hk|by apply reachable_no_empty_outer..|].
    intros o. rewrite Hentry, Hrt.
    pose proof (record_wait_loop_entries worker refs s0 o) as Hrec. simpl in Hrec.
    change (required_tasks_ s0) with (required_tasks_ s) in Hrec.
    destruct (find_entry (required_tasks_ s) o) as [d|] eqn:Hf.
    - destruct Hrec as (d' & -> & Ha & Ht & Hw). simpl. rewrite Ha, Ht, Hw.
      assert (worker ∉ dependent_workers d) as Hnot.
      { intros Hin. destruct (Hd _ _ Hf) as [_ Hdw]. specialize (Hdw _ Hin).
        unfold wait_set in Hdw. rewrite Hfresh in Hdw.
        by apply not_elem_of_empty in Hdw. }
      replace (dependent_workers d ∖ {[worker]}) with (dependent_workers d)
        by (clear -Hnot; set_solver).
      specialize (Hn _ _ Hf). unfold Empty in *. simpl. rewrite Hn. by destruct d.
    - destruct (find_entry (required_tasks_ (foldl _ _ _)) o) as [d'|] eqn:Hf';
        [|done]. simpl.
      destruct (Hrec d' eq_refl) as [Ht Hw].
      unfold Empty. simpl. rewrite Ht, Hw.
      by rewrite !bool_decide_eq_true_2. }
  exists s2. split; [done|]. split; [|split; [done|split; [|split; [done|split; [|done]]]]].
  - rewrite Hwd2, Hwd. apply map_eq. intros w'.
    destruct (decide (w' = worker)) as [->|Hne].
    + by rewrite lookup_delete_eq, Hfresh.
    + rewrite lookup_delete_ne by done.
      apply (foldl_preserves
               (λ s3, worker_dependencies_ s3 !! w' = worker_dependencies_ s !! w')).
      * intros s3 ref _ <-. by apply record_wait_dependency_others.
      * subst s0. simpl. by rewrite lookup_insert_ne.
  - pose proof (reachable_honouring_synced _ Hreach) as [_ _ _ Hx].
    pose proof (reachable_honouring_synced _ Hreach2) as [_ _ _ Hx2].
    apply set_eq. intros o.
    rewrite (Hx o), (Hx2 o), !objectIsRequired_true, Hindex, Hlocal, Hpending. done.
  - rewrite Htd2, Htd.
    apply (foldl_preserves
             (λ s3, task_dependencies_ s3 = task_dependencies_ s)); [|done].
    intros s3 ref _ <-. by destruct (record_wait_dependency_frame worker s3 ref)
      as (_ & -> & _).
Qed.

End WaitRoundTrip.

Lemma X18_wait_unsubscribe_restores_witness :
  let s := @state_after accepting_object_manager sample_operations in
  let refs := [mkObjectReference object_2 sample_stale_owner;
               mkObjectReference (creator, 3%N) sample_owner] in
  ∃ s1 s2,
    @SubscribeWaitDependencies accepting_object_manager worker_1 refs s = Returns s1 ∧
    is_Some (find_entry (required_tasks_ s1) (creator, 3%N)) ∧
    UnsubscribeWaitDependencies worker_1 s1 = Returns s2 ∧
    worker_dependencies_ s2 = worker_dependencies_ s ∧
    required_tasks_ s2 = required_tasks_ s ∧
    required_objects_ s2 = required_objects_ s.
Proof.
  intros s refs.
  destruct (@SubscribeWaitDependencies accepting_object_manager worker_1 refs s)
    as [s1|f] eqn:Hsub; [|vm_compute in Hsub; discriminate Hsub].
  destruct (@X18_wait_unsubscribe_restores accepting_object_manager
              sample_operations s worker_1 refs s1)
    as (s2 & Hcall & Hwd & Hrt & Hro & _).
  - apply (bool_decide_eq_true_1
             (@contract_honoured accepting_object_manager sample_operations
                TaskDependencyManager_new)).
    vm_compute. reflexivity.
  - vm_compute. reflexivity.
  - vm_compute. reflexivity.
  - exact Hsub.
  - exists s1, s2. split; [reflexivity|]. split.
    + vm_compute in Hsub. injection Hsub as <-. vm_compute. eauto.
    + split; [exact Hcall|]. split; [exact Hwd|]. split; [exact Hrt|exact Hro].
Defined.

(** ** What [HandleObjectLocal] leaves alone *)

Section LocalFrame.
Context {object_manager_ : ObjectManagerInterface}.

(** X19. In a state reached by public operations, a call of
    [HandleObjectLocal] that returns removes the object from
    [required_objects_] and changes nothing else about the other objects:
    no task is subscribed or unsubscribed and no task loses a declared
    object; the tasks that do not depend on the object keep their entries;
    every worker that waited for the object keeps an entry, which may be
    left empty, and the other workers are untouched; the records of the
    other objects are as before; the record of the object itself stays
    exactly when a task depends on it, with the same owner address and the
    same dependent tasks. *)
Theorem X19_HandleObjectLocal_frame (s : TaskDependencyManager)
    (object_id : ObjectID) (ready : list TaskID) (s' : TaskDependencyManager) :
  reachable s →
  HandleObjectLocal object_id s = Returns (ready, s') →
  required_objects_ s' = required_objects_ s ∖ {[object_id]} ∧
  pending_tasks_ s' = pending_tasks_ s ∧
  (∀ task_id, get_dependencies <$> task_dependencies_ s' !! task_id
              = get_dependencies <$> task_dependencies_ s !! task_id) ∧
  (∀ task_id, task_id ∉ dependent_tasks_of s object_id →
     task_dependencies_ s' !! task_id = task_dependencies_ s !! task_id) ∧
  (∀ worker_id, worker_id ∈ dependent_workers_of s object_id →
     is_Some (worker_dependencies_ s !! worker_id) ∧
     worker_dependencies_ s' !! worker_id
     = Some (wait_set s worker_id ∖ {[object_id]})) ∧
  (∀ worker_id, worker_id ∉ dependent_workers_of s object_id →
     worker_dependencies_ s' !! worker_id = worker_dependencies_ s !! worker_id) ∧
  (∀ other, other ≠ object_id →
     find_entry (required_tasks_ s') other = find_entry (required_tasks_ s) other) ∧
  (is_Some (find_entry (required_tasks_ s') object_id)
   ↔ dependent_tasks_of s object_id ≠ ∅) ∧
  dependent_tasks_of s' object_id = dependent_tasks_of s object_id ∧
  (∀ d', find_entry (required_tasks_ s') object_id = Some d' →
     ∃ d, find_entry (required_tasks_ s) object_id = Some d
          ∧ owner_address d' = owner_address d).
Proof.
  intros [_ Hd _ _]%reachable_consistent
         (_ & _ & Hp & Hro & Htd & Hwaits & Hwd & Hrt & _ & _)%HandleObjectLocal_spec.
  split; [done|]. split; [done|].
  assert (find_entry (required_tasks_ s') object_id
          = cleared_entry (find_entry (required_tasks_ s) object_id)) as Hrec.
  { by rewrite Hrt, decide_True. }
  split; [|split; [|split; [|split; [|split; [|split; [|split]]]]]].
  - intros t. rewrite Htd. case_decide as Ht; [|done].
    apply elem_of_dependent_tasks_of in Ht as (d & Hf & Ht).
    destruct (Hd _ _ Hf) as [Hdt _]. destruct (Hdt _ Ht) as (e & He & _).
    unfold entry_of. by rewrite He.
  - intros t Ht. by rewrite Htd, decide_False.
  - intros w Hw. split.
    + specialize (Hwaits _ Hw). unfold wait_set in Hwaits.
      destruct (worker_dependencies_ s !! w); [eauto|].
      by apply not_elem_of_empty in Hwaits.
    + by rewrite Hwd, decide_True.
  - intros w Hw. by rewrite Hwd, decide_False.
  - intros o' Hne. by rewrite Hrt, decide_False.
  - rewrite Hrec. unfold dependent_tasks_of, cleared_entry.
    destruct (find_entry (required_tasks_ s) object_id) as [d|]; simpl.
    + destruct (Empty _) eqn:HE.
      * destruct (proj1 (Empty_true _) HE) as [H1 _]. simpl in H1.
        split; [by intros [? ?]|]. by intros [].
      * apply Empty_false in HE. simpl in HE. split; [|eauto].
        intros _ H1. by apply HE.
    + split; [by intros [? ?]|]. by intros [].
  - unfold dependent_tasks_of. rewrite Hrec. unfold cleared_entry.
    destruct (find_entry (required_tasks_ s) object_id) as [d|]; simpl; [|done].
    destruct (Empty _) eqn:HE; [|done].
    destruct (proj1 (Empty_true _) HE) as [H1 _]. simpl in H1. by rewrite H1.
  - intros d'. rewrite Hrec. unfold cleared_entry.
    destruct (find_entry (required_tasks_ s) object_id) as [d|]; simpl; [|done].
    destruct (Empty _); [done|]. intros [= <-]. eauto.
Qed.

End LocalFrame.

Lemma X19_HandleObjectLocal_frame_witness :
  let ops := sample_operations
             ++ [OpSubscribeWaitDependencies worker_1
                   [mkObjectReference (creator, 3%N) sample_owner]] in
  let s := @state_after accepting_object_manager ops in
  ∃ ready s',
    HandleObjectLocal (creator, 3%N) s = Returns (ready, s') ∧
    required_objects_ s' = required_objects_ s ∖ {[(creator, 3%N)]} ∧
    worker_dependencies_ s' !! worker_1 = Some ∅ ∧
    find_entry (required_tasks_ s') (creator, 3%N) = None ∧
    find_entry (required_tasks_ s') object_1 = find_entry (required_tasks_ s) object_1.
Proof.
  intros ops s.
  destruct (HandleObjectLocal (creator, 3%N) s) as [[ready s']|f] eqn:Hcall;
    [|vm_compute in Hcall; discriminate Hcall].
  destruct (@X19_HandleObjectLocal_frame accepting_object_manager s (creator, 3%N)
              ready s')
    as (Hro & _ & _ & _ & Hwaited & _ & Hothers & Hrecord & _).
  - apply (@state_after_reachable accepting_object_manager ops).
    vm_compute. reflexivity.
  - exact Hcall.
  - exists ready, s'. split; [reflexivity|]. split; [exact Hro|].
    split; [|split].
    + destruct (Hwaited worker_1) as [_ ->]; [vm_compute; reflexivity|].
      vm_compute. reflexivity.
    + destruct (find_entry (required_tasks_ s') (creator, 3%N)) as [d'|] eqn:Hf;
        [|reflexivity].
      destruct (proj1 Hrecord (ex_intro _ d' eq_refl)). vm_compute. reflexivity.
    + apply Hothers. discriminate.
Defined.
